(** * TRIDENT backend: the match-scoring engine

    A shallow embedding of [backend/src/services/matchingService.js] and of
    the [explainMatch] handler of [backend/src/controllers/matchController.js],
    with the properties of the scoring engine proved about it.

    Modelling conventions.
    - A JavaScript number is a double.  The numbers the engine stores,
      compares, adds up and returns are decimals of few digits (column
      values, query parameters, scores with one decimal): such a double is
      modelled by the decimal it is written as, a rational [Q], and every
      statement about numbers is up to [Qeq] ([==]).  On these paths the
      decimals behave as the doubles do: scores with one decimal are ordered
      as their doubles are ([tenths_order64]), the total of six sub-scores
      formed and rounded in double precision is the sum of the decimals
      ([totalScore64_exact]), and so is each percentage
      ([percentage64_exact]).
    - Where the engine multiplies, divides or subtracts and hands the result
      to [Math.round] (the four scaled factor scores), the arithmetic is
      binary64, round to nearest, ties to even: module [Double].  There
      [parseFloat] gives the double itself ([JS.parseFloat64]).  The exponent
      is unbounded; the amounts of the engine (DECIMAL(10,2) columns, INTEGER
      hours, list lengths) stay far inside the normal range.
      [calculateJaccardSimilarity] and [checkRangeOverlap] are given over
      exact numbers, as the statements about them read; the scorers take the
      double of the former, the quotient of two sizes, and run
      [checkRangeOverlap64], the same code with every operation rounded.
    - [NaN] only arises from [parseFloat]/[parseInt] of an absent column and
      is always consumed by [||], so it is modelled by [None] of an [option].
      Infinities cannot come out of the DECIMAL and INTEGER columns that feed
      the engine.
    - A nullable column is an [option]; [None] is SQL NULL (JS [null]).
    - Text is [string]; [trim] and [toLowerCase] act on the ASCII range.
    - A DATEONLY column is the day number of the date, so that comparing
      two [Date] objects is comparing two integers.
    - The persistence layer is a record of tables; [await]ed queries are
      total functions on it and a thrown [Error] is the [inl] of a sum. *)

From Stdlib Require Import Ascii String QArith Qpower Qround Qminmax Lqa ZArith Lia.
From stdpp Require Import gmap strings list sorting pretty.

Local Open Scope Q_scope.

(** ** Double-precision arithmetic *)

Module Double.

Definition pow2 (e : Z) : Q := Qpower 2 e.

(** The binade of a positive number: [pow2 e <= x < pow2 (e + 1)]. *)
Definition exponent (x : Q) : Z :=
  let k := (Z.log2 (Qnum x) - Z.log2 (Zpos (Qden x)))%Z in
  if Qle_bool (pow2 k) x then k else (k - 1)%Z.

(** Nearest integer, ties to the even one. *)
Definition nearest_even (x : Q) : Z :=
  let f := Qfloor x in
  match Qcompare (x - inject_Z f) (1 # 2) with
  | Lt => f
  | Gt => (f + 1)%Z
  | Eq => if Z.even f then f else (f + 1)%Z
  end.

(** The double nearest to a positive number: 53 significant bits. *)
Definition of_pos (x : Q) : Q :=
  let e := (exponent x - 52)%Z in
  inject_Z (nearest_even (x / pow2 e)) * pow2 e.

(** The double nearest to a number. *)
Definition of_Q (x : Q) : Q :=
  match Qcompare x 0 with
  | Eq => 0
  | Gt => of_pos x
  | Lt => - of_pos (- x)
  end.

(** [+], [-], [*], [/] on doubles: the exact result, rounded. *)
Definition add (x y : Q) : Q := of_Q (x + y).
Definition sub (x y : Q) : Q := of_Q (x - y).
Definition mul (x y : Q) : Q := of_Q (x * y).
Definition div (x y : Q) : Q := of_Q (x / y).

(** Half the distance between 1 and the next double: the relative error of
    one operation is at most this. *)
Definition unit_roundoff : Q := Eval vm_compute in 1 # 2 ^ 53.

End Double.

(** ** JavaScript primitives used by the engine *)

Module JS.

(** [Math.round]: nearest integer, ties towards plus infinity. *)
Definition Math_round_int (x : Q) : Z := Qfloor (x + (1 # 2)).
Definition Math_round (x : Q) : Q := inject_Z (Math_round_int x).

Definition Math_max (x y : Q) : Q := Qmax x y.
Definition Math_min (x y : Q) : Q := Qmin x y.

(** Result of [parseFloat]/[parseInt]: a number, or [None] for [NaN]. *)
Definition parseFloat (v : option Q) : option Q := v.
Definition parseInt (v : option Z) : option Z := v.

(** [parseFloat] where the engine goes on to calculate with the result: the
    double itself. *)
Definition parseFloat64 (v : option Q) : option Q := Double.of_Q <$> v.

(** [x || d] on numbers: [NaN] and [0] are falsy. *)
Definition num_or (x : option Q) (d : Q) : Q :=
  match x with
  | Some q => if Qeq_bool q 0 then d else q
  | None => d
  end.

Definition int_or (x : option Z) (d : Z) : Z :=
  match x with
  | Some z => if Z.eqb z 0 then d else z
  | None => d
  end.

(** [!x] on a number-or-missing value. *)
Definition falsy (x : option Q) : bool :=
  match x with
  | Some q => Qeq_bool q 0
  | None => true
  end.

(** Truthiness of a nullable integer column. *)
Definition id_truthy (x : option Z) : bool :=
  match x with
  | Some z => negb (Z.eqb z 0)
  | None => false
  end.

(** [x || y] on strings: [null] and the empty string are falsy. *)
Definition str_truthy (x : option string) : bool :=
  match x with
  | Some s => negb (String.eqb s "")
  | None => false
  end.

Definition str_or (x y : option string) : option string :=
  if str_truthy x then x else y.

(** [String.prototype.split] on a one-character separator. *)
Fixpoint split (sep : ascii) (s : string) : list string :=
  match s with
  | EmptyString => [EmptyString]
  | String c s' =>
      if Ascii.eqb c sep then EmptyString :: split sep s'
      else match split sep s' with
           | cur :: rest => String c cur :: rest
           | [] => [String c EmptyString]
           end
  end.

Fixpoint trimStart (s : string) : string :=
  match s with
  | EmptyString => EmptyString
  | String c s' => if Ascii.is_space c then trimStart s' else s
  end.

Definition trimEnd (s : string) : string :=
  String.rev (trimStart (String.rev s)).

Definition trim (s : string) : string := trimEnd (trimStart s).

Definition lower_char (c : ascii) : ascii :=
  let n := nat_of_ascii c in
  if ((65 <=? n)%nat && (n <=? 90)%nat)%bool then ascii_of_nat (n + 32) else c.

Fixpoint toLowerCase (s : string) : string :=
  match s with
  | EmptyString => EmptyString
  | String c s' => String (lower_char c) (toLowerCase s')
  end.

(** [Array.prototype.includes] on strings. *)
Definition includes (l : list string) (x : string) : bool :=
  bool_decide (x ∈ l).

(** [Array.prototype.slice(start, end)] with integer arguments. *)
Definition slice_index (len i : Z) : Z :=
  if (i <? 0)%Z then Z.max (len + i) 0 else Z.min i len.

Definition slice {A} (l : list A) (start end_ : Z) : list A :=
  let len := Z.of_nat (length l) in
  let k := slice_index len start in
  let final := slice_index len end_ in
  take (Z.to_nat (Z.max (final - k) 0)) (drop (Z.to_nat k) l).

(** [Array.prototype.sort(cmp)]: a stable sort; [cmp a b > 0] puts [b]
    first.  Written as a stable insertion sort. *)
Fixpoint sort_insert {A} (cmp : A -> A -> Q) (x : A) (l : list A) : list A :=
  match l with
  | [] => [x]
  | y :: l' => if Qle_bool (cmp x y) 0 then x :: y :: l'
               else y :: sort_insert cmp x l'
  end.

Definition sort {A} (cmp : A -> A -> Q) (l : list A) : list A :=
  foldr (sort_insert cmp) [] l.

End JS.

(** ** Text-set utilities *)

(** A collection handed to [calculateJaccardSimilarity]: an array or a Set. *)
Inductive StrColl :=
  | Arr (l : list string)
  | SetOf (s : gset string).

Definition Array_from (c : StrColl) : list string :=
  match c with
  | Arr l => l
  | SetOf s => elements s
  end.

Definition parseCommaSeparated (str : option string) : list string :=
  match str with
  | None => []
  | Some s =>
      if String.eqb s "" then []
      else
        filter (λ item, (0 < String.length item)%nat)
               (map (λ item, JS.toLowerCase (JS.trim item)) (JS.split "," s))
  end.

Definition calculateJaccardSimilarity (set1 set2 : StrColl) : Q :=
  let s1 : gset string := list_to_set (Array_from set1) in
  let s2 : gset string := list_to_set (Array_from set2) in
  if ((size s1 =? 0)%nat && (size s2 =? 0)%nat)%bool then 0
  else if ((size s1 =? 0)%nat || (size s2 =? 0)%nat)%bool then 0
  else
    let intersection : gset string :=
      list_to_set (filter (λ x, x ∈ s2) (elements s1)) in
    let union : gset string := list_to_set (elements s1 ++ elements s2) in
    inject_Z (Z.of_nat (size intersection)) / inject_Z (Z.of_nat (size union)).

Record Range := mkRange { range_min : option Q; range_max : option Q }.

Definition checkRangeOverlap (range1 range2 : Range) : Q :=
  if (JS.falsy (range_min range1) || JS.falsy (range_max range1)
      || JS.falsy (range_min range2) || JS.falsy (range_max range2))%bool
  then 0
  else
    match range_min range1, range_max range1,
          range_min range2, range_max range2 with
    | Some min1, Some max1, Some min2, Some max2 =>
        let overlapMin := JS.Math_max min1 min2 in
        let overlapMax := JS.Math_min max1 max2 in
        if Qle_bool overlapMax overlapMin then 0
        else
          let overlapSize := overlapMax - overlapMin in
          let range1Size := max1 - min1 in
          let range2Size := max2 - min2 in
          let avgRangeSize := (range1Size + range2Size) / 2 in
          JS.Math_min (overlapSize / avgRangeSize) 1
    | _, _, _, _ => 0
    end.

(** [checkRangeOverlap] as it runs on doubles: every operation rounds. *)
Definition checkRangeOverlap64 (range1 range2 : Range) : Q :=
  if (JS.falsy (range_min range1) || JS.falsy (range_max range1)
      || JS.falsy (range_min range2) || JS.falsy (range_max range2))%bool
  then 0
  else
    match range_min range1, range_max range1,
          range_min range2, range_max range2 with
    | Some min1, Some max1, Some min2, Some max2 =>
        let overlapMin := JS.Math_max min1 min2 in
        let overlapMax := JS.Math_min max1 max2 in
        if Qle_bool overlapMax overlapMin then 0
        else
          let overlapSize := Double.sub overlapMax overlapMin in
          let range1Size := Double.sub max1 min1 in
          let range2Size := Double.sub max2 min2 in
          let avgRangeSize := Double.div (Double.add range1Size range2Size) 2 in
          JS.Math_min (Double.div overlapSize avgRangeSize) 1
    | _, _, _, _ => 0
    end.

(** ** Data model *)

Record Organization := mkOrganization {
  org_pk : Z;                          (* id *)
  org_name : option string;            (* name *)
  focus_areas : option string
}.

Record Project := mkProject {
  project_id : Z;
  project_title : option string;       (* title *)
  problem : option string;
  outcomes : option string;
  timeline : option string;
  methods_required : option string;
  budget_min : option Q;               (* DECIMAL(10,2) *)
  budget_max : option Q;               (* DECIMAL(10,2) *)
  estimated_hours : option Z;          (* INTEGER *)
  start_date : option Z;               (* DATEONLY *)
  org_id : option Z;
  status : string
}.

(** [project.toJSON()] with the [organization] key attached. *)
Record ProjectData := mkProjectData {
  project_row :> Project;
  organization : option Organization
}.

Record ResearcherProfile := mkResearcherProfile {
  user_id : Z;                         (* primary key *)
  affiliation : option string;
  title : option string;
  institution : option string;
  domains : option string;
  methods : option string;
  tools : option string;
  expertise : option string;
  research_interests : option string;
  compliance_certifications : option string;
  projects_completed : option Z;       (* INTEGER *)
  rate_min : option Q;                 (* DECIMAL(10,2) *)
  rate_max : option Q;
  hourly_rate_min : option Q;
  hourly_rate_max : option Q;
  availability : option string;
  current_projects_count : option Z;
  max_concurrent_projects : option Z;
  available_start_date : option Z      (* DATEONLY *)
}.

Record User := mkUser {
  id : Z;
  name : option string;
  email : option string;
  account_status : string;
  deleted_at : option Z
}.

Module Breakdown.
Record t := mk {
  expertise : Q;
  methods : Q;
  budget : Q;
  availability : Q;
  experience : Q;
  domain : Q
}.
(** [Object.values(breakdown)], in insertion order. *)
Definition values (b : t) : list Q :=
  [expertise b; methods b; budget b; availability b; experience b; domain b].
End Breakdown.

Module Match.
Record t := mk {
  totalScore : Q;
  breakdown : Breakdown.t;
  strengths : list string;
  concerns : list string
}.
End Match.

(** ** Factor scorers *)

Definition calculateExpertiseScore
    (projectExpertise researcherExpertise : option string) : Q :=
  let projectTags := parseCommaSeparated projectExpertise in
  let researcherTags := parseCommaSeparated researcherExpertise in
  if ((length projectTags =? 0)%nat || (length researcherTags =? 0)%nat)%bool
  then 0
  else
    let similarity :=
      Double.of_Q (calculateJaccardSimilarity (Arr projectTags) (Arr researcherTags)) in
    JS.Math_round (Double.mul (Double.mul similarity 30) 10) / 10.

Definition calculateMethodsScore
    (requiredMethods researcherMethods : option string) : Q :=
  let required := parseCommaSeparated requiredMethods in
  let available := parseCommaSeparated researcherMethods in
  if (length required =? 0)%nat then 25
  else if (length available =? 0)%nat then 0
  else
    let matchedMethods :=
      filter (λ method, JS.includes available method) required in
    let matchPercentage :=
      Double.div (inject_Z (Z.of_nat (length matchedMethods)))
                 (inject_Z (Z.of_nat (length required))) in
    JS.Math_round (Double.mul (Double.mul matchPercentage 25) 10) / 10.

(** The [const] bindings at the head of [calculateBudgetScore]. *)
Definition projectMin (project : Project) : Q :=
  JS.num_or (JS.parseFloat64 (budget_min project)) 0.

Definition projectMax (project : Project) : Q :=
  JS.num_or (JS.parseFloat64 (budget_max project))
            (JS.num_or (JS.parseFloat64 (budget_min project)) 0).

Definition estimatedHours (project : Project) : Z :=
  JS.int_or (JS.parseInt (estimated_hours project)) 100.

Definition rateMin (researcher : ResearcherProfile) : Q :=
  JS.num_or (JS.parseFloat64 (rate_min researcher))
            (JS.num_or (JS.parseFloat64 (hourly_rate_min researcher)) 0).

Definition rateMax (researcher : ResearcherProfile) : Q :=
  JS.num_or (JS.parseFloat64 (rate_max researcher))
            (JS.num_or (JS.parseFloat64 (hourly_rate_max researcher)) 0).

Definition calculateBudgetScore
    (project : Project) (researcher : ResearcherProfile) : Q :=
  if (Qeq_bool (projectMin project) 0 || Qeq_bool (rateMin researcher) 0)%bool
  then 0
  else
    let researcherCostMin :=
      Double.mul (rateMin researcher) (inject_Z (estimatedHours project)) in
    let researcherCostMax :=
      Double.mul (rateMax researcher) (inject_Z (estimatedHours project)) in
    let overlapPercentage :=
      checkRangeOverlap64
        (mkRange (Some (projectMin project)) (Some (projectMax project)))
        (mkRange (Some researcherCostMin) (Some researcherCostMax)) in
    JS.Math_round (Double.mul (Double.mul overlapPercentage 15) 10) / 10.

Definition calculateAvailabilityScore
    (project : Project) (researcher : ResearcherProfile) : Q :=
  let score := 0 in
  let currentProjects := JS.int_or (JS.parseInt (current_projects_count researcher)) 0 in
  let maxProjects := JS.int_or (JS.parseInt (max_concurrent_projects researcher)) 3 in
  let score := if (currentProjects <? maxProjects)%Z then score + 5 else score in
  match start_date project, available_start_date researcher with
  | Some projectStart, Some researcherAvailable =>
      if (researcherAvailable <=? projectStart)%Z then score + 5 else score
  | None, _ => score + 5
  | Some _, None => score
  end.

Definition calculateExperienceScore (projectsCompleted : option Z) : Q :=
  let count := JS.int_or (JS.parseInt projectsCompleted) 0 in
  if (count =? 0)%Z then 0
  else if (count <=? 2)%Z then 3
  else if (count <=? 5)%Z then 5
  else if (count <=? 10)%Z then 7
  else if (count <=? 20)%Z then 9
  else 10.

Definition calculateDomainScore
    (orgFocusAreas researcherDomains : option string) : Q :=
  let orgDomains := parseCommaSeparated orgFocusAreas in
  let resDomains := parseCommaSeparated researcherDomains in
  if ((length orgDomains =? 0)%nat || (length resDomains =? 0)%nat)%bool
  then 0
  else
    let similarity :=
      Double.of_Q (calculateJaccardSimilarity (Arr orgDomains) (Arr resDomains)) in
    JS.Math_round (Double.mul (Double.mul similarity 10) 10) / 10.

(** ** Score aggregator *)

(** Template-literal rendering of a nullable integer column. *)
Definition show_int (v : option Z) : string :=
  match v with
  | Some z => pretty z
  | None => "null"
  end.

(** [cond && arr.push(x)], as the list of what is pushed. *)
Definition push_if (cond : bool) (x : string) : list string :=
  if cond then [x] else [].

Definition calculateMatchScore
    (project : ProjectData) (researcher : ResearcherProfile) : Match.t :=
  let breakdown :=
    Breakdown.mk
      (calculateExpertiseScore
         (JS.str_or (problem project) (JS.str_or (outcomes project) (Some ""%string)))
         (expertise researcher))
      (calculateMethodsScore (methods_required project) (methods researcher))
      (calculateBudgetScore project researcher)
      (calculateAvailabilityScore project researcher)
      (calculateExperienceScore (projects_completed researcher))
      (calculateDomainScore
         (organization project ≫= focus_areas) (domains researcher)) in
  let totalScore := foldl Qplus 0 (Breakdown.values breakdown) in
  let strengths :=
    push_if (Qle_bool 20 (Breakdown.expertise breakdown))
      ("Strong expertise match ("
       +:+ pretty (JS.Math_round_int (Breakdown.expertise breakdown / 30 * 100))
       +:+ "%)")
    ++ (if Qeq_bool (Breakdown.methods breakdown) 25
        then ["All required methods present"%string]
        else push_if (Qle_bool 15 (Breakdown.methods breakdown))
                     "Most required methods present")
    ++ push_if (Qle_bool 12 (Breakdown.budget breakdown)) "Rate fits within budget"
    ++ push_if (Qeq_bool (Breakdown.availability breakdown) 10)
         "Available and has capacity"
    ++ push_if (Qle_bool 8 (Breakdown.experience breakdown))
         ("Highly experienced (" +:+ show_int (projects_completed researcher)
          +:+ " projects)") in
  let lt (x y : Q) := negb (Qle_bool y x) in
  let concerns :=
    push_if (lt (Breakdown.expertise breakdown) 15) "Limited expertise overlap"
    ++ push_if (lt (Breakdown.methods breakdown) 15) "Missing some required methods"
    ++ push_if (lt (Breakdown.budget breakdown) 8) "Rate may not fit budget"
    ++ push_if (lt (Breakdown.availability breakdown) 5)
         "May not be available or at capacity"
    ++ push_if (lt (Breakdown.domain breakdown) 5) "Different research domain focus" in
  Match.mk (JS.Math_round (totalScore * 10) / 10) breakdown strengths concerns.

(** ** Persistence layer (Sequelize models) *)

Record Database := mkDatabase {
  projects : list Project;
  organizations : list Organization;
  researcher_profiles : list ResearcherProfile;
  users : list User
}.

(** A thrown [new Error(message)]. *)
Inductive JsError := Error (message : string).

Definition Project_findByPk (db : Database) (projectId : Z) : option Project :=
  List.find (λ p, (project_id p =? projectId)%Z) (projects db).

Definition Organization_findByPk (db : Database) (orgId : Z) : option Organization :=
  List.find (λ o, (org_pk o =? orgId)%Z) (organizations db).

(** [Project.findByPk(id, {include: [{model: Organization, as: 'organization'}]})]:
    the row together with the organization its [org_id] refers to. *)
Definition Project_findByPk_include (db : Database) (projectId : Z)
    : option ProjectData :=
  p ← Project_findByPk db projectId;
  Some (mkProjectData p (org_id p ≫= Organization_findByPk db)).

(** [ResearcherProfile.findAll({where: {user_id: {[Op.ne]: null}}})]; the
    primary key is never NULL. *)
Definition ResearcherProfile_findAll (db : Database) : list ResearcherProfile :=
  researcher_profiles db.

Definition ResearcherProfile_findOne (db : Database) (researcherId : Z)
    : option ResearcherProfile :=
  List.find (λ r, (user_id r =? researcherId)%Z) (researcher_profiles db).

(** [User.findAll({where: {id: userIds, account_status: 'active', deleted_at: null}})] *)
Definition User_findAll_active (db : Database) (userIds : list Z) : list User :=
  filter (λ u, id u ∈ userIds ∧ account_status u = "active"%string ∧ deleted_at u = None)
         (users db).

(** [Project.findAll({where: {status: 'open'}})] *)
Definition Project_findAll_open (db : Database) : list Project :=
  filter (λ p, status p = "open"%string) (projects db).

(** [Organization.findAll({where: {id: orgIds}})] *)
Definition Organization_findAll (db : Database) (orgIds : list Z) : list Organization :=
  filter (λ o, org_pk o ∈ orgIds) (organizations db).

(** ** Finders *)

Record Options := mkOptions {
  opt_limit : Z;                       (* limit *)
  opt_offset : Z;                      (* offset *)
  opt_minScore : Q                     (* minScore *)
}.

Record Pagination := mkPagination {
  total : Z;
  limit : Z;
  offset : Z;
  hasMore : bool
}.

(** One element of [matches]; [subject] is the [researcher:] or [project:] key. *)
Record MatchEntry (S : Type) := mkMatchEntry {
  subject : S;
  matchScore : Q;
  scoreBreakdown : Breakdown.t;
  strengths : list string;
  concerns : list string;
  hasApplied : bool;
  isBookmarked : bool
}.
Arguments mkMatchEntry {S} _ _ _ _ _ _ _.
Arguments subject {S} _.
Arguments matchScore {S} _.
Arguments scoreBreakdown {S} _.
Arguments strengths {S} _.
Arguments concerns {S} _.
Arguments hasApplied {S} _.
Arguments isBookmarked {S} _.

Record FinderResult (S : Type) := mkFinderResult {
  matches : list (MatchEntry S);
  pagination : Pagination
}.
Arguments mkFinderResult {S} _ _.
Arguments matches {S} _.
Arguments pagination {S} _.

(** The [researcher:] object of a project-side match. *)
Record ResearcherSummary := mkResearcherSummary {
  rs_user_id : Z;
  rs_name : option string;
  rs_title : option string;
  rs_affiliation : option string;
  rs_institution : option string;
  rs_expertise : list string;
  rs_methods : list string;
  rs_domains : list string;
  rs_tools : list string;
  rs_research_interests : option string;
  rs_compliance_certifications : option string;
  rs_rate_min : option Q;
  rs_rate_max : option Q;
  rs_availability : option string;
  rs_projects_completed : option Z
}.

(** The [project:] object of a researcher-side match. *)
Record ProjectSummary := mkProjectSummary {
  ps_project_id : Z;
  ps_title : option string;
  ps_problem : option string;
  ps_outcomes : option string;
  ps_timeline : option string;
  ps_budget_min : option Q;
  ps_budget_max : option Q;
  ps_methods_required : list string;
  ps_organization : option (Z * option string)
}.

(** [a || b] on raw DECIMAL column values, which Sequelize hands over as
    strings: only NULL is falsy. *)
Definition col_or (a b : option Q) : option Q :=
  match a with
  | Some _ => a
  | None => b
  end.

(** The tail shared by both finders: filter by minimum score, sort, paginate
    (lines 342-358 and 435-451). *)
Definition filterSortPaginate {S} (matches : list (MatchEntry S)) (options : Options)
    : FinderResult S :=
  let limit := opt_limit options in
  let offset := opt_offset options in
  let minScore := opt_minScore options in
  let filteredMatches :=
    JS.sort (λ a b, matchScore b - matchScore a)
            (filter (λ match_, Qle_bool minScore (matchScore match_)) matches) in
  let paginatedMatches := JS.slice filteredMatches offset (offset + limit) in
  mkFinderResult paginatedMatches
    (mkPagination (Z.of_nat (length filteredMatches)) limit offset
                  (offset + limit <? Z.of_nat (length filteredMatches))%Z).

(** [matches] of [findMatchesForProject], before filtering. *)
Definition scoreResearchers (db : Database) (project : Project)
    : list (MatchEntry ResearcherSummary) :=
  let organization :=
    if JS.id_truthy (org_id project)
    then org_id project ≫= Organization_findByPk db
    else None in
  let researchers := ResearcherProfile_findAll db in
  let userIds := filter (λ i, i ≠ 0%Z) (map user_id researchers) in
  let users := User_findAll_active db userIds in
  let userMap : gmap Z User := foldl (λ m user, <[id user := user]> m) ∅ users in
  omap (λ researcher,
          user ← userMap !! user_id researcher;
          let projectData := mkProjectData project organization in
          let scoreData := calculateMatchScore projectData researcher in
          Some (mkMatchEntry
                  (mkResearcherSummary
                     (user_id researcher) (name user) (title researcher)
                     (affiliation researcher) (institution researcher)
                     (parseCommaSeparated (expertise researcher))
                     (parseCommaSeparated (methods researcher))
                     (parseCommaSeparated (domains researcher))
                     (parseCommaSeparated (tools researcher))
                     (research_interests researcher)
                     (compliance_certifications researcher)
                     (col_or (hourly_rate_min researcher) (rate_min researcher))
                     (col_or (hourly_rate_max researcher) (rate_max researcher))
                     (availability researcher) (projects_completed researcher))
                  (Match.totalScore scoreData) (Match.breakdown scoreData)
                  (Match.strengths scoreData) (Match.concerns scoreData)
                  false false))
       researchers.

Definition findMatchesForProject (db : Database) (projectId : Z) (options : Options)
    : JsError + FinderResult ResearcherSummary :=
  match Project_findByPk db projectId with
  | None => inl (Error "Project not found")
  | Some project => inr (filterSortPaginate (scoreResearchers db project) options)
  end.

(** [matches] of [findMatchesForResearcher], before filtering. *)
Definition scoreProjects (db : Database) (researcher : ResearcherProfile)
    : list (MatchEntry ProjectSummary) :=
  let projects := Project_findAll_open db in
  let orgIds := omap org_id projects in
  let organizations := Organization_findAll db (filter (λ i, i ≠ 0%Z) orgIds) in
  let orgMap : gmap Z Organization :=
    foldl (λ m org, <[org_pk org := org]> m) ∅ organizations in
  map (λ project,
         let projectData := mkProjectData project (org_id project ≫= (orgMap !!.)) in
         let scoreData := calculateMatchScore projectData researcher in
         mkMatchEntry
           (mkProjectSummary
              (project_id project) (project_title project) (problem project)
              (outcomes project) (timeline project)
              (budget_min project) (budget_max project)
              (parseCommaSeparated (methods_required project))
              ((λ o, (org_pk o, org_name o)) <$> organization projectData))
           (Match.totalScore scoreData) (Match.breakdown scoreData)
           (Match.strengths scoreData) (Match.concerns scoreData)
           false false)
      projects.

(** [options] of [findMatchesForResearcher]: each key may be left out. *)
Record PartialOptions := mkPartialOptions {
  po_limit : option Z;
  po_offset : option Z;
  po_minScore : option Q
}.

(** The destructuring defaults [{limit = 20, offset = 0, minScore = 50}]. *)
Definition withDefaults (options : PartialOptions) : Options :=
  mkOptions (default 20%Z (po_limit options))
            (default 0%Z (po_offset options))
            (default 50 (po_minScore options)).

Definition findMatchesForResearcher
    (db : Database) (researcherId : Z) (options : PartialOptions)
    : JsError + FinderResult ProjectSummary :=
  match ResearcherProfile_findOne db researcherId with
  | None => inl (Error "Researcher profile not found")
  | Some researcher =>
      inr (filterSortPaginate (scoreProjects db researcher) (withDefaults options))
  end.

(** ** Query validation ([getProjectMatches], [getResearcherMatches]) *)

(** [req.query], each key as [parseInt]/[parseFloat] reads it. *)
Record MatchQuery := mkMatchQuery {
  query_limit : option Z;
  query_offset : option Z;
  query_minScore : option Q
}.

(** [validLimit], [validOffset] and [validMinScore], as handed to the finders. *)
Definition validatedOptions (query : MatchQuery) : Options :=
  let validLimit :=
    Z.min (Z.max (JS.int_or (JS.parseInt (query_limit query)) 20) 1) 100 in
  let validOffset := Z.max (JS.int_or (JS.parseInt (query_offset query)) 0) 0 in
  let validMinScore :=
    JS.Math_max (JS.Math_min (JS.num_or (JS.parseFloat (query_minScore query)) 50) 100) 0 in
  mkOptions validLimit validOffset validMinScore.

(** ** Explain handler ([matchController.explainMatch]) *)

Module Factor.
Record t := mk {
  score : Q;
  max : Q;
  percentage : Q;
  explanation : string
}.
End Factor.

Module Detailed.
Record t := mk {
  expertise : Factor.t;
  methods : Factor.t;
  budget : Factor.t;
  availability : Factor.t;
  experience : Factor.t;
  domain : Factor.t
}.
End Detailed.

Record ExplainBody := mkExplainBody {
  eb_totalScore : Q;                                   (* totalScore *)
  eb_breakdown : Detailed.t;                           (* breakdown *)
  eb_strengths : list string;                          (* strengths *)
  eb_concerns : list string;                           (* concerns *)
  eb_project : Z * option string;                      (* project_id, title *)
  eb_researcher : Z * option string * option string    (* user_id, title, institution *)
}.

(** [res.status(code).json(...)] *)
Inductive ExplainResponse :=
  | Failure (status_code : Z) (error : string)
  | Success (body : ExplainBody).

Record ExplainRequest := mkExplainRequest {
  q_projectId : option Z;              (* req.query.projectId *)
  q_researcherId : option Z;           (* req.query.researcherId *)
  req_user : option User               (* req.user *)
}.

Definition explainMatch (db : Database) (req : ExplainRequest) : ExplainResponse :=
  match q_projectId req, q_researcherId req with
  | Some projectId, Some researcherId =>
      match req_user req with
      | None => Failure 401 "Authentication required"
      | Some _ =>
          match Project_findByPk_include db projectId,
                ResearcherProfile_findOne db researcherId with
          | Some project, Some researcher =>
              let scoreData := calculateMatchScore project researcher in
              let b := Match.breakdown scoreData in
              let detailedBreakdown :=
                Detailed.mk
                  (Factor.mk (Breakdown.expertise b) 30
                     (JS.Math_round (Breakdown.expertise b / 30 * 100))
                     "Expertise overlap based on Jaccard similarity")
                  (Factor.mk (Breakdown.methods b) 25
                     (JS.Math_round (Breakdown.methods b / 25 * 100))
                     "Required methods coverage")
                  (Factor.mk (Breakdown.budget b) 15
                     (JS.Math_round (Breakdown.budget b / 15 * 100))
                     "Budget compatibility based on hourly rate and estimated hours")
                  (Factor.mk (Breakdown.availability b) 10
                     (JS.Math_round (Breakdown.availability b / 10 * 100))
                     "Start date alignment and capacity check")
                  (Factor.mk (Breakdown.experience b) 10
                     (JS.Math_round (Breakdown.experience b / 10 * 100))
                     ("Based on " +:+ show_int (projects_completed researcher)
                      +:+ " completed projects"))
                  (Factor.mk (Breakdown.domain b) 10
                     (JS.Math_round (Breakdown.domain b / 10 * 100))
                     "Research domain alignment with organization focus") in
              Success
                (mkExplainBody (Match.totalScore scoreData) detailedBreakdown
                   (Match.strengths scoreData) (Match.concerns scoreData)
                   (project_id project, project_title project)
                   (user_id researcher, title researcher, institution researcher))
          | _, _ => Failure 404 "Project or researcher not found"
          end
      end
  | _, _ => Failure 400 "Both projectId and researcherId are required"
  end.

(** ** The decimal paths, on doubles

    The total of [calculateMatchScore] and the percentages of [explainMatch]
    are formed above over the decimals; these are the same expressions with
    every operation rounded, to be compared with them. *)

(** [Math.round(Object.values(breakdown).reduce((sum, s) => sum + s, 0) * 10) / 10] *)
Definition totalScore64 (breakdown : Breakdown.t) : Q :=
  let totalScore :=
    foldl (λ sum score, Double.add sum (Double.of_Q score)) 0
          (Breakdown.values breakdown) in
  JS.Math_round (Double.mul totalScore 10) / 10.

(** [Math.round((score / max) * 100)] *)
Definition percentage64 (score max : Q) : Q :=
  JS.Math_round (Double.mul (Double.div (Double.of_Q score) max) 100).

(** ** Specification-side definitions

    Written from the wording of the design document, to be compared with the
    code above. *)

#[global] Instance Qeq_decision : RelDecision Qeq := Qeq_dec.

(** [y] is [x] rounded to one decimal place (halves go up). *)
Definition rounded_to_tenth (x y : Q) : Prop :=
  ∃ k : Z, y == k # 10 ∧ x - (1 # 20) < y ∧ y <= x + (1 # 20).

Definition round_tenth (x : Q) : Q := inject_Z (Qfloor (x * 10 + (1 # 2))) / 10.

(** [y] is a multiple of 0.1 within 0.05 of [x], give or take [slack]: what
    rounding to one decimal place comes to when the number to round is
    formed in double precision, where a product that is exactly halfway
    between two tenths can land on either side. *)
Definition tenth_near (slack x y : Q) : Prop :=
  ∃ k : Z, y == k # 10 ∧ x - (1 # 20) - slack <= y ∧ y <= x + (1 # 20) + slack.

(** More than the rounding errors of one scorer add up to. *)
Definition double_slack : Q := Eval vm_compute in 1 # 10 ^ 12.

(** A number that is a double. *)
Definition is_double (x : Q) : Prop := Double.of_Q x == x.

(** The members of a collection, as a finite set. *)
Definition members (c : StrColl) : gset string := list_to_set (Array_from c).

(** [|A ∩ B| / |A ∪ B|], and 0 when either set is empty. *)
Definition jaccardSimilarity_spec (A B : gset string) : Q :=
  if decide (A = ∅ ∨ B = ∅) then 0
  else inject_Z (Z.of_nat (size (A ∩ B))) / inject_Z (Z.of_nat (size (A ∪ B))).


(** A bound that the code treats as missing: absent, or zero. *)
Definition missing_or_zero (x : option Q) : Prop :=
  match x with
  | Some q => q == 0
  | None => True
  end.

#[global] Instance missing_or_zero_dec x : Decision (missing_or_zero x).
Proof.
  destruct x as [q|]; simpl; [|left; exact I].
  destruct (Qeq_dec q 0); [left|right]; assumption.
Defined.

(** Methods rule, the parsed lists being sets: full marks without
    requirements, nothing without researcher methods, else the share of the
    required methods that the researcher has, times 25, rounded to one
    decimal place. *)
Definition methodsScore_spec (requiredMethods researcherMethods : option string) : Q :=
  let required : gset string := list_to_set (parseCommaSeparated requiredMethods) in
  let available : gset string := list_to_set (parseCommaSeparated researcherMethods) in
  if decide (required = ∅) then 25
  else if decide (available = ∅) then 0
  else
    round_tenth
      (inject_Z (Z.of_nat (size (required ∩ available)))
       / inject_Z (Z.of_nat (size required)) * 25).

(** Budget rule for a resolved hourly-rate range [rateLo, rateHi]; [hours]
    is the number of hours the rates are multiplied by. *)
Definition budgetScore_rule (project : Project) (hours : Z) (rateLo rateHi : Q) : Q :=
  if decide (missing_or_zero (budget_min project) ∨ rateLo == 0) then 0
  else
    round_tenth
      (checkRangeOverlap
         (mkRange (budget_min project)
                  (match budget_max project with
                   | Some m => Some m
                   | None => budget_min project
                   end))
         (mkRange (Some (rateLo * inject_Z hours)) (Some (rateHi * inject_Z hours)))
       * 15).

(** [estimated_hours], 100 when absent. *)
Definition hours_spec (project : Project) : Z := default 100%Z (estimated_hours project).

(** [estimated_hours], 100 when absent or zero. *)
Definition hours_or_100 (project : Project) : Z :=
  match estimated_hours project with
  | Some h => if decide (h = 0%Z) then 100%Z else h
  | None => 100%Z
  end.

(** A match list ordered by descending score. *)
Definition sorted_desc {S} (l : list (MatchEntry S)) : Prop :=
  StronglySorted (λ a b, matchScore b <= matchScore a) l.

(** [l'] keeps the entries of every score class in the order they have in [l]. *)
Definition stable_wrt {S} (l l' : list (MatchEntry S)) : Prop :=
  ∀ s : Q, filter (λ m, matchScore m == s) l' = filter (λ m, matchScore m == s) l.

#[global] Instance Qle_decision : RelDecision Qle.
Proof.
  intros x y. destruct (Qlt_le_dec y x) as [H | H].
  - right. apply Qlt_not_le, H.
  - left. exact H.
Defined.

(** What a finder owes for a pool of scored candidates: the candidates below
    [minScore] are dropped; [ranked] holds the rest in descending order of
    score, ties in fetch order; the page is the window [offset, offset+limit)
    of [ranked]; [total] counts the kept candidates and [hasMore] tells
    whether the window ends before them. *)
Definition ranked_page {S} (candidates : list (MatchEntry S)) (options : Options)
    (outcome : JsError + FinderResult S) : Prop :=
  let kept := filter (λ m, opt_minScore options <= matchScore m) candidates in
  ∃ (result : FinderResult S) (ranked : list (MatchEntry S)),
    outcome = inr result
    ∧ ranked ≡ₚ kept
    ∧ sorted_desc ranked
    ∧ stable_wrt kept ranked
    ∧ matches result
      = take (Z.to_nat (opt_limit options)) (drop (Z.to_nat (opt_offset options)) ranked)
    ∧ total (pagination result) = Z.of_nat (length kept)
    ∧ limit (pagination result) = opt_limit options
    ∧ offset (pagination result) = opt_offset options
    ∧ (hasMore (pagination result) = true
       ↔ (opt_offset options + opt_limit options < Z.of_nat (length kept))%Z)
    ∧ (Forall (λ m, matchScore m < opt_minScore options) candidates →
       matches result = [] ∧ total (pagination result) = 0%Z).

(** A factor of the explain response reports [score] out of [max], with
    the percentage [round(score / max * 100)]. *)
Definition factor_reports (max score : Q) (f : Factor.t) : Prop :=
  Factor.score f = score ∧ Factor.max f = max
  ∧ ∃ k : Z, Factor.percentage f = inject_Z k
             ∧ score / max * 100 - (1 # 2) < inject_Z k
             ∧ inject_Z k <= score / max * 100 + (1 # 2).

(** The error raised for a missing project or researcher profile. *)
Definition NotFoundError (e : JsError) : Prop :=
  e = Error "Project not found" ∨ e = Error "Researcher profile not found".

(** A finder call that failed with it, returning no match list at all. *)
Definition fails_not_found {S} (outcome : JsError + FinderResult S) : Prop :=
  (∃ e, outcome = inl e ∧ NotFoundError e) ∧ ∀ result, outcome ≠ inr result.


(** A sub-score: a multiple of 0.1 between 0 and its maximum. *)
Definition sub_score (max : Z) (x : Q) : Prop :=
  (∃ k : Z, x == k # 10) ∧ 0 <= x <= inject_Z max.


(** ** Fixtures *)

Definition project_fixture (bmin bmax : option Q) (hours : option Z) : Project :=
  mkProject 1 (Some "Community survey"%string) (Some "survey design, statistics"%string)
            None None (Some "survey,interview"%string) bmin bmax hours None
            (Some 1%Z) "open".

Definition researcher_fixture (rmin rmax hmin hmax : option Q) : ResearcherProfile :=
  mkResearcherProfile 7 None None None (Some "health"%string) (Some "survey"%string)
                      None (Some "statistics"%string) None None (Some 7%Z)
                      rmin rmax hmin hmax None (Some 0%Z) (Some 3%Z) None.


(** A small marketplace: one organization, two projects (one open, one
    closed), three researcher profiles of which one belongs to a suspended
    account. *)
Definition db_fixture : Database :=
  mkDatabase
    [ project_fixture (Some 5000) (Some 10000) (Some 100%Z);
      mkProject 2 (Some "Archive study"%string) (Some "history"%string) None None
                None (Some 2000) None None None None "closed" ]
    [ mkOrganization 1 (Some "Health Trust"%string) (Some "health, education"%string) ]
    [ researcher_fixture (Some 50) (Some 100) None None;
      mkResearcherProfile 8 None None None (Some "education"%string)
                          (Some "survey, interview"%string) None
                          (Some "survey design, statistics"%string) None None
                          (Some 12%Z) None None (Some 60) (Some 90) None
                          (Some 1%Z) (Some 3%Z) None;
      mkResearcherProfile 9 None None None None None None None None None
                          (Some 0%Z) None None None None None
                          (Some 0%Z) (Some 3%Z) None ]
    [ mkUser 7 (Some "Ada"%string) None "active" None;
      mkUser 8 (Some "Grace"%string) None "active" None;
      mkUser 9 (Some "Alan"%string) None "suspended" None ].


(** [n] distinct method names, comma-separated: [m0,m1,...]. *)
Definition numbered_methods (n : nat) : string :=
  String.concat "," (map (λ i : nat, "m" +:+ pretty i) (seq 0 n)).

(** A researcher who registered with rates 75-125 and later set the hourly
    rates 80-130, and a project this researcher could take. *)
Definition db_two_rates : Database :=
  mkDatabase
    [ project_fixture (Some 8000) (Some 13000) (Some 100%Z) ]
    []
    [ researcher_fixture (Some 75) (Some 125) (Some 80) (Some 130) ]
    [ mkUser 7 (Some "Ada"%string) None "active" None ].


(** ** Match handlers ([getProjectMatches], [getResearcherMatches]) *)

(** [req.user], as the authentication middleware leaves it. *)
Record ReqUser := mkReqUser {
  ru_id : option Z;                    (* id *)
  first_name : option string;
  last_name : option string
}.

Record MatchesRequest := mkMatchesRequest {
  param_projectId : Z;                 (* req.params.projectId *)
  mr_query : MatchQuery;               (* req.query *)
  mr_user : option ReqUser             (* req.user *)
}.

(** [res.status(code).json(...)]: an error body, or the 200 body with its
    [project:] or [researcher:] key as [info]. *)
Inductive MatchesResponse (S Info : Type) :=
  | MatchesFailure (status_code : Z) (error : string) (message : option string)
  | MatchesSuccess (matches : list (MatchEntry S)) (pagination : Pagination)
                   (info : Info).
Arguments MatchesFailure {S Info} _ _ _.
Arguments MatchesSuccess {S Info} _ _ _.

(** Template-literal rendering of a possibly missing string property. *)
Definition show_str (v : option string) : string := default "undefined"%string v.

Definition getProjectMatches (db : Database) (req : MatchesRequest)
    : MatchesResponse ResearcherSummary (Z * option string * string) :=
  let projectId := param_projectId req in
  let options := validatedOptions (mr_query req) in
  match Project_findByPk_include db projectId with
  | None => MatchesFailure 404 "Project not found" None
  | Some project =>
      match mr_user req with
      | None => MatchesFailure 401 "Authentication required" None
      | Some _ =>
          match findMatchesForProject db projectId options with
          | inl (Error message) =>
              MatchesFailure 500 "Failed to calculate matches" (Some message)
          | inr result =>
              MatchesSuccess (matches result) (pagination result)
                             (project_id project, project_title project, status project)
          end
      end
  end.

Definition getResearcherMatches (db : Database) (req : MatchesRequest)
    : MatchesResponse ProjectSummary (Z * string) :=
  let options := validatedOptions (mr_query req) in
  match mr_user req ≫= ru_id with
  | None => MatchesFailure 401 "Authentication required" None
  | Some user_id_ =>
      if (user_id_ =? 0)%Z then MatchesFailure 401 "Authentication required" None
      else
        match findMatchesForResearcher db user_id_
                (mkPartialOptions (Some (opt_limit options)) (Some (opt_offset options))
                                  (Some (opt_minScore options))) with
        | inl (Error message) =>
            MatchesFailure 500 "Failed to calculate matches" (Some message)
        | inr result =>
            MatchesSuccess (matches result) (pagination result)
              (user_id_,
               show_str (mr_user req ≫= first_name) +:+ " "
               +:+ show_str (mr_user req ≫= last_name))
        end
  end.

(** ** Researcher profile model ([ResearcherProfile.hasCapacity]) *)

(** [this.current_projects_count < this.max_concurrent_projects]; in a
    comparison [null] counts as 0. *)
Definition hasCapacity (this : ResearcherProfile) : bool :=
  (default 0 (current_projects_count this) <? default 0 (max_concurrent_projects this))%Z.

(** ** Vocabulary for the statements below *)

(** The characters of a string. *)
Definition chars (s : string) : list ascii := list_ascii_of_string s.

(** Dropping the leading whitespace of a character list. *)
Fixpoint drop_spaces (l : list ascii) : list ascii :=
  match l with
  | [] => []
  | c :: l' => if Ascii.is_space c then drop_spaces l' else l
  end.

(** A tag as the engine compares it: not empty, free of commas, without
    whitespace at either end, without upper-case ASCII letters. *)
Definition normalized_tag (item : string) : Prop :=
  item ≠ ""%string
  ∧ ¬ In ","%char (chars item)
  ∧ (∀ c, head (chars item) = Some c → Ascii.is_space c = false)
  ∧ (∀ c, last (chars item) = Some c → Ascii.is_space c = false)
  ∧ Forall (λ c, JS.lower_char c = c) (chars item).

(** A researcher the project-side finder may return: the profile's user is an
    active account that was not deleted. *)
Definition has_active_account (db : Database) (researcher : ResearcherProfile) : Prop :=
  user_id researcher ≠ 0%Z
  ∧ Exists (λ u, id u = user_id researcher ∧ account_status u = "active"%string
                 ∧ deleted_at u = None) (users db).

(** The organization the project-side finder attaches to a project. *)
Definition organization_of (db : Database) (project : Project) : option Organization :=
  if JS.id_truthy (org_id project)
  then org_id project ≫= Organization_findByPk db
  else None.


#[global] Instance has_active_account_dec db researcher :
  Decision (has_active_account db researcher).
Proof. unfold has_active_account. apply _. Defined.

(** The score of a project and researcher pair, as both finders compute it. *)
Definition pairScore (db : Database) (project : Project) (researcher : ResearcherProfile)
    : Match.t :=
  calculateMatchScore (mkProjectData project (organization_of db project)) researcher.


(** * Properties *)

(** ** Double precision *)

Section DoubleFacts.

Lemma pow2_pos e : 0 < Double.pow2 e.
Proof. apply Qpower_0_lt. reflexivity. Qed.

Lemma pow2_plus a b : Double.pow2 (a + b) == Double.pow2 a * Double.pow2 b.
Proof. apply Qpower_plus. discriminate. Qed.

Lemma pow2_lt a b : (a < b)%Z → Double.pow2 a < Double.pow2 b.
Proof. intros H. apply Qpower_lt_compat_l; [exact H | reflexivity]. Qed.

Lemma pow2_le a b : (a <= b)%Z → Double.pow2 a <= Double.pow2 b.
Proof. intros H. apply Qpower_le_compat_l; [exact H | discriminate]. Qed.

Lemma pow2_Z n : (0 <= n)%Z → inject_Z (2 ^ n) == Double.pow2 n.
Proof. intros H. apply (Zpower_Qpower 2 n H). Qed.

Lemma pow2_succ e : Double.pow2 (e + 1) == 2 * Double.pow2 e.
Proof. rewrite pow2_plus. change (Double.pow2 1) with 2. ring. Qed.

(** [Double.exponent] finds the binade. *)
Lemma exponent_spec x :
  0 < x →
  Double.pow2 (Double.exponent x) <= x ∧ x < Double.pow2 (Double.exponent x + 1).
Proof.
  intros Hx. unfold Double.exponent.
  set (n := Qnum x). set (d := Zpos (Qden x)).
  set (a := Z.log2 n). set (b := Z.log2 d).
  assert (Hn : (0 < n)%Z).
  { unfold Qlt in Hx. simpl in Hx. subst n. lia. }
  assert (Hd : (0 < d)%Z) by (subst d; lia).
  destruct (Z.log2_spec n Hn) as [Hn1 Hn2].
  destruct (Z.log2_spec d Hd) as [Hd1 Hd2].
  fold a in Hn1, Hn2. fold b in Hd1, Hd2.
  assert (Ha : (0 <= a)%Z) by apply Z.log2_nonneg.
  assert (Hb : (0 <= b)%Z) by apply Z.log2_nonneg.
  assert (HN1 : Double.pow2 a <= inject_Z n).
  { rewrite <- pow2_Z by exact Ha. rewrite <- Zle_Qle. exact Hn1. }
  assert (HN2 : inject_Z n < Double.pow2 (a + 1)).
  { rewrite <- pow2_Z by lia. rewrite <- Zlt_Qlt.
    replace (a + 1)%Z with (Z.succ a) by lia. exact Hn2. }
  assert (HD1 : Double.pow2 b <= inject_Z d).
  { rewrite <- pow2_Z by exact Hb. rewrite <- Zle_Qle. exact Hd1. }
  assert (HD2 : inject_Z d < Double.pow2 (b + 1)).
  { rewrite <- pow2_Z by lia. rewrite <- Zlt_Qlt.
    replace (b + 1)%Z with (Z.succ b) by lia. exact Hd2. }
  assert (HD : 0 < inject_Z d).
  { change 0 with (inject_Z 0). rewrite <- Zlt_Qlt. exact Hd. }
  assert (Hxd : inject_Z n == x * inject_Z d).
  { unfold Qeq, Qmult, inject_Z. simpl. subst n d. lia. }
  assert (Hup : x < Double.pow2 (a - b + 1)).
  { pose proof (pow2_plus (a - b + 1) b) as E.
    replace (a - b + 1 + b)%Z with (a + 1)%Z in E by lia.
    pose proof (pow2_pos (a - b + 1)). pose proof (pow2_pos b).
    apply Qnot_le_lt. intros C. nra. }
  assert (Hlo : Double.pow2 (a - b - 1) < x).
  { pose proof (pow2_plus (a - b - 1) (b + 1)) as E.
    replace (a - b - 1 + (b + 1))%Z with a in E by lia.
    pose proof (pow2_pos (a - b - 1)). pose proof (pow2_pos (b + 1)).
    apply Qnot_le_lt. intros C. nra. }
  destruct (Qle_bool (Double.pow2 (a - b)) x) eqn:E.
  - apply Qle_bool_iff in E. split; [exact E | exact Hup].
  - assert (x < Double.pow2 (a - b)).
    { apply Qnot_le_lt. intros C. apply Qle_bool_iff in C. congruence. }
    replace (a - b - 1 + 1)%Z with (a - b)%Z by lia.
    split; [apply Qlt_le_weak; exact Hlo | assumption].
Qed.

Lemma exponent_unique x e :
  Double.pow2 e <= x → x < Double.pow2 (e + 1) → Double.exponent x = e.
Proof.
  intros H1 H2.
  assert (Hx : 0 < x) by (pose proof (pow2_pos e); lra).
  destruct (exponent_spec x Hx) as [H3 H4].
  destruct (Z.lt_trichotomy (Double.exponent x) e) as [C | [C | C]]; [| exact C |].
  - pose proof (pow2_le (Double.exponent x + 1) e ltac:(lia)). lra.
  - pose proof (pow2_le (e + 1) (Double.exponent x) ltac:(lia)). lra.
Qed.

Lemma exponent_comp x y : 0 < x → x == y → Double.exponent x = Double.exponent y.
Proof.
  intros Hx E. destruct (exponent_spec x Hx) as [H1 H2].
  symmetry. apply exponent_unique; rewrite <- E; assumption.
Qed.

Lemma exponent_mono x y : 0 < x → x <= y → (Double.exponent x <= Double.exponent y)%Z.
Proof.
  intros Hx Hxy.
  destruct (exponent_spec x Hx) as [H1 H2].
  destruct (exponent_spec y ltac:(lra)) as [H3 H4].
  destruct (Z.le_gt_cases (Double.exponent x) (Double.exponent y)) as [C | C]; [exact C |].
  pose proof (pow2_le (Double.exponent y + 1) (Double.exponent x) ltac:(lia)). lra.
Qed.

(** Rounding to an integer: within a half, exact on integers, monotone. *)
Lemma nearest_even_bounds x :
  inject_Z (Double.nearest_even x) - (1 # 2) <= x ∧ x <= inject_Z (Double.nearest_even x) + (1 # 2).
Proof.
  unfold Double.nearest_even.
  pose proof (Qfloor_le x) as H1. pose proof (Qlt_floor x) as H2.
  rewrite inject_Z_plus in H2. change (inject_Z 1) with 1 in H2.
  destruct (Qcompare_spec (x - inject_Z (Qfloor x)) (1 # 2)) as [E | E | E].
  - destruct (Z.even (Qfloor x)).
    + split; lra.
    + rewrite inject_Z_plus. change (inject_Z 1) with 1. split; lra.
  - split; lra.
  - rewrite inject_Z_plus. change (inject_Z 1) with 1. split; lra.
Qed.

Lemma nearest_even_Z z : Double.nearest_even (inject_Z z) = z.
Proof.
  unfold Double.nearest_even. rewrite Qfloor_Z.
  destruct (Qcompare_spec (inject_Z z - inject_Z z) (1 # 2)) as [E | E | E].
  - lra.
  - reflexivity.
  - lra.
Qed.

Lemma nearest_even_comp x y : x == y → Double.nearest_even x = Double.nearest_even y.
Proof.
  intros E. unfold Double.nearest_even.
  rewrite (Qfloor_comp _ _ E).
  assert (E' : x - inject_Z (Qfloor y) == y - inject_Z (Qfloor y)) by (rewrite E; reflexivity).
  rewrite (Qcompare_comp _ _ E' _ _ (Qeq_refl _)). reflexivity.
Qed.

Lemma nearest_even_mono x y : x <= y → (Double.nearest_even x <= Double.nearest_even y)%Z.
Proof.
  intros Hxy. pose proof (Qfloor_resp_le _ _ Hxy) as Hf.
  pose proof (Qfloor_le x) as Hx1. pose proof (Qlt_floor x) as Hx2.
  pose proof (Qfloor_le y) as Hy1. pose proof (Qlt_floor y) as Hy2.
  rewrite inject_Z_plus in Hx2, Hy2. change (inject_Z 1) with 1 in Hx2, Hy2.
  destruct (Z.eq_dec (Qfloor x) (Qfloor y)) as [E | NE].
  - unfold Double.nearest_even. rewrite E in *.
    destruct (Qcompare_spec (x - inject_Z (Qfloor y)) (1 # 2)) as [Ex | Ex | Ex];
      destruct (Qcompare_spec (y - inject_Z (Qfloor y)) (1 # 2)) as [Ey | Ey | Ey];
      try lra; try lia; destruct (Z.even (Qfloor y)); lia.
  - assert (Hlt : (Qfloor x + 1 <= Qfloor y)%Z) by lia.
    assert (Hnx : (Double.nearest_even x <= Qfloor x + 1)%Z).
    { unfold Double.nearest_even. destruct (Qcompare _ _); [destruct (Z.even _) | |]; lia. }
    assert (Hny : (Qfloor y <= Double.nearest_even y)%Z).
    { unfold Double.nearest_even. destruct (Qcompare _ _); [destruct (Z.even _) | |]; lia. }
    lia.
Qed.

(** The significand of a positive number lies between 2^52 and 2^53. *)
Lemma significand_range x :
  0 < x →
  Double.pow2 52 <= x / Double.pow2 (Double.exponent x - 52)
  ∧ x / Double.pow2 (Double.exponent x - 52) < Double.pow2 53.
Proof.
  intros Hx. destruct (exponent_spec x Hx) as [H1 H2].
  pose proof (pow2_pos (Double.exponent x - 52)) as Hp.
  pose proof (pow2_plus 52 (Double.exponent x - 52)) as E1.
  replace (52 + (Double.exponent x - 52))%Z with (Double.exponent x) in E1 by lia.
  pose proof (pow2_plus 53 (Double.exponent x - 52)) as E2.
  replace (53 + (Double.exponent x - 52))%Z with (Double.exponent x + 1)%Z in E2 by lia.
  split.
  - apply Qle_shift_div_l; [exact Hp | lra].
  - apply Qlt_shift_div_r; [exact Hp | lra].
Qed.

Lemma significand_bounds x :
  0 < x →
  (2 ^ 52 <= Double.nearest_even (x / Double.pow2 (Double.exponent x - 52)) <= 2 ^ 53)%Z.
Proof.
  intros Hx. destruct (significand_range x Hx) as [H1 H2].
  pose proof (pow2_Z 52 ltac:(lia)) as P52. pose proof (pow2_Z 53 ltac:(lia)) as P53.
  rewrite <- P52 in H1. rewrite <- P53 in H2.
  pose proof (nearest_even_mono _ _ H1) as M1.
  pose proof (nearest_even_mono _ _ (Qlt_le_weak _ _ H2)) as M2.
  rewrite nearest_even_Z in M1, M2. split; assumption.
Qed.

Lemma of_pos_bounds x :
  0 < x →
  Double.pow2 (Double.exponent x) <= Double.of_pos x
  ∧ Double.of_pos x <= Double.pow2 (Double.exponent x + 1).
Proof.
  intros Hx. destruct (significand_bounds x Hx) as [H1 H2].
  unfold Double.of_pos. cbv zeta.
  set (m := Double.nearest_even _) in *.
  pose proof (pow2_pos (Double.exponent x - 52)) as Hp.
  pose proof (pow2_plus 52 (Double.exponent x - 52)) as E1.
  replace (52 + (Double.exponent x - 52))%Z with (Double.exponent x) in E1 by lia.
  pose proof (pow2_plus 53 (Double.exponent x - 52)) as E2.
  replace (53 + (Double.exponent x - 52))%Z with (Double.exponent x + 1)%Z in E2 by lia.
  rewrite Zle_Qle in H1, H2.
  pose proof (pow2_Z 52 ltac:(lia)) as P52. pose proof (pow2_Z 53 ltac:(lia)) as P53.
  split; nra.
Qed.

Lemma of_pos_pos x : 0 < x → 0 < Double.of_pos x.
Proof.
  intros Hx. destruct (of_pos_bounds x Hx) as [H _].
  pose proof (pow2_pos (Double.exponent x)). lra.
Qed.

Lemma of_pos_comp x y : 0 < x → x == y → Double.of_pos x == Double.of_pos y.
Proof.
  intros Hx E. unfold Double.of_pos. cbv zeta.
  rewrite <- (exponent_comp x y Hx E).
  rewrite (nearest_even_comp (x / Double.pow2 (Double.exponent x - 52))
                             (y / Double.pow2 (Double.exponent x - 52)));
    [reflexivity | apply Qdiv_comp; [exact E | reflexivity]].
Qed.

Lemma of_pos_mono x y : 0 < x → x <= y → Double.of_pos x <= Double.of_pos y.
Proof.
  intros Hx Hxy. assert (Hy : 0 < y) by lra.
  pose proof (exponent_mono x y Hx Hxy) as He.
  destruct (Z.eq_dec (Double.exponent x) (Double.exponent y)) as [E | NE].
  - unfold Double.of_pos. cbv zeta. rewrite E.
    pose proof (pow2_pos (Double.exponent y - 52)) as Hp.
    assert (Hs : x / Double.pow2 (Double.exponent y - 52)
                 <= y / Double.pow2 (Double.exponent y - 52)).
    { apply Qle_shift_div_l; [exact Hp |].
      field_simplify (x / Double.pow2 (Double.exponent y - 52)
                      * Double.pow2 (Double.exponent y - 52)); [lra | lra]. }
    apply nearest_even_mono in Hs. rewrite Zle_Qle in Hs. nra.
  - destruct (of_pos_bounds x Hx) as [_ H1].
    destruct (of_pos_bounds y Hy) as [H2 _].
    pose proof (pow2_le (Double.exponent x + 1) (Double.exponent y) ltac:(lia)). lra.
Qed.

(** A significand times a power of two is a double. *)
Lemma of_pos_representable m e :
  (2 ^ 52 <= m <= 2 ^ 53)%Z →
  Double.of_pos (inject_Z m * Double.pow2 e) == inject_Z m * Double.pow2 e.
Proof.
  intros [H1 H2].
  pose proof (pow2_pos e) as Hp.
  pose proof (pow2_plus 52 e) as E1. pose proof (pow2_plus 53 e) as E2.
  assert (Hm1 : Double.pow2 52 <= inject_Z m)
    by (rewrite <- pow2_Z by lia; rewrite <- Zle_Qle; exact H1).
  destruct (Z.eq_dec m (2 ^ 53)%Z) as [E | NE].
  - assert (Ev : inject_Z m * Double.pow2 e == Double.pow2 (53 + e)).
    { rewrite E2, E. rewrite pow2_Z by lia. reflexivity. }
    assert (Hv : 0 < inject_Z m * Double.pow2 e).
    { rewrite Ev. apply pow2_pos. }
    rewrite (of_pos_comp _ _ Hv Ev). rewrite Ev.
    assert (Ex : Double.exponent (Double.pow2 (53 + e)) = (53 + e)%Z).
    { apply exponent_unique; [lra | apply pow2_lt; lia]. }
    unfold Double.of_pos. cbv zeta. rewrite Ex.
    replace (53 + e - 52)%Z with (1 + e)%Z by lia.
    pose proof (pow2_plus 1 e) as E3. change (Double.pow2 1) with 2 in E3.
    rewrite (nearest_even_comp _ (inject_Z (2 ^ 52))).
    + rewrite nearest_even_Z. rewrite E2, E3.
      change (Double.pow2 53) with (inject_Z (2 ^ 53)).
      change (inject_Z (2 ^ 53)) with (2 * inject_Z (2 ^ 52)). ring.
    + rewrite E2, E3. change (Double.pow2 53) with (2 * inject_Z (2 ^ 52)).
      field. lra.
  - assert (Hm2 : inject_Z m < Double.pow2 53).
    { rewrite <- pow2_Z by lia. rewrite <- Zlt_Qlt. lia. }
    assert (Ex : Double.exponent (inject_Z m * Double.pow2 e) = (52 + e)%Z).
    { apply exponent_unique.
      - rewrite E1. nra.
      - replace (52 + e + 1)%Z with (53 + e)%Z by lia. rewrite E2. nra. }
    unfold Double.of_pos. cbv zeta. rewrite Ex.
    replace (52 + e - 52)%Z with e by lia.
    rewrite (nearest_even_comp _ (inject_Z m)).
    + rewrite nearest_even_Z. reflexivity.
    + field. lra.
Qed.

Lemma of_pos_idem x : 0 < x → Double.of_pos (Double.of_pos x) == Double.of_pos x.
Proof.
  intros Hx. unfold Double.of_pos at 2 3. cbv zeta.
  apply of_pos_representable. apply significand_bounds. exact Hx.
Qed.

(** One rounding moves a number by at most the unit roundoff, relatively. *)
Lemma of_pos_error x :
  0 < x →
  x * (1 - Double.unit_roundoff) <= Double.of_pos x
  ∧ Double.of_pos x <= x * (1 + Double.unit_roundoff).
Proof.
  intros Hx. destruct (exponent_spec x Hx) as [H1 _].
  pose proof (pow2_pos (Double.exponent x - 52)) as Hp.
  pose proof (pow2_plus 52 (Double.exponent x - 52)) as E1.
  replace (52 + (Double.exponent x - 52))%Z with (Double.exponent x) in E1 by lia.
  unfold Double.of_pos. cbv zeta.
  destruct (nearest_even_bounds (x / Double.pow2 (Double.exponent x - 52))) as [B1 B2].
  set (m := inject_Z (Double.nearest_even _)) in *.
  set (p := Double.pow2 (Double.exponent x - 52)) in *.
  assert (Es : x / p * p == x) by (field; lra).
  change (Double.pow2 52) with (inject_Z (2 ^ 52)) in E1.
  assert (Eu : Double.unit_roundoff * inject_Z (2 ^ 52) == 1 # 2) by reflexivity.
  set (u := Double.unit_roundoff) in *. set (c := inject_Z (2 ^ 52)) in *.
  assert (Hc : 0 < c) by reflexivity.
  assert (Hu : 0 < u) by reflexivity.
  (* p * c <= x, hence p / 2 = u * c * p <= u * x *)
  assert (Hhalf : (1 # 2) * p <= u * x) by nra.
  assert (A1 : (m - (1 # 2)) * p <= x) by nra.
  assert (A2 : x <= (m + (1 # 2)) * p) by nra.
  split; nra.
Qed.

Global Instance of_Q_comp : Proper (Qeq ==> Qeq) Double.of_Q.
Proof.
  intros x y E. unfold Double.of_Q.
  rewrite <- (Qcompare_comp _ _ E _ _ (Qeq_refl 0)).
  destruct (Qcompare_spec x 0) as [C | C | C].
  - reflexivity.
  - assert (E' : - x == - y) by (rewrite E; reflexivity).
    rewrite (of_pos_comp (- x) (- y)); [reflexivity | lra | exact E'].
  - apply of_pos_comp; assumption.
Qed.

Lemma of_Q_0 : Double.of_Q 0 == 0.
Proof. reflexivity. Qed.

Lemma of_Q_pos x : 0 < x → Double.of_Q x = Double.of_pos x.
Proof.
  intros Hx. unfold Double.of_Q.
  destruct (Qcompare_spec x 0) as [C | C | C]; [lra | lra | reflexivity].
Qed.

Lemma of_Q_neg x : x < 0 → Double.of_Q x = - Double.of_pos (- x).
Proof.
  intros Hx. unfold Double.of_Q.
  destruct (Qcompare_spec x 0) as [C | C | C]; [lra | reflexivity | lra].
Qed.

Lemma of_Q_opp x : Double.of_Q (- x) == - Double.of_Q x.
Proof.
  destruct (Qcompare_spec x 0) as [C | C | C].
  - rewrite C. reflexivity.
  - rewrite (of_Q_neg x C), (of_Q_pos (- x)) by lra. ring.
  - rewrite (of_Q_pos x C), (of_Q_neg (- x)) by lra.
    rewrite (of_pos_comp (- - x) x); [reflexivity | lra | ring].
Qed.

Lemma of_Q_sign x :
  (0 < x → 0 < Double.of_Q x) ∧ (x < 0 → Double.of_Q x < 0)
  ∧ (x == 0 → Double.of_Q x == 0).
Proof.
  split; [| split]; intros H.
  - rewrite of_Q_pos by exact H. apply of_pos_pos. exact H.
  - rewrite of_Q_neg by exact H. pose proof (of_pos_pos (- x) ltac:(lra)). lra.
  - rewrite H. reflexivity.
Qed.

Lemma of_Q_zero_iff x : Double.of_Q x == 0 ↔ x == 0.
Proof.
  destruct (of_Q_sign x) as (H1 & H2 & H3). split; [| exact H3].
  intros E. destruct (Qcompare_spec x 0) as [C | C | C]; [exact C | |].
  - specialize (H2 C). lra.
  - specialize (H1 C). lra.
Qed.

Lemma of_Q_nonneg x : 0 <= x → 0 <= Double.of_Q x.
Proof.
  intros H. destruct (of_Q_sign x) as (H1 & _ & H3).
  destruct (Qcompare_spec x 0) as [C | C | C]; [rewrite (H3 C); lra | lra |].
  specialize (H1 C). lra.
Qed.

(** Rounding to a double is monotone, leaves doubles alone and keeps the
    sign. *)
Lemma of_Q_mono x y : x <= y → Double.of_Q x <= Double.of_Q y.
Proof.
  intros Hxy.
  destruct (of_Q_sign x) as (X1 & X2 & X3). destruct (of_Q_sign y) as (Y1 & Y2 & Y3).
  destruct (Qcompare_spec x 0) as [Cx | Cx | Cx];
    destruct (Qcompare_spec y 0) as [Cy | Cy | Cy]; try lra.
  - rewrite (of_Q_neg x Cx), (of_Q_neg y Cy).
    pose proof (of_pos_mono (- y) (- x) ltac:(lra) ltac:(lra)). lra.
  - rewrite (of_Q_pos x Cx), (of_Q_pos y Cy). apply of_pos_mono; assumption.
Qed.

Lemma of_Q_idem x : Double.of_Q (Double.of_Q x) == Double.of_Q x.
Proof.
  destruct (Qcompare_spec x 0) as [C | C | C].
  - rewrite C. reflexivity.
  - rewrite (of_Q_neg x C). rewrite of_Q_opp.
    rewrite (of_Q_pos (Double.of_pos (- x))) by (apply of_pos_pos; lra).
    rewrite of_pos_idem by lra. reflexivity.
  - rewrite (of_Q_pos x C).
    rewrite (of_Q_pos (Double.of_pos x)) by (apply of_pos_pos; exact C).
    apply of_pos_idem. exact C.
Qed.

Lemma of_Q_error x :
  0 <= x →
  x * (1 - Double.unit_roundoff) <= Double.of_Q x
  ∧ Double.of_Q x <= x * (1 + Double.unit_roundoff).
Proof.
  intros H. destruct (Qcompare_spec x 0) as [C | C | C]; [| lra |].
  - rewrite C. split; discriminate.
  - rewrite (of_Q_pos x C). apply of_pos_error. exact C.
Qed.

End DoubleFacts.

(** ** Rounding *)

Section Rounding.

Lemma Math_round_le (x : Q) : JS.Math_round x <= x + (1 # 2).
Proof. unfold JS.Math_round, JS.Math_round_int. apply Qfloor_le. Qed.

Lemma Math_round_gt (x : Q) : x - (1 # 2) < JS.Math_round x.
Proof.
  unfold JS.Math_round, JS.Math_round_int.
  pose proof (Qlt_floor (x + (1 # 2))) as H.
  rewrite inject_Z_plus in H. change (inject_Z 1) with 1 in H. lra.
Qed.

Lemma Math_round_int_mono (x y : Q) :
  x <= y → (JS.Math_round_int x <= JS.Math_round_int y)%Z.
Proof. intros H. apply Qfloor_resp_le. lra. Qed.

Lemma Math_round_int_Z (z : Z) : JS.Math_round_int (inject_Z z) = z.
Proof.
  unfold JS.Math_round_int.
  assert (Hlo : (z <= Qfloor (inject_Z z + (1 # 2)))%Z).
  { rewrite <- (Qfloor_Z z) at 1. apply Qfloor_resp_le. lra. }
  assert (Hhi : (Qfloor (inject_Z z + (1 # 2)) < z + 1)%Z).
  { rewrite Zlt_Qlt. pose proof (Qfloor_le (inject_Z z + (1 # 2))).
    rewrite inject_Z_plus. change (inject_Z 1) with 1. lra. }
  lia.
Qed.

Lemma Math_round_int_comp (x y : Q) :
  x == y → JS.Math_round_int x = JS.Math_round_int y.
Proof. intros H. unfold JS.Math_round_int. now rewrite H. Qed.

(** [Math.round(x * 10) / 10] is [x] rounded to one decimal place. *)
Lemma round_tenth_rounded (x : Q) : rounded_to_tenth x (round_tenth x).
Proof.
  exists (Qfloor (x * 10 + (1 # 2))). unfold round_tenth.
  pose proof (Qfloor_le (x * 10 + (1 # 2))) as Hle.
  pose proof (Qlt_floor (x * 10 + (1 # 2))) as Hlt.
  rewrite inject_Z_plus in Hlt. change (inject_Z 1) with 1 in Hlt.
  set (k := inject_Z (Qfloor (x * 10 + (1 # 2)))) in *.
  assert (Hk : k / 10 == k * (1 # 10)) by (field).
  split; [|split].
  - rewrite Hk. unfold k, inject_Z, Qeq, Qmult; simpl. lia.
  - rewrite Hk. lra.
  - rewrite Hk. lra.
Qed.

End Rounding.

(** ** Range overlap *)

Section RangeOverlap.

Lemma falsy_spec (x : option Q) : JS.falsy x = true ↔ missing_or_zero x.
Proof.
  destruct x as [q|]; simpl; [apply Qeq_bool_iff | tauto].
Qed.

Lemma falsy_false (x : option Q) :
  JS.falsy x = false → ∃ q, x = Some q ∧ ¬ q == 0.
Proof.
  destruct x as [q|]; simpl; [|discriminate].
  intros H. exists q. split; [reflexivity|]. now apply Qeq_bool_neq.
Qed.

(** On the path that divides, the divisor is positive and the quotient is
    a proper fraction: the cap at 1 never binds. *)
Lemma overlap_fraction (min1 max1 min2 max2 : Q) :
  Qmax min1 min2 < Qmin max1 max2 →
  0 < ((max1 - min1) + (max2 - min2)) / 2 ∧
  0 < (Qmin max1 max2 - Qmax min1 min2) / (((max1 - min1) + (max2 - min2)) / 2) <= 1.
Proof.
  intros Hlt.
  pose proof (Q.le_max_l min1 min2). pose proof (Q.le_max_r min1 min2).
  pose proof (Q.le_min_l max1 max2). pose proof (Q.le_min_r max1 max2).
  set (lo := Qmax min1 min2) in *. set (hi := Qmin max1 max2) in *.
  assert (Havg : 0 < ((max1 - min1) + (max2 - min2)) / 2).
  { apply Qlt_shift_div_l; lra. }
  split; [exact Havg|]. split.
  - apply Qlt_shift_div_l; [exact Havg | lra].
  - apply Qle_shift_div_r; [exact Havg|].
    assert (E : ((max1 - min1) + (max2 - min2)) / 2
                == ((max1 - min1) + (max2 - min2)) * (1 # 2)) by field.
    rewrite E. lra.
Qed.

Lemma checkRangeOverlap_bounds (range1 range2 : Range) :
  0 <= checkRangeOverlap range1 range2 <= 1.
Proof.
  unfold checkRangeOverlap.
  destruct (_ || _ || _ || _)%bool; [lra|].
  destruct (range_min range1) as [min1|], (range_max range1) as [max1|],
           (range_min range2) as [min2|], (range_max range2) as [max2|];
    try lra.
  cbv zeta. unfold JS.Math_max, JS.Math_min.
  destruct (Qle_bool _ _) eqn:Hle; [lra|].
  assert (Hlt : Qmax min1 min2 < Qmin max1 max2).
  { apply Qnot_le_lt. intros Hc. apply Qle_bool_iff in Hc. congruence. }
  destruct (overlap_fraction _ _ _ _ Hlt) as [_ [Hpos Hle1]].
  split.
  - apply Q.min_glb; lra.
  - apply Q.le_min_r.
Qed.

Lemma checkRangeOverlap_falsy (range1 range2 : Range) :
  missing_or_zero (range_min range1) ∨ missing_or_zero (range_max range1)
  ∨ missing_or_zero (range_min range2) ∨ missing_or_zero (range_max range2) →
  checkRangeOverlap range1 range2 = 0.
Proof.
  intros H. unfold checkRangeOverlap.
  rewrite <- !falsy_spec in H.
  destruct H as [-> | [-> | [-> | ->]]]; simpl; rewrite ?orb_true_r; reflexivity.
Qed.


End RangeOverlap.

(** ** Scaled and rounded scores *)

Section Scaled.

Lemma Math_round_tenth (x : Q) : ∃ k : Z, JS.Math_round x / 10 == k # 10.
Proof.
  exists (JS.Math_round_int x). unfold JS.Math_round.
  unfold Qeq, Qdiv, Qmult, Qinv, inject_Z; simpl. lia.
Qed.

Lemma Math_round_div_mono (x y : Q) :
  x <= y → JS.Math_round x / 10 <= JS.Math_round y / 10.
Proof.
  intros H. unfold JS.Math_round.
  pose proof (Math_round_int_mono x y H) as Hz.
  rewrite Zle_Qle in Hz. unfold Qdiv. apply Qmult_le_compat_r; [exact Hz | discriminate].
Qed.

Lemma Math_round_div_comp (x y : Q) :
  x == y → JS.Math_round x / 10 == JS.Math_round y / 10.
Proof.
  intros H. unfold JS.Math_round. now rewrite (Math_round_int_comp _ _ H).
Qed.

Lemma Math_round_div_Z (z : Z) : JS.Math_round (inject_Z z * 10) / 10 == inject_Z z.
Proof.
  assert (E : inject_Z z * 10 == inject_Z (z * 10)).
  { rewrite inject_Z_mult. reflexivity. }
  unfold JS.Math_round.
  rewrite (Math_round_int_comp _ _ E), Math_round_int_Z, inject_Z_mult.
  change (inject_Z 10) with 10. field.
Qed.

(** The product [p * c * 10] as the scorers form it, for a share [p]. *)
Lemma scaled_mono (p p' c : Q) :
  p <= p' → 0 <= c →
  Double.mul (Double.mul p c) 10 <= Double.mul (Double.mul p' c) 10.
Proof.
  intros Hp Hc. unfold Double.mul.
  apply of_Q_mono. apply Qmult_le_compat_r; [|discriminate].
  apply of_Q_mono. apply Qmult_le_compat_r; assumption.
Qed.

Lemma scaled_comp (p p' c : Q) :
  p == p' → Double.mul (Double.mul p c) 10 == Double.mul (Double.mul p' c) 10.
Proof. intros H. unfold Double.mul. now rewrite H. Qed.

Lemma scaled_sub_score (max : Z) (p : Q) :
  0 <= p → p <= 1 → (0 <= max)%Z →
  is_double (inject_Z max) → is_double (inject_Z max * 10) →
  sub_score max (JS.Math_round (Double.mul (Double.mul p (inject_Z max)) 10) / 10).
Proof.
  intros H0 H1 Hmax D1 D2.
  assert (Hm : 0 <= inject_Z max).
  { change 0 with (inject_Z 0). now rewrite <- Zle_Qle. }
  split; [apply Math_round_tenth|].
  split.
  - assert (E : JS.Math_round (Double.mul (Double.mul 0 (inject_Z max)) 10) / 10 == 0).
    { rewrite (Math_round_div_comp _ 0); [reflexivity|].
      unfold Double.mul. rewrite Qmult_0_l. reflexivity. }
    rewrite <- E. apply Math_round_div_mono. apply scaled_mono; assumption.
  - assert (E : JS.Math_round (Double.mul (Double.mul 1 (inject_Z max)) 10) / 10
                == inject_Z max).
    { rewrite (Math_round_div_comp _ (inject_Z max * 10)); [apply Math_round_div_Z|].
      unfold Double.mul, is_double in *. rewrite Qmult_1_l, D1. exact D2. }
    rewrite <- E at 2. apply Math_round_div_mono. apply scaled_mono; assumption.
Qed.

(** The rounded product stays next to the exact one. *)
Lemma scaled_near (p x c : Q) :
  0 <= p → 0 <= x → x <= 1 →
  p - x <= 8 * Double.unit_roundoff → x - p <= 8 * Double.unit_roundoff →
  0 <= c → c <= 30 →
  tenth_near double_slack (x * c)
             (JS.Math_round (Double.mul (Double.mul p c) 10) / 10).
Proof.
  intros Hp Hx0 Hx1 Hpx Hxp Hc0 Hc30.
  destruct (Math_round_tenth (Double.mul (Double.mul p c) 10)) as [k Hk].
  exists k. split; [exact Hk|].
  pose proof (Math_round_le (Double.mul (Double.mul p c) 10)) as Hle.
  pose proof (Math_round_gt (Double.mul (Double.mul p c) 10)) as Hgt.
  set (K := JS.Math_round _) in *.
  assert (EK : K / 10 == K * (1 # 10)) by field.
  unfold Double.mul in Hle, Hgt.
  assert (Hz : 0 <= p * c) by nra.
  destruct (of_Q_error (p * c) Hz) as [A1 A2].
  assert (Hy : 0 <= Double.of_Q (p * c) * 10).
  { pose proof (of_Q_nonneg _ Hz). lra. }
  destruct (of_Q_error _ Hy) as [B1 B2].
  set (y1 := Double.of_Q (p * c)) in *.
  set (y2 := Double.of_Q (y1 * 10)) in *.
  assert (Z1 : p * c <= x * c + 8 * Double.unit_roundoff * c) by nra.
  assert (Z2 : x * c - 8 * Double.unit_roundoff * c <= p * c) by nra.
  assert (W : 0 <= x * c ∧ x * c <= c) by (split; nra).
  destruct W as [W0 W1].
  set (z := p * c) in *. set (w := x * c) in *.
  unfold Double.unit_roundoff, double_slack in *.
  rewrite EK. split; lra.
Qed.

End Scaled.

(** ** Range overlap on doubles *)

Section Overlap64.

Lemma checkRangeOverlap64_falsy (range1 range2 : Range) :
  missing_or_zero (range_min range1) ∨ missing_or_zero (range_max range1)
  ∨ missing_or_zero (range_min range2) ∨ missing_or_zero (range_max range2) →
  checkRangeOverlap64 range1 range2 = 0.
Proof.
  intros H. unfold checkRangeOverlap64.
  rewrite <- !falsy_spec in H.
  destruct H as [-> | [-> | [-> | ->]]]; simpl; rewrite ?orb_true_r; reflexivity.
Qed.

Lemma checkRangeOverlap64_disjoint (min1 max1 min2 max2 : Q) :
  Qmin max1 max2 <= Qmax min1 min2 →
  checkRangeOverlap64 (mkRange (Some min1) (Some max1)) (mkRange (Some min2) (Some max2)) = 0.
Proof.
  intros H. unfold checkRangeOverlap64. destruct (_ || _ || _ || _)%bool; [reflexivity|].
  simpl. unfold JS.Math_max, JS.Math_min.
  apply Qle_bool_iff in H. now rewrite H.
Qed.

(** The quotient of the rounded sizes against the quotient of the sizes. *)
Lemma quotient64_near (size s1 s2 : Q) :
  0 < size → size <= s1 → size <= s2 →
  let q := size / ((s1 + s2) / 2) in
  let q64 := Double.div (Double.of_Q size)
               (Double.div (Double.add (Double.of_Q s1) (Double.of_Q s2)) 2) in
  q * (1 - 8 * Double.unit_roundoff) <= q64 ∧ q64 <= q * (1 + 8 * Double.unit_roundoff).
Proof.
  intros Hs H1 H2. cbv zeta. unfold Double.div, Double.add.
  destruct (of_Q_error size ltac:(lra)) as [A1 A2].
  destruct (of_Q_error s1 ltac:(lra)) as [B1 B2].
  destruct (of_Q_error s2 ltac:(lra)) as [C1 C2].
  set (d := Double.of_Q size) in *. set (d1 := Double.of_Q s1) in *.
  set (d2 := Double.of_Q s2) in *.
  assert (Hd12 : 0 <= d1 + d2).
  { unfold Double.unit_roundoff in *. lra. }
  destruct (of_Q_error (d1 + d2) Hd12) as [S1 S2].
  set (sum := Double.of_Q (d1 + d2)) in *.
  assert (Hsum : 0 <= sum / 2).
  { unfold Double.unit_roundoff in *. apply Qle_shift_div_l; lra. }
  destruct (of_Q_error (sum / 2) Hsum) as [V1 V2].
  set (avg := Double.of_Q (sum / 2)) in *.
  assert (Esum : sum / 2 == sum * (1 # 2)) by field.
  rewrite Esum in V1, V2.
  set (S := s1 + s2) in *.
  assert (HS : 0 < S) by (unfold S; lra).
  set (a := 1 - Double.unit_roundoff) in *. set (b := 1 + Double.unit_roundoff) in *.
  assert (Ha : a == 1 - Double.unit_roundoff) by reflexivity.
  assert (Hb : b == 1 + Double.unit_roundoff) by reflexivity.
  unfold Double.unit_roundoff in Ha, Hb.
  assert (L : (a * a * a) * (1 # 2) * S <= avg).
  { assert (d1 + d2 >= a * S) by (unfold S; lra).
    assert (sum >= a * a * S) by nra.
    nra. }
  assert (U : avg <= (b * b * b) * (1 # 2) * S).
  { assert (d1 + d2 <= b * S) by (unfold S; lra).
    assert (sum <= b * b * S) by nra.
    nra. }
  assert (Havg : 0 < avg).
  { assert (0 < a * a * a) by (rewrite Ha; reflexivity). nra. }
  set (q := size / (S / 2)).
  assert (Eq : q * S == 2 * size) by (unfold q; field; lra).
  assert (Hq : 0 < q) by nra.
  assert (Hd : 0 <= d / avg).
  { apply Qle_shift_div_l; [exact Havg | nra]. }
  destruct (of_Q_error (d / avg) Hd) as [R1 R2].
  set (r := d / avg) in *.
  assert (Er : r * avg == d) by (unfold r; field; lra).
  (* r * (a^3) <= q * b  and  q * a <= r * b^3 *)
  assert (X1 : r * (a * a * a) <= q * b).
  { assert (r * ((a * a * a) * (1 # 2) * S) <= r * avg) by nra.
    assert (r * avg <= b * size) by lra.
    assert (b * size == (1 # 2) * (q * b) * S).
    { transitivity ((1 # 2) * b * (q * S)); [rewrite Eq; ring | ring]. }
    nra. }
  assert (X2 : q * a <= r * (b * b * b)).
  { assert (r * avg <= r * ((b * b * b) * (1 # 2) * S)) by nra.
    assert (a * size <= r * avg) by lra.
    assert (a * size == (1 # 2) * (q * a) * S).
    { transitivity ((1 # 2) * a * (q * S)); [rewrite Eq; ring | ring]. }
    nra. }
  assert (N1 : b * b <= (1 + 8 * Double.unit_roundoff) * (a * a * a))
    by (rewrite Ha, Hb; vm_compute; discriminate).
  assert (N2 : (1 - 8 * Double.unit_roundoff) * (b * b * b) <= a * a)
    by (rewrite Ha, Hb; vm_compute; discriminate).
  split.
  - (* q (1-8u) b^3 <= q a^2 <= r a b^3 <= of_Q r * b^3 *)
    assert (0 < b * b * b) by (rewrite Hb; reflexivity).
    assert (q * (1 - 8 * Double.unit_roundoff) * (b * b * b)
            <= Double.of_Q r * (b * b * b)).
    { assert (q * ((1 - 8 * Double.unit_roundoff) * (b * b * b)) <= q * (a * a)) by nra.
      assert (q * a * a <= r * (b * b * b) * a).
      { apply Qmult_le_compat_r; [exact X2 | rewrite Ha; discriminate]. }
      assert (r * a * (b * b * b) <= Double.of_Q r * (b * b * b)).
      { apply Qmult_le_compat_r; [exact R1 | lra]. }
      nra. }
    nra.
  - assert (0 < a * a * a) by (rewrite Ha; reflexivity).
    assert (Double.of_Q r * (a * a * a) <= q * (1 + 8 * Double.unit_roundoff) * (a * a * a)).
    { assert (Double.of_Q r * (a * a * a) <= r * b * (a * a * a)).
      { apply Qmult_le_compat_r; [exact R2 | lra]. }
      assert (r * (a * a * a) * b <= q * b * b).
      { apply Qmult_le_compat_r; [exact X1 | rewrite Hb; discriminate]. }
      assert (q * (b * b) <= q * ((1 + 8 * Double.unit_roundoff) * (a * a * a))) by nra.
      nra. }
    nra.
Qed.

Lemma checkRangeOverlap64_near (range1 range2 : Range) :
  checkRangeOverlap64 range1 range2 - checkRangeOverlap range1 range2
    <= 8 * Double.unit_roundoff
  ∧ checkRangeOverlap range1 range2 - checkRangeOverlap64 range1 range2
    <= 8 * Double.unit_roundoff.
Proof.
  unfold checkRangeOverlap64, checkRangeOverlap.
  destruct (_ || _ || _ || _)%bool; [split; discriminate|].
  destruct (range_min range1) as [min1|], (range_max range1) as [max1|],
           (range_min range2) as [min2|], (range_max range2) as [max2|];
    try (split; discriminate).
  cbv zeta. unfold JS.Math_max, JS.Math_min.
  destruct (Qle_bool _ _) eqn:Hle; [split; discriminate|].
  assert (Hlt : Qmax min1 min2 < Qmin max1 max2).
  { apply Qnot_le_lt. intros Hc. apply Qle_bool_iff in Hc. congruence. }
  destruct (overlap_fraction _ _ _ _ Hlt) as [_ [Hpos Hle1]].
  pose proof (Q.le_max_l min1 min2). pose proof (Q.le_max_r min1 min2).
  pose proof (Q.le_min_l max1 max2). pose proof (Q.le_min_r max1 max2).
  pose proof (quotient64_near (Qmin max1 max2 - Qmax min1 min2)
                (max1 - min1) (max2 - min2) ltac:(lra) ltac:(lra) ltac:(lra)) as [N1 N2].
  cbv zeta in N1, N2. unfold Double.sub.
  set (q := (Qmin max1 max2 - Qmax min1 min2) / ((max1 - min1 + (max2 - min2)) / 2)) in *.
  set (q64 := Double.div _ _) in *.
  rewrite (Q.min_l q 1) by exact Hle1.
  assert (Hu : 0 < Double.unit_roundoff) by reflexivity.
  split.
  - pose proof (Q.le_min_l q64 1). nra.
  - destruct (Q.min_spec q64 1) as [[_ E] | [_ E]]; rewrite E; nra.
Qed.

Lemma checkRangeOverlap64_bounds (range1 range2 : Range) :
  0 <= checkRangeOverlap64 range1 range2 <= 1.
Proof.
  unfold checkRangeOverlap64.
  destruct (_ || _ || _ || _)%bool; [lra|].
  destruct (range_min range1) as [min1|], (range_max range1) as [max1|],
           (range_min range2) as [min2|], (range_max range2) as [max2|];
    try lra.
  cbv zeta. unfold JS.Math_max, JS.Math_min.
  destruct (Qle_bool _ _) eqn:Hle; [lra|].
  assert (Hlt : Qmax min1 min2 < Qmin max1 max2).
  { apply Qnot_le_lt. intros Hc. apply Qle_bool_iff in Hc. congruence. }
  pose proof (Q.le_max_l min1 min2). pose proof (Q.le_max_r min1 min2).
  pose proof (Q.le_min_l max1 max2). pose proof (Q.le_min_r max1 max2).
  split; [|apply Q.le_min_r].
  apply Q.min_glb; [|lra].
  unfold Double.div, Double.add, Double.sub. apply of_Q_nonneg.
  assert (A : 0 <= Double.of_Q (Qmin max1 max2 - Qmax min1 min2)) by (apply of_Q_nonneg; lra).
  assert (B : 0 <= Double.of_Q
                     (Double.of_Q (Double.of_Q (max1 - min1) + Double.of_Q (max2 - min2)) / 2)).
  { apply of_Q_nonneg. apply Qle_shift_div_l; [reflexivity|].
    rewrite Qmult_0_l. apply of_Q_nonneg.
    pose proof (of_Q_nonneg (max1 - min1) ltac:(lra)).
    pose proof (of_Q_nonneg (max2 - min2) ltac:(lra)). lra. }
  unfold Qdiv. apply Qmult_le_0_compat; [exact A|].
  apply Qinv_le_0_compat. exact B.
Qed.

(** Rounding makes no overlap appear or vanish. *)
Lemma checkRangeOverlap64_positive (range1 range2 : Range) :
  0 < checkRangeOverlap64 range1 range2 ↔ 0 < checkRangeOverlap range1 range2.
Proof.
  unfold checkRangeOverlap64, checkRangeOverlap.
  destruct (_ || _ || _ || _)%bool; [reflexivity|].
  destruct (range_min range1) as [min1|], (range_max range1) as [max1|],
           (range_min range2) as [min2|], (range_max range2) as [max2|];
    try reflexivity.
  cbv zeta. unfold JS.Math_max, JS.Math_min.
  destruct (Qle_bool _ _) eqn:Hle; [reflexivity|].
  assert (Hlt : Qmax min1 min2 < Qmin max1 max2).
  { apply Qnot_le_lt. intros Hc. apply Qle_bool_iff in Hc. congruence. }
  destruct (overlap_fraction _ _ _ _ Hlt) as [_ [Hpos Hle1]].
  pose proof (Q.le_max_l min1 min2). pose proof (Q.le_max_r min1 min2).
  pose proof (Q.le_min_l max1 max2). pose proof (Q.le_min_r max1 max2).
  pose proof (quotient64_near (Qmin max1 max2 - Qmax min1 min2)
                (max1 - min1) (max2 - min2) ltac:(lra) ltac:(lra) ltac:(lra)) as [N1 _].
  cbv zeta in N1. unfold Double.sub.
  set (q := (Qmin max1 max2 - Qmax min1 min2) / ((max1 - min1 + (max2 - min2)) / 2)) in *.
  set (q64 := Double.div _ _) in *.
  assert (Hq64 : 0 < q64) by (unfold Double.unit_roundoff in N1; nra).
  split; intros _.
  - apply Q.min_glb_lt; lra.
  - apply Q.min_glb_lt; [exact Hq64 | reflexivity].
Qed.

End Overlap64.



(** ** Jaccard similarity *)

Section Jaccard.

Lemma size_zero_iff (s : gset string) : (size s =? 0)%nat = true ↔ s = ∅.
Proof.
  rewrite Nat.eqb_eq, size_empty_iff. apply leibniz_equiv_iff.
Qed.

Lemma members_SetOf (s : gset string) : members (SetOf s) = s.
Proof. unfold members; simpl. apply list_to_set_elements_L. Qed.

Lemma js_intersection (s1 s2 : gset string) :
  list_to_set (filter (λ x, x ∈ s2) (elements s1)) = s1 ∩ s2.
Proof.
  apply set_eq. intros x.
  rewrite elem_of_list_to_set, list_elem_of_filter, elem_of_elements.
  rewrite elem_of_intersection. tauto.
Qed.

Lemma js_union (s1 s2 : gset string) :
  list_to_set (elements s1 ++ elements s2) =@{gset string} s1 ∪ s2.
Proof.
  apply set_eq. intros x.
  rewrite elem_of_list_to_set, elem_of_app, !elem_of_elements.
  rewrite elem_of_union. tauto.
Qed.

Lemma calculateJaccardSimilarity_members (c1 c2 : StrColl) :
  calculateJaccardSimilarity c1 c2 = jaccardSimilarity_spec (members c1) (members c2).
Proof.
  unfold calculateJaccardSimilarity, jaccardSimilarity_spec. cbv zeta.
  fold (members c1). fold (members c2).
  rewrite js_intersection, js_union.
  destruct (size (members c1) =? 0)%nat eqn:E1;
    destruct (size (members c2) =? 0)%nat eqn:E2; simpl;
    destruct (decide _) as [H | H]; try reflexivity.
  - exfalso. apply H. left. now apply size_zero_iff.
  - exfalso. apply H. left. now apply size_zero_iff.
  - exfalso. apply H. right. now apply size_zero_iff.
  - exfalso. destruct H as [H | H]; apply size_zero_iff in H; congruence.
Qed.

Lemma jaccardSimilarity_spec_bounds (A B : gset string) :
  0 <= jaccardSimilarity_spec A B <= 1.
Proof.
  unfold jaccardSimilarity_spec. destruct (decide _) as [H | H]; [lra|].
  assert (Hle : (size (A ∩ B) <= size (A ∪ B))%nat).
  { apply subseteq_size. intros x Hx. apply elem_of_union. left.
    apply elem_of_intersection in Hx. apply Hx. }
  assert (Hpos : (0 < size (A ∪ B))%nat).
  { destruct (size (A ∪ B)) eqn:E; [|lia].
    apply size_empty_inv, leibniz_equiv, empty_union_L in E.
    exfalso. apply H. left. apply E. }
  assert (HposQ : 0 < inject_Z (Z.of_nat (size (A ∪ B)))).
  { change 0 with (inject_Z 0). rewrite <- Zlt_Qlt. lia. }
  split.
  - apply Qle_shift_div_l; [exact HposQ|].
    rewrite Qmult_0_l. change 0 with (inject_Z 0). rewrite <- Zle_Qle. lia.
  - apply Qle_shift_div_r; [exact HposQ|].
    rewrite Qmult_1_l. rewrite <- Zle_Qle. lia.
Qed.

End Jaccard.

(** C6: for string sets [A] and [B], whether handed over as Sets or as
    arrays, [calculateJaccardSimilarity] is [|A ∩ B| / |A ∪ B|], is 0 when
    either set is empty, lies in [0, 1], and gives 1/3 on [{a,b}], [{b,c}]. *)
Theorem calculateJaccardSimilarity_correct
    (A B : gset string) (l1 l2 : list string) :
  calculateJaccardSimilarity (SetOf A) (SetOf B) == jaccardSimilarity_spec A B
  ∧ calculateJaccardSimilarity (Arr l1) (Arr l2)
    == jaccardSimilarity_spec (list_to_set l1) (list_to_set l2)
  ∧ 0 <= jaccardSimilarity_spec A B <= 1
  ∧ calculateJaccardSimilarity (SetOf ∅) (SetOf B) == 0
  ∧ calculateJaccardSimilarity (SetOf A) (SetOf ∅) == 0
  ∧ calculateJaccardSimilarity (SetOf {["a"; "b"]}) (SetOf {["b"; "c"]}) == 1 # 3.
Proof.
  rewrite !calculateJaccardSimilarity_members, !members_SetOf.
  split; [reflexivity|]. split; [reflexivity|].
  split; [apply jaccardSimilarity_spec_bounds|].
  split; [|split].
  - unfold jaccardSimilarity_spec. rewrite decide_True; [reflexivity | now left].
  - unfold jaccardSimilarity_spec. rewrite decide_True; [reflexivity | now right].
  - vm_compute. reflexivity.
Qed.

(** ** Methods score *)

Section Methods.

Lemma includes_filter (available required : list string) :
  filter (λ method, JS.includes available method) required
  = filter (λ m, m ∈ available) required.
Proof.
  apply list_filter_iff. intros x. unfold JS.includes.
  apply bool_decide_spec.
Qed.

(** The score when both lists have entries. *)
Lemma calculateMethodsScore_some (requiredMethods researcherMethods : option string)
    (m a : string) (required available : list string) :
  parseCommaSeparated requiredMethods = m :: required →
  parseCommaSeparated researcherMethods = a :: available →
  calculateMethodsScore requiredMethods researcherMethods
  = JS.Math_round
      (Double.mul
         (Double.mul
            (Double.div
               (inject_Z (Z.of_nat (length (filter (λ x, x ∈ a :: available) (m :: required)))))
               (inject_Z (Z.of_nat (length (m :: required)))))
            25) 10) / 10.
Proof.
  intros Er Ea. unfold calculateMethodsScore. cbv zeta.
  rewrite includes_filter, Er, Ea. reflexivity.
Qed.

(** The share of covered requirements is a proper fraction. *)
Lemma coverage_fraction (required available : list string) :
  0 <= inject_Z (Z.of_nat (length (filter (λ m, m ∈ available) required)))
       / inject_Z (Z.of_nat (length required)) <= 1.
Proof.
  pose proof (length_filter (λ m, m ∈ available) required) as Hle.
  destruct required as [|m required].
  - rewrite filter_nil. simpl. unfold Qdiv, Qinv; simpl. lra.
  - assert (Hpos : 0 < inject_Z (Z.of_nat (length (m :: required)))).
    { change 0 with (inject_Z 0). rewrite <- Zlt_Qlt. simpl length. lia. }
    split.
    + apply Qle_shift_div_l; [exact Hpos|]. rewrite Qmult_0_l.
      change 0 with (inject_Z 0). rewrite <- Zle_Qle. lia.
    + apply Qle_shift_div_r; [exact Hpos|]. rewrite Qmult_1_l.
      rewrite <- Zle_Qle. lia.
Qed.

(** A share, as a double: still a share, and next to the exact one. *)
Lemma share64 (x : Q) :
  0 <= x → x <= 1 →
  (0 <= Double.of_Q x ∧ Double.of_Q x <= 1)
  ∧ Double.of_Q x - x <= 8 * Double.unit_roundoff
  ∧ x - Double.of_Q x <= 8 * Double.unit_roundoff.
Proof.
  intros H0 H1. destruct (of_Q_error x H0) as [E1 E2].
  pose proof (of_Q_nonneg x H0) as N. pose proof (of_Q_mono x 1 H1) as M.
  assert (E : Double.of_Q 1 == 1) by (vm_compute; reflexivity).
  rewrite E in M. unfold Double.unit_roundoff in *.
  split; [split; assumption|]. split; lra.
Qed.

Lemma coverage64 (required available : list string) :
  let x := inject_Z (Z.of_nat (length (filter (λ m, m ∈ available) required)))
           / inject_Z (Z.of_nat (length required)) in
  (0 <= Double.of_Q x ∧ Double.of_Q x <= 1)
  ∧ Double.of_Q x - x <= 8 * Double.unit_roundoff
  ∧ x - Double.of_Q x <= 8 * Double.unit_roundoff.
Proof.
  cbv zeta. destruct (coverage_fraction required available) as [H0 H1].
  now apply share64.
Qed.

End Methods.

(** C7 (as amended): the methods sub-score is 25 when the project requires no
    parseable method and 0 when it requires some and the researcher lists
    none.  Otherwise, with the entries of [methods_required] counted as
    listed (a method named twice counts twice), it is the share of the
    entries that the researcher lists, times 25, rounded to one decimal place
    in double precision: a multiple of 0.1 within 0.05 of that product, up to
    an error below 10^-12.  ["survey,interview"] against ["survey"] scores
    12.5. *)
Theorem calculateMethodsScore_correct (requiredMethods researcherMethods : option string) :
  let required := parseCommaSeparated requiredMethods in
  let available := parseCommaSeparated researcherMethods in
  let score := calculateMethodsScore requiredMethods researcherMethods in
  match required, available with
  | [], _ => score == 25
  | _ :: _, [] => score == 0
  | _ :: _, _ :: _ =>
      tenth_near double_slack
        (inject_Z (Z.of_nat (length (filter (λ m, m ∈ available) required)))
         / inject_Z (Z.of_nat (length required)) * 25)
        score
  end
  ∧ calculateMethodsScore (Some "survey,interview"%string) (Some "survey"%string)
    == 25 # 2.
Proof.
  cbv zeta. split; [|vm_compute; reflexivity].
  destruct (parseCommaSeparated requiredMethods) as [|m required] eqn:Er.
  { unfold calculateMethodsScore. rewrite Er. reflexivity. }
  destruct (parseCommaSeparated researcherMethods) as [|a available] eqn:Ea.
  { unfold calculateMethodsScore. rewrite Er, Ea. reflexivity. }
  rewrite (calculateMethodsScore_some _ _ _ _ _ _ Er Ea).
  destruct (coverage_fraction (m :: required) (a :: available)) as [H0 H1].
  destruct (coverage64 (m :: required) (a :: available)) as [[P0 _] [P1 P2]].
  apply scaled_near; try assumption; discriminate.
Qed.

(** C7 (as stated) fails twice.  The design document parses the two fields
    into sets, and so counts a method once however often it is listed, where
    the code counts the entries of [methods_required]: of ["a,a,b"] a
    researcher with ["a"] covers two entries of three and scores 16.7, not
    12.5.  And the product that the code rounds is a double: for 29 of 100
    distinct methods it is 72.49999999999999 where 7.25 times 10 is 72.5, so
    the score is 7.2 and not 7.3. *)
Lemma calculateMethodsScore_counterexample :
  (calculateMethodsScore (Some "a,a,b"%string) (Some "a"%string) == 167 # 10
   ∧ methodsScore_spec (Some "a,a,b"%string) (Some "a"%string) == 125 # 10)
  ∧ (calculateMethodsScore (Some (numbered_methods 100)) (Some (numbered_methods 29))
     == 72 # 10
     ∧ methodsScore_spec (Some (numbered_methods 100)) (Some (numbered_methods 29))
        == 73 # 10
     ∧ ¬ rounded_to_tenth ((29 # 100) * 25)
           (calculateMethodsScore (Some (numbered_methods 100))
                                  (Some (numbered_methods 29)))).
Proof.
  split; [split|split; [|split]].
  - vm_compute. reflexivity.
  - vm_compute. reflexivity.
  - vm_compute. reflexivity.
  - vm_compute. reflexivity.
  - assert (E : calculateMethodsScore (Some (numbered_methods 100))
                                      (Some (numbered_methods 29)) == 72 # 10)
      by (vm_compute; reflexivity).
    intros (k & _ & Hlo & _). rewrite E in Hlo. revert Hlo. vm_compute.
    discriminate.
Qed.

(** ** Budget score *)

Section Budget.

Lemma num_or_zero (x : option Q) : JS.num_or x 0 == 0 ↔ missing_or_zero x.
Proof.
  destruct x as [q|]; simpl; [|split; [tauto | reflexivity]].
  destruct (Qeq_bool q 0) eqn:E.
  - apply Qeq_bool_eq in E. split; [intros _; exact E | reflexivity].
  - tauto.
Qed.

Lemma parseFloat64_zero (x : option Q) :
  missing_or_zero (JS.parseFloat64 x) ↔ missing_or_zero x.
Proof. destruct x as [q|]; simpl; [apply of_Q_zero_iff | tauto]. Qed.

Lemma projectMin_zero (project : Project) :
  Qeq_bool (projectMin project) 0 = true ↔ missing_or_zero (budget_min project).
Proof.
  rewrite Qeq_bool_iff. unfold projectMin. rewrite num_or_zero.
  apply parseFloat64_zero.
Qed.

(** The resolved amounts are doubles. *)
Lemma num_or_double (x : option Q) (d : Q) :
  is_double d → is_double (JS.num_or (JS.parseFloat64 x) d).
Proof.
  intros Hd. destruct x as [q|]; simpl; [|exact Hd].
  destruct (Qeq_bool (Double.of_Q q) 0); [exact Hd | apply of_Q_idem].
Qed.

Lemma projectMin_double (project : Project) : is_double (projectMin project).
Proof. apply num_or_double. reflexivity. Qed.

Lemma projectMax_double (project : Project) : is_double (projectMax project).
Proof. apply num_or_double, num_or_double. reflexivity. Qed.

Lemma estimatedHours_spec (project : Project) :
  estimatedHours project = hours_or_100 project.
Proof.
  unfold estimatedHours, hours_or_100, JS.int_or, JS.parseInt.
  destruct (estimated_hours project) as [h|]; [|reflexivity].
  destruct (Z.eqb_spec h 0); destruct (decide (h = 0%Z)); congruence.
Qed.

(** A range that starts where it ends overlaps nothing. *)
Lemma checkRangeOverlap_point_l (q : Q) (range2 : Range) :
  checkRangeOverlap (mkRange (Some q) (Some q)) range2 = 0.
Proof.
  unfold checkRangeOverlap. destruct (_ || _ || _ || _)%bool; [reflexivity|].
  simpl. destruct (range_min range2) as [min2|], (range_max range2) as [max2|];
    try reflexivity.
  unfold JS.Math_max, JS.Math_min.
  assert (H : Qle_bool (Qmin q max2) (Qmax q min2) = true).
  { apply Qle_bool_iff. pose proof (Q.le_min_l q max2).
    pose proof (Q.le_max_l q min2). lra. }
  rewrite H. reflexivity.
Qed.

Lemma checkRangeOverlap_point_r (range1 : Range) (c1 c2 : Q) :
  c1 == c2 → checkRangeOverlap range1 (mkRange (Some c1) (Some c2)) = 0.
Proof.
  intros Hc. unfold checkRangeOverlap.
  destruct (_ || _ || _ || _)%bool; [reflexivity|].
  simpl. destruct (range_min range1) as [min1|], (range_max range1) as [max1|];
    try reflexivity.
  unfold JS.Math_max, JS.Math_min.
  assert (H : Qle_bool (Qmin max1 c2) (Qmax min1 c1) = true).
  { apply Qle_bool_iff. pose proof (Q.le_min_r max1 c2).
    pose proof (Q.le_max_r min1 c1). lra. }
  rewrite H. reflexivity.
Qed.

Lemma round_zero : JS.Math_round (Double.mul (Double.mul 0 15) 10) / 10 == 0.
Proof. vm_compute. reflexivity. Qed.

(** A cost range that starts where it ends overlaps nothing. *)
Lemma checkRangeOverlap64_point_r (min1 max1 c1 c2 : Q) :
  c1 == c2 →
  checkRangeOverlap64 (mkRange (Some min1) (Some max1)) (mkRange (Some c1) (Some c2)) = 0.
Proof.
  intros Hc. apply checkRangeOverlap64_disjoint.
  pose proof (Q.le_min_r max1 c2). pose proof (Q.le_max_r min1 c1). lra.
Qed.

(** The project range the code hands to [checkRangeOverlap], against the
    one written with the columns. *)
Lemma project_range_overlap (project : Project) (range2 : Range) :
  ¬ missing_or_zero (budget_min project) →
  checkRangeOverlap
    (mkRange (Some (projectMin project)) (Some (projectMax project))) range2
  = checkRangeOverlap
      (mkRange (JS.parseFloat64 (budget_min project))
               (match budget_max project with
                | Some m => Some (Double.of_Q m)
                | None => JS.parseFloat64 (budget_min project)
                end)) range2.
Proof.
  unfold projectMin, projectMax, JS.parseFloat64, JS.num_or, missing_or_zero.
  destruct (budget_min project) as [q|]; [|tauto]. intros Hq.
  cbn [fmap option_fmap option_map].
  destruct (Qeq_bool (Double.of_Q q) 0) eqn:Eq.
  { apply Qeq_bool_eq in Eq. apply (proj1 (of_Q_zero_iff _)) in Eq. tauto. }
  destruct (budget_max project) as [m|]; [|reflexivity].
  cbn [fmap option_fmap option_map].
  destruct (Qeq_bool (Double.of_Q m) 0) eqn:Em; [|reflexivity].
  rewrite checkRangeOverlap_point_l. symmetry.
  apply checkRangeOverlap_falsy. right; left. simpl. now apply Qeq_bool_eq.
Qed.

End Budget.

(** C4 (as amended): the budget sub-score is 0 whenever the project's budget
    minimum or the researcher's rate minimum is zero or absent.  In general
    it is 15 times the range-overlap fraction of the project's budget range
    ([budget_max] falling back to [budget_min]) and the researcher's cost
    range (resolved rate range times [estimated_hours], which counts as 100
    when absent or zero), the amounts being doubles, rounded to one decimal
    place in double precision: a multiple of 0.1 within 0.05 of that
    product, up to an error below 10^-12. *)
Theorem calculateBudgetScore_correct (project : Project) (researcher : ResearcherProfile) :
  let hours := inject_Z (hours_or_100 project) in
  let budget :=
    mkRange (JS.parseFloat64 (budget_min project))
            (match budget_max project with
             | Some m => Some (Double.of_Q m)
             | None => JS.parseFloat64 (budget_min project)
             end) in
  let cost := mkRange (Some (Double.mul (rateMin researcher) hours))
                      (Some (Double.mul (rateMax researcher) hours)) in
  let score := calculateBudgetScore project researcher in
  (missing_or_zero (budget_min project) ∨ rateMin researcher == 0 → score == 0)
  ∧ tenth_near double_slack (checkRangeOverlap budget cost * 15) score.
Proof.
  cbv zeta. unfold calculateBudgetScore. cbv zeta.
  rewrite estimatedHours_spec.
  destruct (Qeq_bool (projectMin project) 0) eqn:Ep.
  { apply projectMin_zero in Ep. cbn [orb]. split; [reflexivity|].
    rewrite checkRangeOverlap_falsy.
    - exists 0%Z. split; [reflexivity | split; discriminate].
    - left. apply parseFloat64_zero. exact Ep. }
  destruct (Qeq_bool (rateMin researcher) 0) eqn:Er; cbn [orb].
  { apply Qeq_bool_eq in Er. split; [reflexivity|].
    rewrite checkRangeOverlap_falsy.
    - exists 0%Z. split; [reflexivity | split; discriminate].
    - right; right; left. cbn [range_min missing_or_zero].
      unfold Double.mul. apply of_Q_zero_iff. rewrite Er. apply Qmult_0_l. }
  assert (Hp : ¬ missing_or_zero (budget_min project)).
  { intros H. apply projectMin_zero in H. congruence. }
  split.
  { intros [H | H]; [tauto|]. apply Qeq_bool_neq in Er. tauto. }
  rewrite <- (project_range_overlap _ _ Hp).
  match goal with
  | |- context [checkRangeOverlap64 ?a ?b] =>
      pose proof (checkRangeOverlap64_bounds a b) as [B0 B1];
      pose proof (checkRangeOverlap64_near a b) as [N1 N2];
      pose proof (checkRangeOverlap_bounds a b) as [X0 X1];
      set (p := checkRangeOverlap64 a b) in *;
      set (x := checkRangeOverlap a b) in *
  end.
  apply scaled_near; try assumption; discriminate.
Qed.

(** C4 (as stated) fails on [estimated_hours = 0]: with the hours taken as
    present the cost range is the point 0 and the score would be 0, but the
    code falls back to 100 hours and scores the full 15.  It also fails where
    the product to round is halfway between two tenths: for a budget of
    10000-20000, 100 hours and rates 191-291 the overlap fraction is 0.09 and
    0.09 times 15 is 1.35, but the code forms 13.499999999999998 in double
    precision and scores 1.3. *)
Lemma calculateBudgetScore_counterexample :
  (let project := project_fixture (Some 5000) (Some 10000) (Some 0%Z) in
   let researcher := researcher_fixture (Some 50) (Some 100) (Some 50) (Some 100) in
   calculateBudgetScore project researcher == 15
   ∧ budgetScore_rule project (hours_spec project)
                      (rateMin researcher) (rateMax researcher) == 0
   ∧ ¬ (calculateBudgetScore project researcher
        == budgetScore_rule project (hours_spec project)
                            (rateMin researcher) (rateMax researcher)))
  ∧ (let project := project_fixture (Some 10000) (Some 20000) (Some 100%Z) in
     let researcher := researcher_fixture (Some 191) (Some 291) None None in
     calculateBudgetScore project researcher == 13 # 10
     ∧ budgetScore_rule project (hours_spec project)
                        (rateMin researcher) (rateMax researcher) == 14 # 10
     ∧ ¬ rounded_to_tenth ((9 # 100) * 15) (calculateBudgetScore project researcher)).
Proof.
  cbv zeta. split; split; [|split| |split].
  - vm_compute. reflexivity.
  - vm_compute. reflexivity.
  - vm_compute. discriminate.
  - vm_compute. reflexivity.
  - vm_compute. reflexivity.
  - assert (E : calculateBudgetScore
                  (project_fixture (Some 10000) (Some 20000) (Some 100%Z))
                  (researcher_fixture (Some 191) (Some 291) None None) == 13 # 10)
      by (vm_compute; reflexivity).
    intros (k & _ & Hlo & _). rewrite E in Hlo. revert Hlo. vm_compute.
    discriminate.
Qed.

(** What the scorer does when both namings are populated with positive
    values: it takes [rate_min]/[rate_max] and never looks at the
    [hourly_rate_*] aliases. *)
Lemma calculateBudgetScore_rate_priority
    (project : Project) (researcher : ResearcherProfile) (r1 r2 h1 h2 : Q) :
  rate_min researcher = Some r1 → rate_max researcher = Some r2 →
  hourly_rate_min researcher = Some h1 → hourly_rate_max researcher = Some h2 →
  0 < r1 → 0 < r2 → 0 < h1 → 0 < h2 →
  rateMin researcher = Double.of_Q r1 ∧ rateMax researcher = Double.of_Q r2.
Proof.
  intros E1 E2 _ _ P1 P2 _ _. split.
  - unfold rateMin, JS.parseFloat64. rewrite E1.
    cbn [fmap option_fmap option_map JS.num_or].
    destruct (Qeq_bool (Double.of_Q r1) 0) eqn:E; [|reflexivity].
    apply Qeq_bool_eq in E. apply (proj1 (of_Q_zero_iff _)) in E. lra.
  - unfold rateMax, JS.parseFloat64. rewrite E2.
    cbn [fmap option_fmap option_map JS.num_or].
    destruct (Qeq_bool (Double.of_Q r2) 0) eqn:E; [|reflexivity].
    apply Qeq_bool_eq in E. apply (proj1 (of_Q_zero_iff _)) in E. lra.
Qed.

Lemma calculateBudgetScore_rate_priority_witness :
  let project := project_fixture (Some 8000) (Some 13000) (Some 100%Z) in
  let researcher := researcher_fixture (Some 75) (Some 125) (Some 80) (Some 130) in
  rateMin researcher = Double.of_Q 75 ∧ rateMax researcher = Double.of_Q 125.
Proof.
  cbv zeta.
  apply (calculateBudgetScore_rate_priority
           (project_fixture (Some 8000) (Some 13000) (Some 100%Z))
           (researcher_fixture (Some 75) (Some 125) (Some 80) (Some 130))
           75 125 80 130); reflexivity.
Defined.

(** C3: the code does not do this.  With rates 75-125 and hourly rates
    80-130 both populated, [calculateBudgetScore] resolves the range to
    75-125 and scores 13.5, where the hourly alias gives 15; the match that
    [findMatchesForProject] returns for the same researcher shows the hourly
    range 80-130 next to that score. *)
Theorem calculateBudgetScore_ignores_hourly_alias :
  let project := project_fixture (Some 8000) (Some 13000) (Some 100%Z) in
  let researcher := researcher_fixture (Some 75) (Some 125) (Some 80) (Some 130) in
  ¬ (Some (rateMin researcher) = hourly_rate_min researcher
     ∧ Some (rateMax researcher) = hourly_rate_max researcher)
  ∧ rateMin researcher == 75 ∧ rateMax researcher == 125
  ∧ calculateBudgetScore project researcher == 27 # 2
  ∧ budgetScore_rule project (hours_or_100 project) 80 130 == 15
  ∧ map (λ m, (rs_rate_min (subject m), rs_rate_max (subject m),
               Qred (Breakdown.budget (scoreBreakdown m))))
        (scoreResearchers db_two_rates project)
    = [(Some 80, Some 130, 27 # 2)].
Proof.
  cbv zeta. split; [|split; [|split; [|split; [|split]]]].
  - vm_compute. intros [H _]. discriminate H.
  - vm_compute. reflexivity.
  - vm_compute. reflexivity.
  - vm_compute. reflexivity.
  - vm_compute. reflexivity.
  - vm_compute. reflexivity.
Qed.

(** C10: when the resolved rate range is a single positive point, the budget
    sub-score is 0 whatever the project, even if the cost lies strictly
    inside the project's budget range: the overlap needs its lower bound
    strictly below its upper bound. *)
Theorem calculateBudgetScore_point_rate
    (project : Project) (researcher : ResearcherProfile) :
  rateMin researcher == rateMax researcher → 0 < rateMin researcher →
  calculateBudgetScore project researcher == 0.
Proof.
  intros Heq _. unfold calculateBudgetScore. cbv zeta.
  destruct (_ || _)%bool; [reflexivity|].
  rewrite checkRangeOverlap64_point_r.
  - apply round_zero.
  - unfold Double.mul. rewrite Heq. reflexivity.
Qed.

Lemma calculateBudgetScore_point_rate_witness :
  let project := project_fixture (Some 5000) (Some 10000) (Some 100%Z) in
  let researcher := researcher_fixture (Some 75) (Some 75) None None in
  (5000 < rateMin researcher * 100 ∧ rateMax researcher * 100 < 10000)
  ∧ calculateBudgetScore project researcher == 0.
Proof.
  cbv zeta. split.
  - split; reflexivity.
  - apply (calculateBudgetScore_point_rate
             (project_fixture (Some 5000) (Some 10000) (Some 100%Z))
             (researcher_fixture (Some 75) (Some 75) None None)); reflexivity.
Defined.

(** ** Aggregated score *)

Section Aggregator.

Lemma sub_score_const (max : Z) (c : Q) :
  c == Qfloor (c * 10) # 10 → Qle_bool 0 c = true → Qle_bool c (inject_Z max) = true →
  sub_score max c.
Proof.
  intros Hk H0 Hmax. split; [eexists; exact Hk|].
  split; now apply Qle_bool_iff.
Qed.

Lemma jaccard64 (c1 c2 : StrColl) :
  0 <= Double.of_Q (calculateJaccardSimilarity c1 c2)
  ∧ Double.of_Q (calculateJaccardSimilarity c1 c2) <= 1.
Proof.
  rewrite calculateJaccardSimilarity_members.
  pose proof (jaccardSimilarity_spec_bounds (members c1) (members c2)) as [H0 H1].
  now destruct (share64 _ H0 H1) as [H _].
Qed.

Lemma calculateExpertiseScore_sub_score (projectExpertise researcherExpertise : option string) :
  sub_score 30 (calculateExpertiseScore projectExpertise researcherExpertise).
Proof.
  unfold calculateExpertiseScore. cbv zeta.
  destruct (_ || _)%bool; [now apply sub_score_const|].
  match goal with
  | |- context [calculateJaccardSimilarity ?a ?b] =>
      destruct (jaccard64 a b) as [H0 H1]
  end.
  apply (scaled_sub_score 30); try assumption; [lia | reflexivity | reflexivity].
Qed.

Lemma calculateDomainScore_sub_score (orgFocusAreas researcherDomains : option string) :
  sub_score 10 (calculateDomainScore orgFocusAreas researcherDomains).
Proof.
  unfold calculateDomainScore. cbv zeta.
  destruct (_ || _)%bool; [now apply sub_score_const|].
  match goal with
  | |- context [calculateJaccardSimilarity ?a ?b] =>
      destruct (jaccard64 a b) as [H0 H1]
  end.
  apply (scaled_sub_score 10); try assumption; [lia | reflexivity | reflexivity].
Qed.

Lemma calculateMethodsScore_sub_score (requiredMethods researcherMethods : option string) :
  sub_score 25 (calculateMethodsScore requiredMethods researcherMethods).
Proof.
  destruct (parseCommaSeparated requiredMethods) as [|m required] eqn:Er.
  { unfold calculateMethodsScore. rewrite Er. now apply sub_score_const. }
  destruct (parseCommaSeparated researcherMethods) as [|a available] eqn:Ea.
  { unfold calculateMethodsScore. rewrite Er, Ea. now apply sub_score_const. }
  rewrite (calculateMethodsScore_some _ _ _ _ _ _ Er Ea).
  destruct (coverage64 (m :: required) (a :: available)) as [[H0 H1] _].
  apply (scaled_sub_score 25); try assumption; [lia | reflexivity | reflexivity].
Qed.

Lemma calculateBudgetScore_sub_score (project : Project) (researcher : ResearcherProfile) :
  sub_score 15 (calculateBudgetScore project researcher).
Proof.
  unfold calculateBudgetScore. cbv zeta.
  destruct (_ || _)%bool; [now apply sub_score_const|].
  match goal with
  | |- context [checkRangeOverlap64 ?a ?b] =>
      pose proof (checkRangeOverlap64_bounds a b) as [H0 H1]
  end.
  apply (scaled_sub_score 15); try assumption; [lia | reflexivity | reflexivity].
Qed.

Lemma calculateAvailabilityScore_sub_score
    (project : Project) (researcher : ResearcherProfile) :
  sub_score 10 (calculateAvailabilityScore project researcher).
Proof.
  unfold calculateAvailabilityScore. cbv zeta.
  destruct (_ <? _)%Z;
    destruct (start_date project) as [ps|];
    destruct (available_start_date researcher) as [ra|];
    try destruct (ra <=? ps)%Z; now apply sub_score_const.
Qed.

Lemma calculateExperienceScore_sub_score (projectsCompleted : option Z) :
  sub_score 10 (calculateExperienceScore projectsCompleted).
Proof.
  unfold calculateExperienceScore. cbv zeta.
  repeat (match goal with |- context [if ?c then _ else _] => destruct c end);
    now apply sub_score_const.
Qed.

Lemma tenth_plus (x y : Q) :
  (∃ k : Z, x == k # 10) → (∃ k : Z, y == k # 10) → ∃ k : Z, x + y == k # 10.
Proof.
  intros [k Hk] [k' Hk']. exists (k + k')%Z. rewrite Hk, Hk'.
  unfold Qeq, Qplus; simpl. lia.
Qed.

Lemma round_tenth_id (x : Q) : (∃ k : Z, x == k # 10) → round_tenth x == x.
Proof.
  intros [k Hk]. unfold round_tenth.
  assert (E : x * 10 == inject_Z k).
  { rewrite Hk. unfold Qeq, Qmult, inject_Z; simpl. lia. }
  fold (JS.Math_round_int (x * 10)).
  rewrite (Math_round_int_comp _ _ E), Math_round_int_Z, Hk.
  unfold Qeq, Qdiv, Qmult, Qinv, inject_Z; simpl. lia.
Qed.

End Aggregator.

(** ** Decimals against doubles *)

Section Decimals.

Lemma Math_round_int_near (x : Q) (K : Z) :
  inject_Z K - (1 # 2) <= x → x < inject_Z K + (1 # 2) → JS.Math_round_int x = K.
Proof.
  intros Hlo Hhi. unfold JS.Math_round_int.
  assert (H1 : (K <= Qfloor (x + (1 # 2)))%Z).
  { rewrite <- (Qfloor_Z K) at 1. apply Qfloor_resp_le. lra. }
  assert (H2 : (Qfloor (x + (1 # 2)) < K + 1)%Z).
  { rewrite Zlt_Qlt. pose proof (Qfloor_le (x + (1 # 2))).
    rewrite inject_Z_plus. change (inject_Z 1) with 1. lra. }
  lia.
Qed.

(** Adding up six sub-scores in double precision and rounding the total to
    one decimal gives the sum of the decimals. *)
Lemma totalScore64_exact (b : Breakdown.t) :
  sub_score 30 (Breakdown.expertise b) → sub_score 25 (Breakdown.methods b) →
  sub_score 15 (Breakdown.budget b) → sub_score 10 (Breakdown.availability b) →
  sub_score 10 (Breakdown.experience b) → sub_score 10 (Breakdown.domain b) →
  totalScore64 b == JS.Math_round (foldl Qplus 0 (Breakdown.values b) * 10) / 10.
Proof.
  intros [[k1 E1] [L1 U1]] [[k2 E2] [L2 U2]] [[k3 E3] [L3 U3]]
         [[k4 E4] [L4 U4]] [[k5 E5] [L5 U5]] [[k6 E6] [L6 U6]].
  unfold totalScore64, Breakdown.values. cbn [foldl]. unfold Double.add, Double.mul.
  change (inject_Z 30) with 30 in U1. change (inject_Z 25) with 25 in U2.
  change (inject_Z 15) with 15 in U3. change (inject_Z 10) with 10 in U4, U5, U6.
  set (v1 := Breakdown.expertise b) in *. set (v2 := Breakdown.methods b) in *.
  set (v3 := Breakdown.budget b) in *. set (v4 := Breakdown.availability b) in *.
  set (v5 := Breakdown.experience b) in *. set (v6 := Breakdown.domain b) in *.
  set (K := (k1 + k2 + k3 + k4 + k5 + k6)%Z).
  assert (EK : (0 + v1 + v2 + v3 + v4 + v5 + v6) * 10 == inject_Z K).
  { rewrite E1, E2, E3, E4, E5, E6. unfold K.
    unfold Qeq, Qplus, Qmult, inject_Z; simpl. lia. }
  unfold JS.Math_round.
  rewrite (Math_round_int_comp _ _ EK), Math_round_int_Z.
  destruct (of_Q_error v1 L1) as [A1 B1]. pose proof (of_Q_nonneg v1 L1) as N1.
  destruct (of_Q_error v2 L2) as [A2 B2]. pose proof (of_Q_nonneg v2 L2) as N2.
  destruct (of_Q_error v3 L3) as [A3 B3]. pose proof (of_Q_nonneg v3 L3) as N3.
  destruct (of_Q_error v4 L4) as [A4 B4]. pose proof (of_Q_nonneg v4 L4) as N4.
  destruct (of_Q_error v5 L5) as [A5 B5]. pose proof (of_Q_nonneg v5 L5) as N5.
  destruct (of_Q_error v6 L6) as [A6 B6]. pose proof (of_Q_nonneg v6 L6) as N6.
  set (d1 := Double.of_Q v1) in *. set (d2 := Double.of_Q v2) in *.
  set (d3 := Double.of_Q v3) in *. set (d4 := Double.of_Q v4) in *.
  set (d5 := Double.of_Q v5) in *. set (d6 := Double.of_Q v6) in *.
  assert (P1 : 0 <= 0 + d1) by lra.
  destruct (of_Q_error _ P1) as [SA1 SB1]. pose proof (of_Q_nonneg _ P1) as SN1.
  set (s1 := Double.of_Q (0 + d1)) in *.
  assert (P2 : 0 <= s1 + d2) by lra.
  destruct (of_Q_error _ P2) as [SA2 SB2]. pose proof (of_Q_nonneg _ P2) as SN2.
  set (s2 := Double.of_Q (s1 + d2)) in *.
  assert (P3 : 0 <= s2 + d3) by lra.
  destruct (of_Q_error _ P3) as [SA3 SB3]. pose proof (of_Q_nonneg _ P3) as SN3.
  set (s3 := Double.of_Q (s2 + d3)) in *.
  assert (P4 : 0 <= s3 + d4) by lra.
  destruct (of_Q_error _ P4) as [SA4 SB4]. pose proof (of_Q_nonneg _ P4) as SN4.
  set (s4 := Double.of_Q (s3 + d4)) in *.
  assert (P5 : 0 <= s4 + d5) by lra.
  destruct (of_Q_error _ P5) as [SA5 SB5]. pose proof (of_Q_nonneg _ P5) as SN5.
  set (s5 := Double.of_Q (s4 + d5)) in *.
  assert (P6 : 0 <= s5 + d6) by lra.
  destruct (of_Q_error _ P6) as [SA6 SB6]. pose proof (of_Q_nonneg _ P6) as SN6.
  set (s6 := Double.of_Q (s5 + d6)) in *.
  assert (P7 : 0 <= s6 * 10) by lra.
  destruct (of_Q_error _ P7) as [TA TB].
  set (t := Double.of_Q (s6 * 10)) in *.
  unfold Double.unit_roundoff in *.
  rewrite (Math_round_int_near t K); [reflexivity | lra | lra].
Qed.

Lemma forallb_Z_range (P : Z → bool) (n : nat) :
  forallb P (map Z.of_nat (seq 0 (S n))) = true →
  ∀ k : Z, (0 <= k <= Z.of_nat n)%Z → P k = true.
Proof.
  intros H k Hk. rewrite forallb_forall in H. apply H.
  apply in_map_iff. exists (Z.to_nat k). split; [lia|]. apply in_seq. lia.
Qed.

(** The percentage of a sub-score, formed in double precision, is the
    percentage formed over the decimals: [score / max * 100] stays clear of
    the half-integers. *)
Lemma percentage64_exact (max : Z) (score : Q) :
  max ∈ [30; 25; 15; 10]%Z → sub_score max score →
  percentage64 score (inject_Z max) == JS.Math_round (score / inject_Z max * 100).
Proof.
  intros Hmax [[k Ek] [L U]].
  assert (Hk : (0 <= k <= 10 * max)%Z).
  { rewrite Ek in L, U. unfold Qle, inject_Z in L, U; simpl in L, U. lia. }
  assert (E64 : percentage64 score (inject_Z max) == percentage64 (k # 10) (inject_Z max)).
  { unfold percentage64, JS.Math_round, Double.mul, Double.div.
    rewrite (Math_round_int_comp
               (Double.of_Q (Double.of_Q (Double.of_Q score / inject_Z max) * 100))
               (Double.of_Q (Double.of_Q (Double.of_Q (k # 10) / inject_Z max) * 100)));
      [reflexivity|].
    now rewrite Ek. }
  assert (Eex : JS.Math_round (score / inject_Z max * 100)
                == JS.Math_round ((k # 10) / inject_Z max * 100)).
  { unfold JS.Math_round.
    rewrite (Math_round_int_comp (score / inject_Z max * 100)
                                 ((k # 10) / inject_Z max * 100)); [reflexivity|].
    now rewrite Ek. }
  rewrite E64, Eex. unfold percentage64, JS.Math_round.
  set (P := λ (m j : Z),
         (JS.Math_round_int (Double.mul (Double.div (Double.of_Q (j # 10)) (inject_Z m)) 100)
          =? JS.Math_round_int ((j # 10) / inject_Z m * 100))%Z).
  assert (HP : P max k = true).
  { rewrite !elem_of_cons, elem_of_nil in Hmax.
    destruct Hmax as [-> | [-> | [-> | [-> | []]]]].
    - apply (forallb_Z_range (P 30%Z) 300); [vm_compute; reflexivity | lia].
    - apply (forallb_Z_range (P 25%Z) 250); [vm_compute; reflexivity | lia].
    - apply (forallb_Z_range (P 15%Z) 150); [vm_compute; reflexivity | lia].
    - apply (forallb_Z_range (P 10%Z) 100); [vm_compute; reflexivity | lia]. }
  unfold P in HP. apply Z.eqb_eq in HP. rewrite HP. reflexivity.
Qed.

(** Scores with one decimal are ordered as their doubles are. *)
Lemma tenths_order64 (x y : Q) :
  (∃ k : Z, x == k # 10) → (∃ k : Z, y == k # 10) →
  0 <= x <= 100 → 0 <= y <= 100 →
  (x <= y ↔ Double.of_Q x <= Double.of_Q y).
Proof.
  intros [k Ek] [j Ej] [Lx Ux] [Ly Uy]. split; [apply of_Q_mono|].
  intros H. apply Qnot_lt_le. intros Hlt.
  assert (Hstep : y + (1 # 10) <= x).
  { rewrite Ek, Ej in *. unfold Qlt, Qle, Qplus in *; simpl in *. lia. }
  destruct (of_Q_error x Lx) as [A _]. destruct (of_Q_error y Ly) as [_ B].
  unfold Double.unit_roundoff in *. lra.
Qed.

End Decimals.

(** The total that [calculateMatchScore] returns is the total formed and
    rounded in double precision. *)
Lemma calculateMatchScore_total64 (project : ProjectData) (researcher : ResearcherProfile) :
  Match.totalScore (calculateMatchScore project researcher)
  == totalScore64 (Match.breakdown (calculateMatchScore project researcher)).
Proof.
  symmetry. unfold calculateMatchScore. cbv zeta. cbn [Match.totalScore Match.breakdown].
  apply totalScore64_exact; cbn [Breakdown.expertise Breakdown.methods Breakdown.budget
                                 Breakdown.availability Breakdown.experience
                                 Breakdown.domain].
  - apply calculateExpertiseScore_sub_score.
  - apply calculateMethodsScore_sub_score.
  - apply calculateBudgetScore_sub_score.
  - apply calculateAvailabilityScore_sub_score.
  - apply calculateExperienceScore_sub_score.
  - apply calculateDomainScore_sub_score.
Qed.

(** So are the percentages that [explainMatch] reports. *)
Lemma calculateMatchScore_percentage64
    (project : ProjectData) (researcher : ResearcherProfile) :
  let b := Match.breakdown (calculateMatchScore project researcher) in
  JS.Math_round (Breakdown.expertise b / 30 * 100) == percentage64 (Breakdown.expertise b) 30
  ∧ JS.Math_round (Breakdown.methods b / 25 * 100) == percentage64 (Breakdown.methods b) 25
  ∧ JS.Math_round (Breakdown.budget b / 15 * 100) == percentage64 (Breakdown.budget b) 15
  ∧ JS.Math_round (Breakdown.availability b / 10 * 100)
    == percentage64 (Breakdown.availability b) 10
  ∧ JS.Math_round (Breakdown.experience b / 10 * 100)
    == percentage64 (Breakdown.experience b) 10
  ∧ JS.Math_round (Breakdown.domain b / 10 * 100) == percentage64 (Breakdown.domain b) 10.
Proof.
  cbv zeta. unfold calculateMatchScore. cbv zeta.
  cbn [Match.breakdown Breakdown.expertise Breakdown.methods Breakdown.budget
       Breakdown.availability Breakdown.experience Breakdown.domain].
  split; [|split; [|split; [|split; [|split]]]]; symmetry.
  - apply (percentage64_exact 30); [set_solver | apply calculateExpertiseScore_sub_score].
  - apply (percentage64_exact 25); [set_solver | apply calculateMethodsScore_sub_score].
  - apply (percentage64_exact 15); [set_solver | apply calculateBudgetScore_sub_score].
  - apply (percentage64_exact 10); [set_solver | apply calculateAvailabilityScore_sub_score].
  - apply (percentage64_exact 10); [set_solver | apply calculateExperienceScore_sub_score].
  - apply (percentage64_exact 10); [set_solver | apply calculateDomainScore_sub_score].
Qed.

(** C1: [calculateMatchScore] returns a match whose [totalScore] is the plain
    sum of the six sub-scores rounded to one decimal place (the rounding
    changes nothing, the sub-scores being tenths already); each sub-score is
    a tenth within [0, max] for the maxima 30/25/15/10/10/10; and the total
    lies in [0, 100]. *)
Theorem calculateMatchScore_bounds (project : ProjectData) (researcher : ResearcherProfile) :
  let m := calculateMatchScore project researcher in
  let b := Match.breakdown m in
  let sum := Breakdown.expertise b + Breakdown.methods b + Breakdown.budget b
             + Breakdown.availability b + Breakdown.experience b + Breakdown.domain b in
  rounded_to_tenth sum (Match.totalScore m)
  ∧ Match.totalScore m == sum
  ∧ sub_score 30 (Breakdown.expertise b)
  ∧ sub_score 25 (Breakdown.methods b)
  ∧ sub_score 15 (Breakdown.budget b)
  ∧ sub_score 10 (Breakdown.availability b)
  ∧ sub_score 10 (Breakdown.experience b)
  ∧ sub_score 10 (Breakdown.domain b)
  ∧ 0 <= Match.totalScore m <= 100.
Proof.
  cbv zeta. unfold calculateMatchScore. cbv zeta. simpl.
  match goal with
  | |- context [calculateExpertiseScore ?a ?b] =>
      pose proof (calculateExpertiseScore_sub_score a b) as [Ke [E0 E1]];
      set (e := calculateExpertiseScore a b) in *
  end.
  pose proof (calculateMethodsScore_sub_score
                (methods_required project) (methods researcher)) as [Km [M0 M1]].
  set (me := calculateMethodsScore _ _) in *.
  pose proof (calculateBudgetScore_sub_score project researcher) as [Kb [B0 B1]].
  set (bu := calculateBudgetScore _ _) in *.
  pose proof (calculateAvailabilityScore_sub_score project researcher) as [Ka [A0 A1]].
  set (av := calculateAvailabilityScore _ _) in *.
  pose proof (calculateExperienceScore_sub_score
                (projects_completed researcher)) as [Kx [X0 X1]].
  set (ex := calculateExperienceScore _) in *.
  pose proof (calculateDomainScore_sub_score
                (organization project ≫= focus_areas) (domains researcher))
    as [Kd [D0 D1]].
  set (d := calculateDomainScore _ _) in *.
  change (inject_Z 30) with 30 in *. change (inject_Z 25) with 25 in *.
  change (inject_Z 15) with 15 in *. change (inject_Z 10) with 10 in *.
  assert (Ksum : ∃ k : Z, 0 + e + me + bu + av + ex + d == k # 10).
  { repeat apply tenth_plus; try assumption. exists 0%Z. reflexivity. }
  pose proof (round_tenth_id _ Ksum) as Hid. unfold round_tenth in Hid.
  fold (JS.Math_round_int ((0 + e + me + bu + av + ex + d) * 10)) in Hid.
  fold (JS.Math_round ((0 + e + me + bu + av + ex + d) * 10)) in Hid.
  assert (Htot : JS.Math_round ((0 + e + me + bu + av + ex + d) * 10) / 10
                 == e + me + bu + av + ex + d).
  { rewrite Hid. ring. }
  split; [|split; [exact Htot|]].
  - destruct Ksum as [k Hk]. exists k. rewrite Htot.
    split; [rewrite <- Hk; ring | split; lra].
  - repeat (split; [split; [assumption | split; assumption]|]).
    rewrite Htot. split; lra.
Qed.

(** ** Sorting and pagination *)

Section Ranking.

Context {A : Type} (key : A → Q).

Let cmp (a b : A) : Q := key b - key a.
Let R (a b : A) : Prop := key b <= key a.

Lemma sort_insert_perm (x : A) (l : list A) : JS.sort_insert cmp x l ≡ₚ x :: l.
Proof.
  induction l as [|y l IH]; simpl; [reflexivity|].
  destruct (Qle_bool (cmp x y) 0); [reflexivity|].
  rewrite IH. apply Permutation_swap.
Qed.

Lemma sort_perm (l : list A) : JS.sort cmp l ≡ₚ l.
Proof.
  induction l as [|x l IH]; simpl; [reflexivity|].
  rewrite sort_insert_perm. now rewrite IH.
Qed.

Lemma sort_insert_sorted (x : A) (l : list A) :
  StronglySorted R l → StronglySorted R (JS.sort_insert cmp x l).
Proof.
  induction 1 as [|y l Hl IH Hy]; simpl.
  - repeat constructor.
  - destruct (Qle_bool (cmp x y) 0) eqn:E.
    + apply Qle_bool_iff in E. unfold cmp in E.
      constructor; [now constructor|].
      constructor; [unfold R; lra|].
      eapply Forall_impl; [exact Hy|]. unfold R. intros z Hz. simpl in Hz. lra.
    + assert (Hlt : key x < key y).
      { apply Qnot_le_lt. intros Hc. unfold cmp in E.
        assert (Qle_bool (key y - key x) 0 = true) by (apply Qle_bool_iff; lra).
        congruence. }
      constructor; [exact IH|].
      rewrite sort_insert_perm. constructor; [unfold R; lra | exact Hy].
Qed.

Lemma sort_sorted (l : list A) : StronglySorted R (JS.sort cmp l).
Proof.
  induction l as [|x l IH]; simpl; [constructor | now apply sort_insert_sorted].
Qed.

(** Insertion never moves an entry past one of equal score. *)
Lemma sort_insert_stable (s : Q) (x : A) (l : list A) :
  filter (λ a, key a == s) (JS.sort_insert cmp x l)
  = filter (λ a, key a == s) (x :: l).
Proof.
  induction l as [|y l IH]; simpl; [reflexivity|].
  destruct (Qle_bool (cmp x y) 0) eqn:E; [reflexivity|].
  assert (Hne : ¬ key x == key y).
  { intros Hc. unfold cmp in E.
    assert (Qle_bool (key y - key x) 0 = true) by (apply Qle_bool_iff; lra).
    congruence. }
  rewrite (filter_cons _ y), IH, !filter_cons.
  destruct (decide (key x == s)) as [Hx | Hx];
    destruct (decide (key y == s)) as [Hy | Hy]; try reflexivity.
  exfalso. apply Hne. now rewrite Hx, Hy.
Qed.

Lemma sort_stable (s : Q) (l : list A) :
  filter (λ a, key a == s) (JS.sort cmp l) = filter (λ a, key a == s) l.
Proof.
  induction l as [|x l IH]; simpl; [reflexivity|].
  rewrite sort_insert_stable, !filter_cons, IH. reflexivity.
Qed.

(** With a non-negative start and length, [slice] is the plain window. *)
Lemma slice_window (l : list A) (offset limit : Z) :
  (0 <= offset)%Z → (0 <= limit)%Z →
  JS.slice l offset (offset + limit)
  = take (Z.to_nat limit) (drop (Z.to_nat offset) l).
Proof.
  intros Ho Hl. unfold JS.slice, JS.slice_index. cbv zeta.
  destruct (Z.ltb_spec offset 0); [lia|].
  destruct (Z.ltb_spec (offset + limit) 0); [lia|].
  destruct (Z_le_gt_dec (Z.of_nat (length l)) offset) as [Hge | Hlt].
  - rewrite (Z.min_r offset) by lia.
    rewrite (drop_ge l (Z.to_nat (Z.of_nat (length l)))) by lia.
    rewrite (drop_ge l (Z.to_nat offset)) by lia.
    now rewrite !take_nil.
  - rewrite (Z.min_l offset) by lia.
    destruct (Z_le_gt_dec (offset + limit) (Z.of_nat (length l))) as [Hin | Hout].
    + rewrite Z.min_l by lia. f_equal. lia.
    + rewrite Z.min_r by lia.
      rewrite !take_ge; [reflexivity | rewrite length_drop; lia..].
Qed.

End Ranking.

(** ** Finders *)

Section Finders.

Context {S : Type}.

Lemma filter_minScore (minScore : Q) (candidates : list (MatchEntry S)) :
  filter (λ match_, Qle_bool minScore (matchScore match_)) candidates
  = filter (λ m, minScore <= matchScore m) candidates.
Proof.
  apply list_filter_iff. intros m.
  rewrite Is_true_true. apply Qle_bool_iff.
Qed.

Lemma filter_all_below (minScore : Q) (candidates : list (MatchEntry S)) :
  Forall (λ m, matchScore m < minScore) candidates →
  filter (λ m, minScore <= matchScore m) candidates = [].
Proof.
  induction 1 as [|m l Hm _ IH]; [reflexivity|].
  rewrite filter_cons_False; [exact IH|]. now apply Qlt_not_le.
Qed.

Lemma filterSortPaginate_ranked_page
    (candidates : list (MatchEntry S)) (options : Options) :
  (0 <= opt_offset options)%Z → (0 <= opt_limit options)%Z →
  ranked_page candidates options (inr (filterSortPaginate candidates options)).
Proof.
  intros Ho Hl. unfold ranked_page, filterSortPaginate. cbv zeta.
  rewrite filter_minScore.
  set (kept := filter (λ m, opt_minScore options <= matchScore m) candidates).
  set (ranked := JS.sort (λ a b, matchScore b - matchScore a) kept).
  assert (Hperm : ranked ≡ₚ kept) by apply (sort_perm matchScore).
  assert (Hlen : length ranked = length kept) by now rewrite Hperm.
  eexists _, ranked. split; [reflexivity|]. simpl.
  split; [exact Hperm|].
  split; [apply (sort_sorted matchScore)|].
  split; [intros s; apply (sort_stable matchScore)|].
  split; [now apply slice_window|].
  split; [now rewrite Hlen|].
  split; [reflexivity|]. split; [reflexivity|].
  split; [rewrite Hlen; apply Z.ltb_lt|].
  intros Hall. pose proof (filter_all_below _ _ Hall) as Hnil.
  fold kept in Hnil. unfold ranked. rewrite Hnil. simpl.
  unfold JS.slice. simpl. now rewrite drop_nil, take_nil.
Qed.

(** The options the controllers pass on are always in range. *)
Lemma validatedOptions_range (query : MatchQuery) :
  (1 <= opt_limit (validatedOptions query) <= 100)%Z
  ∧ (0 <= opt_offset (validatedOptions query))%Z
  ∧ 0 <= opt_minScore (validatedOptions query) <= 100.
Proof.
  unfold validatedOptions; simpl. split; [lia|]. split; [lia|].
  unfold JS.Math_max, JS.Math_min. split.
  - apply Q.le_max_r.
  - apply Q.max_lub; [apply Q.le_min_r | lra].
Qed.

Lemma validated_ranked_page
    (candidates : list (MatchEntry S)) (query : MatchQuery) :
  ranked_page candidates (validatedOptions query)
              (inr (filterSortPaginate candidates (validatedOptions query))).
Proof.
  pose proof (validatedOptions_range query) as [Hl [Ho _]].
  apply filterSortPaginate_ranked_page; lia.
Qed.

End Finders.

(** C2 (as amended): for every candidate pool and every options value with a
    non-negative offset and limit, both finders drop the matches scoring
    below [minScore], order the rest by descending score with ties in fetch
    order, and return the window [offset, offset+limit) of that ranking;
    [pagination.total] is the number of matches kept by the filter,
    [hasMore] holds exactly when [offset + limit] is below it, and when every
    candidate scores below [minScore] the page is empty with a total of 0.
    The researcher-side finder does so with the values it is given, and with
    20, 0 and 50 for a limit, offset or minimum score it is not given. *)
Theorem finders_filter_sort_paginate
    (db : Database) (projectId researcherId limit offset : Z) (minScore : Q) :
  (0 <= offset)%Z → (0 <= limit)%Z →
  (∀ project, Project_findByPk db projectId = Some project →
     ranked_page (scoreResearchers db project) (mkOptions limit offset minScore)
       (findMatchesForProject db projectId (mkOptions limit offset minScore)))
  ∧ (∀ researcher, ResearcherProfile_findOne db researcherId = Some researcher →
     ranked_page (scoreProjects db researcher) (mkOptions limit offset minScore)
       (findMatchesForResearcher db researcherId
          (mkPartialOptions (Some limit) (Some offset) (Some minScore)))
     ∧ ranked_page (scoreProjects db researcher) (mkOptions limit 0 50)
         (findMatchesForResearcher db researcherId
            (mkPartialOptions (Some limit) None None))
     ∧ ranked_page (scoreProjects db researcher) (mkOptions 20 offset minScore)
         (findMatchesForResearcher db researcherId
            (mkPartialOptions None (Some offset) (Some minScore)))).
Proof.
  intros Ho Hl. split.
  - intros project Hp. unfold findMatchesForProject. rewrite Hp.
    now apply filterSortPaginate_ranked_page.
  - intros researcher Hr. unfold findMatchesForResearcher. rewrite Hr.
    split; [|split]; apply filterSortPaginate_ranked_page; simpl; lia.
Qed.

Lemma finders_filter_sort_paginate_witness :
  ((0 <= 1)%Z ∧ (0 <= 1)%Z)
  ∧ (∀ project, Project_findByPk db_fixture 1 = Some project →
       ranked_page (scoreResearchers db_fixture project) (mkOptions 1 1 30)
         (findMatchesForProject db_fixture 1 (mkOptions 1 1 30)))
  ∧ (∀ researcher, ResearcherProfile_findOne db_fixture 7 = Some researcher →
       ranked_page (scoreProjects db_fixture researcher) (mkOptions 1 1 30)
         (findMatchesForResearcher db_fixture 7
            (mkPartialOptions (Some 1%Z) (Some 1%Z) (Some 30)))
       ∧ ranked_page (scoreProjects db_fixture researcher) (mkOptions 1 0 50)
           (findMatchesForResearcher db_fixture 7
              (mkPartialOptions (Some 1%Z) None None))
       ∧ ranked_page (scoreProjects db_fixture researcher) (mkOptions 20 1 30)
           (findMatchesForResearcher db_fixture 7
              (mkPartialOptions None (Some 1%Z) (Some 30)))).
Proof.
  split; [split; lia|].
  apply (finders_filter_sort_paginate db_fixture 1 7 1 1 30); lia.
Defined.

(** C2 (as stated) fails for a negative offset, which
    [Array.prototype.slice] counts from the end of the ranked list.  Project 1
    of the fixture has two matches; with offset -1 and limit 20 the window
    [-1, 19) takes in both, and the finder returns the last one alone, with
    a total of 2. *)
Lemma findMatchesForProject_negative_offset_counterexample :
  let options := mkOptions 20 (-1) 0 in
  let project := project_fixture (Some 5000) (Some 10000) (Some 100%Z) in
  Project_findByPk db_fixture 1 = Some project
  ∧ (∃ result, findMatchesForProject db_fixture 1 options = inr result
               ∧ map (λ m, rs_user_id (subject m)) (matches result) = [7%Z]
               ∧ total (pagination result) = 2%Z)
  ∧ ¬ ranked_page (scoreResearchers db_fixture project) options
        (findMatchesForProject db_fixture 1 options).
Proof.
  cbv zeta. split; [reflexivity|]. split.
  - eexists. split; [reflexivity|]. split; vm_compute; reflexivity.
  - intros (result & ranked & Hres & Hperm & _ & _ & Hm & _).
    assert (L1 : match findMatchesForProject db_fixture 1 (mkOptions 20 (-1) 0) with
                 | inr r => length (matches r)
                 | inl _ => 0%nat
                 end = 1%nat) by (vm_compute; reflexivity).
    rewrite Hres in L1.
    assert (L2 : length (filter (λ m, opt_minScore (mkOptions 20 (-1) 0) <= matchScore m)
                           (scoreResearchers db_fixture
                              (project_fixture (Some 5000) (Some 10000) (Some 100%Z))))
                 = 2%nat) by (vm_compute; reflexivity).
    apply Permutation_length in Hperm. rewrite L2 in Hperm.
    apply (f_equal length) in Hm. rewrite length_take, length_drop in Hm.
    rewrite L1, Hperm in Hm. simpl in Hm. lia.
Qed.

(** ** Explain handler *)

Section Explain.

Lemma factor_reports_round (max score : Q) (explanation : string) :
  factor_reports max score
    (Factor.mk score max (JS.Math_round (score / max * 100)) explanation).
Proof.
  split; [reflexivity|]. split; [reflexivity|].
  exists (JS.Math_round_int (score / max * 100)). split; [reflexivity|].
  split; [apply Math_round_gt | apply Math_round_le].
Qed.

End Explain.

(** C8: when both records exist, the explain operation answers with the
    [totalScore] of [calculateMatchScore] on the same project and researcher,
    and each of the six factors reports its sub-score, its maximum
    (30/25/15/10/10/10) and the percentage [round(score / max * 100)]. *)
Theorem explainMatch_agrees
    (db : Database) (req : ExplainRequest) (projectId researcherId : Z) (user : User)
    (project : ProjectData) (researcher : ResearcherProfile) :
  q_projectId req = Some projectId → q_researcherId req = Some researcherId →
  req_user req = Some user →
  Project_findByPk_include db projectId = Some project →
  ResearcherProfile_findOne db researcherId = Some researcher →
  let scoreData := calculateMatchScore project researcher in
  let b := Match.breakdown scoreData in
  ∃ body,
    explainMatch db req = Success body
    ∧ eb_totalScore body = Match.totalScore scoreData
    ∧ factor_reports 30 (Breakdown.expertise b) (Detailed.expertise (eb_breakdown body))
    ∧ factor_reports 25 (Breakdown.methods b) (Detailed.methods (eb_breakdown body))
    ∧ factor_reports 15 (Breakdown.budget b) (Detailed.budget (eb_breakdown body))
    ∧ factor_reports 10 (Breakdown.availability b)
                     (Detailed.availability (eb_breakdown body))
    ∧ factor_reports 10 (Breakdown.experience b)
                     (Detailed.experience (eb_breakdown body))
    ∧ factor_reports 10 (Breakdown.domain b) (Detailed.domain (eb_breakdown body)).
Proof.
  intros Hp Hr Hu Hproject Hresearcher. cbv zeta.
  unfold explainMatch. rewrite Hp, Hr, Hu, Hproject, Hresearcher. cbv zeta.
  eexists. split; [reflexivity|]. simpl.
  split; [reflexivity|].
  repeat split; try reflexivity; eexists; (split; [reflexivity|]);
    (split; [apply Math_round_gt | apply Math_round_le]).
Qed.

Lemma explainMatch_agrees_witness :
  let project :=
    mkProjectData (project_fixture (Some 5000) (Some 10000) (Some 100%Z))
      (Some (mkOrganization 1 (Some "Health Trust"%string)
                            (Some "health, education"%string))) in
  let researcher := researcher_fixture (Some 50) (Some 100) None None in
  let scoreData := calculateMatchScore project researcher in
  let b := Match.breakdown scoreData in
  ∃ body,
    explainMatch db_fixture
      (mkExplainRequest (Some 1%Z) (Some 7%Z)
                        (Some (mkUser 7 (Some "Ada"%string) None "active" None)))
    = Success body
    ∧ eb_totalScore body = Match.totalScore scoreData
    ∧ factor_reports 30 (Breakdown.expertise b) (Detailed.expertise (eb_breakdown body))
    ∧ factor_reports 25 (Breakdown.methods b) (Detailed.methods (eb_breakdown body))
    ∧ factor_reports 15 (Breakdown.budget b) (Detailed.budget (eb_breakdown body))
    ∧ factor_reports 10 (Breakdown.availability b)
                     (Detailed.availability (eb_breakdown body))
    ∧ factor_reports 10 (Breakdown.experience b)
                     (Detailed.experience (eb_breakdown body))
    ∧ factor_reports 10 (Breakdown.domain b) (Detailed.domain (eb_breakdown body)).
Proof.
  apply (explainMatch_agrees db_fixture
           (mkExplainRequest (Some 1%Z) (Some 7%Z)
                             (Some (mkUser 7 (Some "Ada"%string) None "active" None)))
           1 7 (mkUser 7 (Some "Ada"%string) None "active" None));
    reflexivity.
Defined.

(** ** Missing records *)

Section NotFound.

Lemma find_none_Forall {A} (f : A → bool) (l : list A) :
  Forall (λ x, f x = false) l → List.find f l = None.
Proof.
  induction 1 as [|x l Hx _ IH]; simpl; [reflexivity|]. now rewrite Hx.
Qed.

Lemma Project_findByPk_missing (db : Database) (projectId : Z) :
  Forall (λ p, project_id p ≠ projectId) (projects db) →
  Project_findByPk db projectId = None.
Proof.
  intros H. apply find_none_Forall.
  eapply Forall_impl; [exact H|]. intros p Hp. now apply Z.eqb_neq.
Qed.

Lemma ResearcherProfile_findOne_missing (db : Database) (researcherId : Z) :
  Forall (λ r, user_id r ≠ researcherId) (researcher_profiles db) →
  ResearcherProfile_findOne db researcherId = None.
Proof.
  intros H. apply find_none_Forall.
  eapply Forall_impl; [exact H|]. intros r Hr. now apply Z.eqb_neq.
Qed.

End NotFound.

(** C9: [findMatchesForProject] on an id no project has, and
    [findMatchesForResearcher] on an id no researcher profile has, fail with
    the not-found error and return no match list, partial or otherwise. *)
Theorem finders_not_found
    (db : Database) (projectId researcherId : Z)
    (options : Options) (partial : PartialOptions) :
  Forall (λ p, project_id p ≠ projectId) (projects db) →
  Forall (λ r, user_id r ≠ researcherId) (researcher_profiles db) →
  findMatchesForProject db projectId options = inl (Error "Project not found")
  ∧ fails_not_found (findMatchesForProject db projectId options)
  ∧ findMatchesForResearcher db researcherId partial
    = inl (Error "Researcher profile not found")
  ∧ fails_not_found (findMatchesForResearcher db researcherId partial).
Proof.
  intros Hp Hr.
  unfold findMatchesForProject, findMatchesForResearcher, fails_not_found, NotFoundError.
  rewrite (Project_findByPk_missing _ _ Hp), (ResearcherProfile_findOne_missing _ _ Hr).
  unfold NotFoundError. repeat split; eauto; discriminate.
Qed.

Lemma finders_not_found_witness :
  findMatchesForProject db_fixture 99 (mkOptions 20 0 50)
  = inl (Error "Project not found")
  ∧ fails_not_found (findMatchesForProject db_fixture 99 (mkOptions 20 0 50))
  ∧ findMatchesForResearcher db_fixture 99 (mkPartialOptions None None None)
    = inl (Error "Researcher profile not found")
  ∧ fails_not_found
      (findMatchesForResearcher db_fixture 99 (mkPartialOptions None None None)).
Proof.
  apply (finders_not_found db_fixture 99 99 (mkOptions 20 0 50)
           (mkPartialOptions None None None));
    simpl; repeat constructor; simpl; lia.
Defined.

(** ** Summary path against detailed path *)

Section Paths.

(** The project the explain handler scores is the one the project-side
    finder scores, as long as the project does not point at organization 0
    (which the finder's truthiness test on [org_id] would skip). *)
Lemma include_is_finder_project (db : Database) (projectId : Z) (project : ProjectData) :
  Project_findByPk_include db projectId = Some project →
  org_id project ≠ Some 0%Z →
  Project_findByPk db projectId = Some (project_row project)
  ∧ project
    = mkProjectData project
        (if JS.id_truthy (org_id project)
         then org_id project ≫= Organization_findByPk db else None).
Proof.
  unfold Project_findByPk_include. intros H Hne.
  destruct (Project_findByPk db projectId) as [p|]; simpl in H; [|discriminate].
  injection H as <-. simpl in *. split; [reflexivity|]. f_equal.
  destruct (org_id p) as [i|]; simpl; [|reflexivity].
  destruct (Z.eqb_spec i 0); [congruence | reflexivity].
Qed.

(** Every entry of the project-side pool carries the total that
    [calculateMatchScore] gives for its researcher. *)
Lemma scoreResearchers_scores (db : Database) (projectId : Z) (project : ProjectData) :
  Project_findByPk_include db projectId = Some project →
  org_id project ≠ Some 0%Z →
  Forall (λ m, ∃ researcher,
              researcher ∈ researcher_profiles db
              ∧ user_id researcher = rs_user_id (subject m)
              ∧ matchScore m = Match.totalScore (calculateMatchScore project researcher))
         (scoreResearchers db project).
Proof.
  intros H Hne. destruct (include_is_finder_project _ _ _ H Hne) as [_ E].
  apply Forall_forall. intros m Hm. unfold scoreResearchers in Hm. cbv zeta in Hm.
  apply list_elem_of_omap in Hm as (researcher & Hin & Hsome).
  exists researcher. split; [exact Hin|].
  destruct (_ !! user_id researcher) as [user|]; simpl in Hsome; [|discriminate].
  injection Hsome as <-. cbn [matchScore subject rs_user_id].
  split; [reflexivity|].
  pose proof (f_equal organization E) as Eorg. simpl in Eorg.
  rewrite <- Eorg. reflexivity.
Qed.

End Paths.

(** ** The engine on the fixtures *)

Example parse_example :
  parseCommaSeparated (Some " Survey, interview ,,X"%string)
  = ["survey"; "interview"; "x"]%string.
Proof. vm_compute. reflexivity. Qed.

Example experience_seven : calculateExperienceScore (Some 7%Z) == 7.
Proof. vm_compute. reflexivity. Qed.

(** At capacity, the capacity half of the availability score is lost. *)
Example availability_at_capacity :
  calculateAvailabilityScore
    (project_fixture None None None)
    (mkResearcherProfile 9 None None None None None None None None None
                         (Some 0%Z) None None None None None
                         (Some 3%Z) (Some 3%Z) None) == 5.
Proof. vm_compute. reflexivity. Qed.

Example project_side_ranking :
  match findMatchesForProject db_fixture 1 (mkOptions 20 0 50) with
  | inr result =>
      map (λ m, (rs_user_id (subject m), Qred (matchScore m))) (matches result)
      = [(8%Z, 903 # 10); (7%Z, 129 # 2)]
      ∧ pagination result = mkPagination 2 20 0 false
  | inl _ => False
  end.
Proof. vm_compute. split; reflexivity. Qed.

Example project_side_second_page :
  match findMatchesForProject db_fixture 1 (mkOptions 1 1 50) with
  | inr result =>
      map (λ m, rs_user_id (subject m)) (matches result) = [7%Z]
      ∧ pagination result = mkPagination 2 1 1 false
  | inl _ => False
  end.
Proof. vm_compute. split; reflexivity. Qed.

Example project_side_high_bar :
  match findMatchesForProject db_fixture 1 (mkOptions 20 0 95) with
  | inr result => matches result = [] ∧ pagination result = mkPagination 0 20 0 false
  | inl _ => False
  end.
Proof. vm_compute. split; reflexivity. Qed.

Example researcher_side_defaults :
  match findMatchesForResearcher db_fixture 8 (mkPartialOptions None None None) with
  | inr result =>
      map (λ m, (ps_project_id (subject m), Qred (matchScore m))) (matches result)
      = [(1%Z, 903 # 10)]
      ∧ pagination result = mkPagination 1 20 0 false
  | inl _ => False
  end.
Proof. vm_compute. split; reflexivity. Qed.

(** [slice] counts a negative start from the end of the array. *)
Example slice_negative_start :
  JS.slice [1; 2; 3; 4; 5]%nat (-2) 3 = [] ∧ JS.slice [1; 2; 3; 4; 5]%nat (-2) 5 = [4; 5]%nat.
Proof. split; reflexivity. Qed.

(** ** Tag parsing *)

Section Text.

Lemma lower_char_idem (c : ascii) : JS.lower_char (JS.lower_char c) = JS.lower_char c.
Proof. destruct c as [[] [] [] [] [] [] [] []]; vm_compute; reflexivity. Qed.

Lemma lower_char_comma (c : ascii) : JS.lower_char c = ","%char → c = ","%char.
Proof. destruct c as [[] [] [] [] [] [] [] []]; vm_compute; congruence. Qed.

Lemma lower_char_space (c : ascii) : Ascii.is_space (JS.lower_char c) = Ascii.is_space c.
Proof. destruct c as [[] [] [] [] [] [] [] []]; vm_compute; reflexivity. Qed.

Lemma lower_char_eqb_comma (c : ascii) :
  Ascii.eqb (JS.lower_char c) "," = Ascii.eqb c ",".
Proof. destruct c as [[] [] [] [] [] [] [] []]; vm_compute; reflexivity. Qed.

Lemma chars_inj (s1 s2 : string) : chars s1 = chars s2 → s1 = s2.
Proof.
  intros H. rewrite <- (string_of_list_ascii_of_string s1),
    <- (string_of_list_ascii_of_string s2). unfold chars in H. now rewrite H.
Qed.

Lemma chars_toLowerCase (s : string) :
  chars (JS.toLowerCase s) = JS.lower_char <$> chars s.
Proof.
  unfold chars. induction s as [|c s IH]; simpl; [reflexivity|].
  f_equal. exact IH.
Qed.

Lemma chars_rev_app (s1 s2 : string) :
  chars (String.rev_app s1 s2) = reverse (chars s1) ++ chars s2.
Proof.
  revert s2. induction s1 as [|c s1 IH]; intros s2; simpl; [reflexivity|].
  rewrite IH, reverse_cons, <- app_assoc. reflexivity.
Qed.

Lemma chars_rev (s : string) : chars (String.rev s) = reverse (chars s).
Proof. unfold String.rev. rewrite chars_rev_app. simpl. apply app_nil_r. Qed.

Lemma chars_trimStart (s : string) : chars (JS.trimStart s) = drop_spaces (chars s).
Proof.
  induction s as [|c s IH]; simpl; [reflexivity|].
  destruct (Ascii.is_space c); [exact IH | reflexivity].
Qed.

Lemma chars_trim (s : string) :
  chars (JS.trim s) = reverse (drop_spaces (reverse (drop_spaces (chars s)))).
Proof.
  unfold JS.trim, JS.trimEnd.
  now rewrite chars_rev, chars_trimStart, chars_rev, chars_trimStart.
Qed.

Lemma drop_spaces_elem (c : ascii) (l : list ascii) : c ∈ drop_spaces l → c ∈ l.
Proof.
  induction l as [|x l IH]; simpl; [tauto|].
  destruct (Ascii.is_space x); [|tauto]. intros H. right. now apply IH.
Qed.

Lemma drop_spaces_head (c : ascii) (l : list ascii) :
  head (drop_spaces l) = Some c → Ascii.is_space c = false.
Proof.
  induction l as [|x l IH]; simpl; [discriminate|].
  destruct (Ascii.is_space x) eqn:E; [exact IH|]. simpl. congruence.
Qed.

(** Trimming the end never reaches past a character that is not whitespace. *)
Lemma drop_spaces_snoc (l : list ascii) (c : ascii) :
  Ascii.is_space c = false → ∃ k, drop_spaces (l ++ [c]) = k ++ [c].
Proof.
  intros Hc. induction l as [|x l [k IH]]; simpl.
  - rewrite Hc. now exists [].
  - destruct (Ascii.is_space x); [now exists k|]. now exists (x :: l).
Qed.

Lemma drop_spaces_all (l : list ascii) :
  Forall (λ c, Ascii.is_space c = true) l → drop_spaces l = [].
Proof. induction 1 as [|c l Hc _ IH]; simpl; [reflexivity | now rewrite Hc]. Qed.

Lemma trim_chars_elem (c : ascii) (s : string) : c ∈ chars (JS.trim s) → c ∈ chars s.
Proof.
  rewrite chars_trim, elem_of_reverse. intros H.
  apply drop_spaces_elem, elem_of_reverse, drop_spaces_elem in H. exact H.
Qed.

Lemma trim_head (c : ascii) (s : string) :
  head (chars (JS.trim s)) = Some c → Ascii.is_space c = false.
Proof.
  rewrite chars_trim.
  destruct (drop_spaces (chars s)) as [|x l] eqn:E; [discriminate|].
  assert (Hx : Ascii.is_space x = false).
  { apply (drop_spaces_head x (chars s)). now rewrite E. }
  rewrite reverse_cons. destruct (drop_spaces_snoc (reverse l) x Hx) as [k ->].
  rewrite reverse_snoc. simpl. congruence.
Qed.

Lemma trim_last (c : ascii) (s : string) :
  last (chars (JS.trim s)) = Some c → Ascii.is_space c = false.
Proof. rewrite chars_trim, last_reverse. apply drop_spaces_head. Qed.

Lemma split_nonempty (sep : ascii) (s : string) : JS.split sep s ≠ [].
Proof.
  destruct s as [|c s]; simpl; [discriminate|].
  destruct (Ascii.eqb c sep); [discriminate|].
  destruct (JS.split sep s); discriminate.
Qed.

(** The pieces of a split are made of characters of the input other than
    the separator. *)
Lemma split_chars (sep : ascii) (s piece : string) (c : ascii) :
  piece ∈ JS.split sep s → c ∈ chars piece → c ∈ chars s ∧ c ≠ sep.
Proof.
  revert piece. induction s as [|x s IH]; simpl; intros piece Hp Hc.
  - apply list_elem_of_singleton in Hp. subst piece. simpl in Hc.
    now apply not_elem_of_nil in Hc.
  - destruct (Ascii.eqb_spec x sep) as [-> | Hne].
    + apply elem_of_cons in Hp as [-> | Hp].
      * simpl in Hc. now apply not_elem_of_nil in Hc.
      * destruct (IH piece Hp Hc). split; [now right | assumption].
    + destruct (JS.split sep s) as [|cur rest] eqn:E.
      * now destruct (split_nonempty sep s).
      * apply elem_of_cons in Hp as [-> | Hp].
        -- simpl in Hc. apply elem_of_cons in Hc as [-> | Hc].
           ++ split; [now left | assumption].
           ++ destruct (IH cur (list_elem_of_here _ _) Hc). split; [now right | assumption].
        -- destruct (IH piece (list_elem_of_further _ _ _ Hp) Hc).
           split; [now right | assumption].
Qed.

Lemma split_app (sep : ascii) (s1 s2 : string) :
  JS.split sep (s1 +:+ String sep s2) = JS.split sep s1 ++ JS.split sep s2.
Proof.
  induction s1 as [|c s1 IH]; simpl.
  - now rewrite Ascii.eqb_refl.
  - destruct (Ascii.eqb c sep); [simpl; now rewrite IH|].
    change (String.append s1 (String sep s2)) with (s1 +:+ String sep s2).
    rewrite IH. destruct (JS.split sep s1) eqn:E; [|reflexivity].
    now destruct (split_nonempty sep s1).
Qed.

Lemma split_toLowerCase (s : string) :
  JS.split "," (JS.toLowerCase s) = JS.toLowerCase <$> JS.split "," s.
Proof.
  induction s as [|c s IH]; simpl; [reflexivity|].
  rewrite lower_char_eqb_comma, IH.
  destruct (Ascii.eqb c ","); [reflexivity|].
  destruct (JS.split "," s); reflexivity.
Qed.

Lemma toLowerCase_idem (s : string) :
  JS.toLowerCase (JS.toLowerCase s) = JS.toLowerCase s.
Proof. induction s as [|c s IH]; simpl; [reflexivity|]. now rewrite lower_char_idem, IH. Qed.

Lemma drop_spaces_lower (l : list ascii) :
  drop_spaces (JS.lower_char <$> l) = JS.lower_char <$> drop_spaces l.
Proof.
  induction l as [|c l IH]; simpl; [reflexivity|].
  rewrite lower_char_space. destruct (Ascii.is_space c); [exact IH | reflexivity].
Qed.

Lemma trim_toLowerCase (s : string) :
  JS.trim (JS.toLowerCase s) = JS.toLowerCase (JS.trim s).
Proof.
  apply chars_inj.
  rewrite chars_toLowerCase, !chars_trim, chars_toLowerCase.
  now rewrite drop_spaces_lower, <- fmap_reverse, drop_spaces_lower, fmap_reverse.
Qed.

(** The function behind [parseCommaSeparated], on any non-null string. *)
Lemma parseCommaSeparated_Some (s : string) :
  parseCommaSeparated (Some s)
  = filter (λ item, (0 < String.length item)%nat)
           (map (λ item, JS.toLowerCase (JS.trim item)) (JS.split "," s)).
Proof.
  unfold parseCommaSeparated. destruct (String.eqb_spec s ""); [|reflexivity].
  subst s. reflexivity.
Qed.

End Text.

Section TextProperties.

Lemma filter_none {A} (P : A → Prop) `{∀ x, Decision (P x)} (l : list A) :
  Forall (λ x, ¬ P x) l → filter P l = [].
Proof.
  induction 1 as [|x l Hx _ IH]; [reflexivity|].
  now rewrite filter_cons_False.
Qed.

Lemma parsed_item (str : option string) (item : string) :
  item ∈ parseCommaSeparated str →
  item ≠ ""%string ∧ ∃ s piece, str = Some s ∧ piece ∈ JS.split "," s
                               ∧ item = JS.toLowerCase (JS.trim piece).
Proof.
  destruct str as [s|]; [|intros H; now apply not_elem_of_nil in H].
  rewrite parseCommaSeparated_Some, list_elem_of_filter, list_elem_of_fmap.
  intros [Hlen (piece & -> & Hpiece)]. split.
  - intros E. rewrite E in Hlen. simpl in Hlen. lia.
  - now exists s, piece.
Qed.

Lemma parseCommaSeparated_toLowerCase (s : string) :
  parseCommaSeparated (Some (JS.toLowerCase s)) = parseCommaSeparated (Some s).
Proof.
  rewrite !parseCommaSeparated_Some, split_toLowerCase. f_equal.
  change (map ?f ?l) with (f <$> l). rewrite <- list_fmap_compose.
  apply list_fmap_ext. intros _ item _. simpl.
  now rewrite trim_toLowerCase, toLowerCase_idem.
Qed.

End TextProperties.

(** X1: every tag that [parseCommaSeparated] returns is normalized: it is not
    empty, holds no comma, has no whitespace at either end and no upper-case
    ASCII letter. *)
Theorem parseCommaSeparated_normalized (str : option string) :
  Forall normalized_tag (parseCommaSeparated str).
Proof.
  apply Forall_forall. intros item Hin.
  destruct (parsed_item _ _ Hin) as [Hne (s & piece & _ & Hpiece & ->)].
  split; [exact Hne|]. rewrite chars_toLowerCase.
  split; [|split; [|split]].
  - rewrite <- list_elem_of_In, list_elem_of_fmap. intros (c & Hc & Hin').
    symmetry in Hc. apply lower_char_comma in Hc. subst c.
    apply trim_chars_elem in Hin'.
    destruct (split_chars _ _ _ _ Hpiece Hin') as [_ Hsep]. now apply Hsep.
  - intros c Hc. destruct (chars (JS.trim piece)) as [|c0 l] eqn:E; [discriminate|].
    simpl in Hc. injection Hc as <-. rewrite lower_char_space.
    apply (trim_head c0 piece). now rewrite E.
  - intros c. rewrite fmap_last. intros Hc.
    destruct (last (chars (JS.trim piece))) as [c0|] eqn:E; [|discriminate].
    simpl in Hc. injection Hc as <-. rewrite lower_char_space.
    now apply (trim_last c0 piece).
  - apply Forall_fmap, Forall_forall. intros c _. simpl. apply lower_char_idem.
Qed.

(** X2: a string made of commas and whitespace only holds no tag. *)
Theorem parseCommaSeparated_separators_only (s : string) :
  Forall (λ c, c = ","%char ∨ Ascii.is_space c = true) (chars s) →
  parseCommaSeparated (Some s) = [].
Proof.
  intros Hs. rewrite parseCommaSeparated_Some. apply filter_none.
  apply Forall_fmap, Forall_forall. intros piece Hpiece. simpl.
  assert (Hspaces : Forall (λ c, Ascii.is_space c = true) (chars piece)).
  { apply Forall_forall. intros c Hc.
    destruct (split_chars _ _ _ _ Hpiece Hc) as [Hin Hsep].
    rewrite Forall_forall in Hs. destruct (Hs c Hin); [contradiction | assumption]. }
  assert (E : JS.trim piece = ""%string).
  { apply chars_inj. rewrite chars_trim, (drop_spaces_all _ Hspaces). reflexivity. }
  rewrite E. simpl. lia.
Qed.

Lemma parseCommaSeparated_separators_only_witness :
  parseCommaSeparated (Some " , ,"%string) = [].
Proof.
  apply (parseCommaSeparated_separators_only " , ,").
  unfold chars; simpl.
  repeat (constructor; [first [left; reflexivity | right; reflexivity]|]).
  constructor.
Defined.

(** X3: tags are compared without regard to case: two strings that differ
    only in the case of ASCII letters parse to the same tags, so the expertise,
    methods and domain scores cannot tell them apart. *)
Theorem scores_ignore_case (s1 s2 : string) (other : option string) :
  JS.toLowerCase s1 = JS.toLowerCase s2 →
  parseCommaSeparated (Some s1) = parseCommaSeparated (Some s2)
  ∧ calculateExpertiseScore (Some s1) other = calculateExpertiseScore (Some s2) other
  ∧ calculateExpertiseScore other (Some s1) = calculateExpertiseScore other (Some s2)
  ∧ calculateMethodsScore (Some s1) other = calculateMethodsScore (Some s2) other
  ∧ calculateMethodsScore other (Some s1) = calculateMethodsScore other (Some s2)
  ∧ calculateDomainScore (Some s1) other = calculateDomainScore (Some s2) other
  ∧ calculateDomainScore other (Some s1) = calculateDomainScore other (Some s2).
Proof.
  intros H.
  assert (E : parseCommaSeparated (Some s1) = parseCommaSeparated (Some s2)).
  { rewrite <- (parseCommaSeparated_toLowerCase s1), H.
    apply parseCommaSeparated_toLowerCase. }
  unfold calculateExpertiseScore, calculateMethodsScore, calculateDomainScore.
  rewrite E. repeat split; reflexivity.
Qed.

Lemma scores_ignore_case_witness :
  parseCommaSeparated (Some "Survey, NLP"%string)
  = parseCommaSeparated (Some "survey, nlp"%string)
  ∧ calculateExpertiseScore (Some "Survey, NLP"%string) (Some "nlp"%string)
    = calculateExpertiseScore (Some "survey, nlp"%string) (Some "nlp"%string)
  ∧ calculateExpertiseScore (Some "nlp"%string) (Some "Survey, NLP"%string)
    = calculateExpertiseScore (Some "nlp"%string) (Some "survey, nlp"%string)
  ∧ calculateMethodsScore (Some "Survey, NLP"%string) (Some "nlp"%string)
    = calculateMethodsScore (Some "survey, nlp"%string) (Some "nlp"%string)
  ∧ calculateMethodsScore (Some "nlp"%string) (Some "Survey, NLP"%string)
    = calculateMethodsScore (Some "nlp"%string) (Some "survey, nlp"%string)
  ∧ calculateDomainScore (Some "Survey, NLP"%string) (Some "nlp"%string)
    = calculateDomainScore (Some "survey, nlp"%string) (Some "nlp"%string)
  ∧ calculateDomainScore (Some "nlp"%string) (Some "Survey, NLP"%string)
    = calculateDomainScore (Some "nlp"%string) (Some "survey, nlp"%string).
Proof.
  apply (scores_ignore_case "Survey, NLP" "survey, nlp" (Some "nlp"%string)).
  reflexivity.
Defined.

(** X4: parsing distributes over a comma: the tags of [s1 , s2] are the tags
    of [s1] followed by the tags of [s2]. *)
Theorem parseCommaSeparated_comma (s1 s2 : string) :
  parseCommaSeparated (Some (s1 +:+ String "," s2))
  = parseCommaSeparated (Some s1) ++ parseCommaSeparated (Some s2).
Proof.
  rewrite !parseCommaSeparated_Some, split_app, map_app. apply filter_app.
Qed.

(** ** Similarity of tag sets *)

Section Similarity.

Lemma jaccardSimilarity_spec_comm (A B : gset string) :
  jaccardSimilarity_spec A B = jaccardSimilarity_spec B A.
Proof.
  unfold jaccardSimilarity_spec.
  rewrite (comm_L (∩) A B), (comm_L (∪) A B).
  destruct (decide (A = ∅ ∨ B = ∅)), (decide (B = ∅ ∨ A = ∅)); tauto.
Qed.

Lemma members_same (l1 l2 : list string) :
  (∀ x, x ∈ l1 ↔ x ∈ l2) → members (Arr l1) = members (Arr l2).
Proof.
  intros H. unfold members; simpl. apply set_eq. intros x.
  rewrite !elem_of_list_to_set. apply H.
Qed.

Lemma members_empty (l : list string) : members (Arr l) = ∅ ↔ l = [].
Proof.
  unfold members; simpl. split.
  - intros H. destruct l as [|x l]; [reflexivity|].
    assert (Hx : x ∈ (list_to_set (x :: l) : gset string)).
    { apply elem_of_list_to_set. now left. }
    rewrite H in Hx. now apply not_elem_of_empty in Hx.
  - intros ->. reflexivity.
Qed.

Lemma ratio_one (n m : nat) :
  inject_Z (Z.of_nat n) / inject_Z (Z.of_nat m) == 1 → (0 < m)%nat → n = m.
Proof.
  intros H Hm.
  assert (Hpos : 0 < inject_Z (Z.of_nat m)).
  { change 0 with (inject_Z 0). rewrite <- Zlt_Qlt. lia. }
  assert (E : inject_Z (Z.of_nat n) == inject_Z (Z.of_nat m)).
  { assert (Hne : ¬ inject_Z (Z.of_nat m) == 0) by (intros Hc; lra).
    rewrite <- (Qmult_div_r (inject_Z (Z.of_nat n)) (inject_Z (Z.of_nat m)) Hne).
    rewrite H. ring. }
  apply Nat2Z.inj. now apply inject_Z_injective.
Qed.

Lemma jaccardSimilarity_spec_one (A B : gset string) :
  jaccardSimilarity_spec A B == 1 ↔ A = B ∧ A ≠ ∅.
Proof.
  unfold jaccardSimilarity_spec. destruct (decide _) as [H | H]; split.
  - intros E. exfalso. revert E. vm_compute. discriminate.
  - intros [-> Hne]. tauto.
  - intros E.
    assert (Hpos : (0 < size (A ∪ B))%nat).
    { destruct (size (A ∪ B)) eqn:Es; [|lia].
      apply size_empty_inv, leibniz_equiv, empty_union_L in Es. tauto. }
    apply ratio_one in E; [|exact Hpos].
    assert (Heq : A ∩ B = A ∪ B).
    { apply set_subseteq_size_eq; [|lia].
      intros x Hx. apply elem_of_intersection in Hx. apply elem_of_union. tauto. }
    split; [|tauto]. apply set_eq. intros x. split; intros Hx.
    + assert (Hu : x ∈ A ∪ B) by (apply elem_of_union; tauto).
      rewrite <- Heq in Hu. apply elem_of_intersection in Hu. tauto.
    + assert (Hu : x ∈ A ∪ B) by (apply elem_of_union; tauto).
      rewrite <- Heq in Hu. apply elem_of_intersection in Hu. tauto.
  - intros [<- Hne]. rewrite (idemp_L (∩) A), (idemp_L (∪) A).
    assert (Hpos : (0 < size A)%nat).
    { destruct (size A) eqn:Es; [|lia].
      apply size_empty_inv, leibniz_equiv in Es. tauto. }
    assert (HposQ : 0 < inject_Z (Z.of_nat (size A))).
    { change 0 with (inject_Z 0). rewrite <- Zlt_Qlt. lia. }
    field. lra.
Qed.

Lemma jaccardSimilarity_spec_disjoint (A B : gset string) :
  A ∩ B = ∅ → jaccardSimilarity_spec A B == 0.
Proof.
  intros H. unfold jaccardSimilarity_spec. destruct (decide _); [reflexivity|].
  rewrite H, size_empty. simpl. unfold Qdiv. now rewrite Qmult_0_l.
Qed.

Lemma round_scaled (x y max : Q) :
  x == y →
  JS.Math_round (Double.mul (Double.mul (Double.of_Q x) max) 10) / 10
  == JS.Math_round (Double.mul (Double.mul (Double.of_Q y) max) 10) / 10.
Proof. intros H. apply Math_round_div_comp, scaled_comp. now rewrite H. Qed.

End Similarity.

(** Jaccard similarity does not depend on which collection comes first. *)
Lemma calculateJaccardSimilarity_symmetric (set1 set2 : StrColl) :
  calculateJaccardSimilarity set1 set2 == calculateJaccardSimilarity set2 set1.
Proof.
  rewrite !calculateJaccardSimilarity_members, jaccardSimilarity_spec_comm.
  reflexivity.
Qed.

(** X5: the similarity of two arrays is 1 exactly when the first is not empty
    and both hold the same strings, in whatever order and however often. *)
Theorem calculateJaccardSimilarity_one (l1 l2 : list string) :
  calculateJaccardSimilarity (Arr l1) (Arr l2) == 1
  ↔ l1 ≠ [] ∧ ∀ x, x ∈ l1 ↔ x ∈ l2.
Proof.
  rewrite calculateJaccardSimilarity_members, jaccardSimilarity_spec_one.
  rewrite members_empty. split.
  - intros [E Hne]. split; [exact Hne|]. intros x.
    unfold members in E; simpl in E.
    rewrite <- !(elem_of_list_to_set (C := gset string)). now rewrite E.
  - intros [Hne H]. split; [now apply members_same | exact Hne].
Qed.

(** X6: the expertise and domain scores depend on the tags as sets: listing
    the same tags in another order or more than once changes neither. *)
Theorem jaccard_scores_ignore_order_and_repeats (a a' b : option string) :
  (∀ x, x ∈ parseCommaSeparated a ↔ x ∈ parseCommaSeparated a') →
  calculateExpertiseScore a b = calculateExpertiseScore a' b
  ∧ calculateExpertiseScore b a = calculateExpertiseScore b a'
  ∧ calculateDomainScore a b = calculateDomainScore a' b
  ∧ calculateDomainScore b a = calculateDomainScore b a'.
Proof.
  intros H. unfold calculateExpertiseScore, calculateDomainScore. cbv zeta.
  rewrite !calculateJaccardSimilarity_members, (members_same _ _ H).
  assert (E : (length (parseCommaSeparated a) =? 0)%nat
              = (length (parseCommaSeparated a') =? 0)%nat).
  { destruct (parseCommaSeparated a) as [|x l], (parseCommaSeparated a') as [|y l'];
      try reflexivity; exfalso.
    - apply (not_elem_of_nil y), H. now left.
    - apply (not_elem_of_nil x), H. now left. }
  rewrite E. repeat split; reflexivity.
Qed.

Lemma jaccard_scores_ignore_order_and_repeats_witness :
  calculateExpertiseScore (Some "nlp, survey, nlp"%string) (Some "nlp"%string)
  = calculateExpertiseScore (Some "survey, nlp"%string) (Some "nlp"%string)
  ∧ calculateExpertiseScore (Some "nlp"%string) (Some "nlp, survey, nlp"%string)
    = calculateExpertiseScore (Some "nlp"%string) (Some "survey, nlp"%string)
  ∧ calculateDomainScore (Some "nlp, survey, nlp"%string) (Some "nlp"%string)
    = calculateDomainScore (Some "survey, nlp"%string) (Some "nlp"%string)
  ∧ calculateDomainScore (Some "nlp"%string) (Some "nlp, survey, nlp"%string)
    = calculateDomainScore (Some "nlp"%string) (Some "survey, nlp"%string).
Proof.
  apply (jaccard_scores_ignore_order_and_repeats
           (Some "nlp, survey, nlp"%string) (Some "survey, nlp"%string)
           (Some "nlp"%string)).
  intros x. vm_compute parseCommaSeparated.
  rewrite !elem_of_cons, !elem_of_nil. tauto.
Defined.

(** X7: when project and researcher list the same tags (and at least one),
    the expertise score is the full 30 and the domain score the full 10. *)
Theorem jaccard_scores_full_marks (a b : option string) :
  parseCommaSeparated a ≠ [] →
  (∀ x, x ∈ parseCommaSeparated a ↔ x ∈ parseCommaSeparated b) →
  calculateExpertiseScore a b == 30 ∧ calculateDomainScore a b == 10.
Proof.
  intros Hne H. unfold calculateExpertiseScore, calculateDomainScore. cbv zeta.
  assert (Hb : parseCommaSeparated b ≠ []).
  { destruct (parseCommaSeparated a) as [|x l]; [congruence|].
    intros E. rewrite E in H. apply (not_elem_of_nil x), H. now left. }
  destruct (parseCommaSeparated a) as [|x l] eqn:Ea; [congruence|].
  destruct (parseCommaSeparated b) as [|y l'] eqn:Eb; [congruence|]. simpl orb.
  assert (E : calculateJaccardSimilarity (Arr (x :: l)) (Arr (y :: l')) == 1).
  { rewrite calculateJaccardSimilarity_members. apply jaccardSimilarity_spec_one.
    split; [now apply members_same|]. rewrite members_empty. discriminate. }
  split.
  - rewrite (round_scaled _ 1 30 E). vm_compute. reflexivity.
  - rewrite (round_scaled _ 1 10 E). vm_compute. reflexivity.
Qed.

Lemma jaccard_scores_full_marks_witness :
  calculateExpertiseScore (Some "NLP, survey"%string) (Some "survey,nlp,nlp"%string) == 30
  ∧ calculateDomainScore (Some "NLP, survey"%string) (Some "survey,nlp,nlp"%string) == 10.
Proof.
  apply (jaccard_scores_full_marks (Some "NLP, survey"%string)
                                   (Some "survey,nlp,nlp"%string)).
  - vm_compute. discriminate.
  - intros x. vm_compute parseCommaSeparated.
    rewrite !elem_of_cons, !elem_of_nil. tauto.
Defined.

(** X8: without a common tag the expertise and domain scores are 0. *)
Theorem jaccard_scores_no_common_tag (a b : option string) :
  (∀ x, x ∈ parseCommaSeparated a → x ∉ parseCommaSeparated b) →
  calculateExpertiseScore a b == 0 ∧ calculateDomainScore a b == 0.
Proof.
  intros H. unfold calculateExpertiseScore, calculateDomainScore. cbv zeta.
  destruct (_ || _)%bool; [split; reflexivity|].
  assert (E : calculateJaccardSimilarity (Arr (parseCommaSeparated a))
                                         (Arr (parseCommaSeparated b)) == 0).
  { rewrite calculateJaccardSimilarity_members.
    apply jaccardSimilarity_spec_disjoint. apply set_eq. intros x.
    unfold members; simpl. rewrite elem_of_intersection, !elem_of_list_to_set.
    split; [intros [Ha Hb]; now destruct (H x Ha) | intros Hx; now apply not_elem_of_empty in Hx]. }
  split.
  - rewrite (round_scaled _ 0 30 E). vm_compute. reflexivity.
  - rewrite (round_scaled _ 0 10 E). vm_compute. reflexivity.
Qed.

Lemma jaccard_scores_no_common_tag_witness :
  calculateExpertiseScore (Some "history"%string) (Some "survey,nlp"%string) == 0
  ∧ calculateDomainScore (Some "history"%string) (Some "survey,nlp"%string) == 0.
Proof.
  apply (jaccard_scores_no_common_tag (Some "history"%string) (Some "survey,nlp"%string)).
  intros x. vm_compute parseCommaSeparated.
  rewrite !elem_of_cons, !elem_of_nil. intros [-> | []] [H | [H | []]]; discriminate H.
Defined.

(** ** Overlap of ranges *)

Section Overlap.

Lemma checkRangeOverlap_disjoint (min1 max1 min2 max2 : Q) :
  Qmin max1 max2 <= Qmax min1 min2 →
  checkRangeOverlap (mkRange (Some min1) (Some max1)) (mkRange (Some min2) (Some max2)) = 0.
Proof.
  intros H. unfold checkRangeOverlap. destruct (_ || _ || _ || _)%bool; [reflexivity|].
  simpl. unfold JS.Math_max, JS.Math_min.
  apply Qle_bool_iff in H. now rewrite H.
Qed.

(** What [checkRangeOverlap] computes when it gets past both guards. *)
Lemma checkRangeOverlap_proper (min1 max1 min2 max2 : Q) :
  ¬ min1 == 0 → ¬ max1 == 0 → ¬ min2 == 0 → ¬ max2 == 0 →
  Qmax min1 min2 < Qmin max1 max2 →
  checkRangeOverlap (mkRange (Some min1) (Some max1)) (mkRange (Some min2) (Some max2))
  == (Qmin max1 max2 - Qmax min1 min2) / (((max1 - min1) + (max2 - min2)) / 2).
Proof.
  intros H1 H2 H3 H4 Hlt. unfold checkRangeOverlap.
  cbn [range_min range_max JS.falsy].
  rewrite <- Qeq_bool_iff in H1, H2, H3, H4.
  apply not_true_is_false in H1, H2, H3, H4. rewrite H1, H2, H3, H4.
  cbn [orb]. unfold JS.Math_max, JS.Math_min.
  destruct (Qle_bool _ _) eqn:E.
  { apply Qle_bool_iff in E. lra. }
  destruct (overlap_fraction _ _ _ _ Hlt) as [_ [_ Hle]].
  now apply Q.min_l.
Qed.

End Overlap.

(** X9: the overlap of two ranges does not depend on their order. *)
Theorem checkRangeOverlap_symmetric (range1 range2 : Range) :
  checkRangeOverlap range1 range2 == checkRangeOverlap range2 range1.
Proof.
  destruct range1 as [[min1|] [max1|]], range2 as [[min2|] [max2|]];
    try (unfold checkRangeOverlap; simpl; rewrite ?orb_true_r; simpl;
         repeat (match goal with |- context [Qeq_bool ?x 0] => destruct (Qeq_bool x 0) end;
                 simpl);
         reflexivity).
  destruct (Qeq_dec min1 0) as [Z1 | N1].
  { rewrite !checkRangeOverlap_falsy; [reflexivity | simpl; tauto..]. }
  destruct (Qeq_dec max1 0) as [Z2 | N2].
  { rewrite !checkRangeOverlap_falsy; [reflexivity | simpl; tauto..]. }
  destruct (Qeq_dec min2 0) as [Z3 | N3].
  { rewrite !checkRangeOverlap_falsy; [reflexivity | simpl; tauto..]. }
  destruct (Qeq_dec max2 0) as [Z4 | N4].
  { rewrite !checkRangeOverlap_falsy; [reflexivity | simpl; tauto..]. }
  pose proof (Q.max_comm min1 min2) as Emax.
  pose proof (Q.min_comm max1 max2) as Emin.
  destruct (Qlt_le_dec (Qmax min1 min2) (Qmin max1 max2)) as [Hlt | Hle].
  - rewrite !checkRangeOverlap_proper by (assumption || lra).
    rewrite Emax, Emin.
    assert (E : (max1 - min1 + (max2 - min2)) / 2 == (max2 - min2 + (max1 - min1)) / 2)
      by (unfold Qdiv; ring).
    now rewrite E.
  - rewrite !checkRangeOverlap_disjoint by lra. reflexivity.
Qed.

(** X10: the overlap is positive exactly when all four bounds are present
    and not zero and the larger minimum lies strictly below the smaller
    maximum; in every other case it is 0. *)
Theorem checkRangeOverlap_positive (range1 range2 : Range) :
  0 < checkRangeOverlap range1 range2
  ↔ ∃ min1 max1 min2 max2,
      range1 = mkRange (Some min1) (Some max1)
      ∧ range2 = mkRange (Some min2) (Some max2)
      ∧ ¬ min1 == 0 ∧ ¬ max1 == 0 ∧ ¬ min2 == 0 ∧ ¬ max2 == 0
      ∧ Qmax min1 min2 < Qmin max1 max2.
Proof.
  split.
  - intros Hpos.
    destruct (decide (missing_or_zero (range_min range1) ∨ missing_or_zero (range_max range1)
                      ∨ missing_or_zero (range_min range2)
                      ∨ missing_or_zero (range_max range2))) as [H | H].
    { rewrite (checkRangeOverlap_falsy _ _ H) in Hpos. lra. }
    destruct range1 as [[min1|] [max1|]], range2 as [[min2|] [max2|]];
      simpl in H; try tauto.
    exists min1, max1, min2, max2.
    repeat (split; [tauto|]).
    apply Qnot_le_lt. intros Hle.
    rewrite (checkRangeOverlap_disjoint _ _ _ _ Hle) in Hpos. lra.
  - intros (min1 & max1 & min2 & max2 & -> & -> & N1 & N2 & N3 & N4 & Hlt).
    rewrite checkRangeOverlap_proper by assumption.
    now destruct (overlap_fraction _ _ _ _ Hlt) as [_ [Hpos _]].
Qed.

(** A proper range with non-zero bounds overlaps itself completely. *)
Lemma checkRangeOverlap_self (lo hi : Q) :
  ¬ lo == 0 → ¬ hi == 0 → lo < hi →
  checkRangeOverlap (mkRange (Some lo) (Some hi)) (mkRange (Some lo) (Some hi)) == 1.
Proof.
  intros N1 N2 Hlt.
  assert (Emax : Qmax lo lo == lo) by (apply Q.max_l; lra).
  assert (Emin : Qmin hi hi == hi) by (apply Q.min_l; lra).
  rewrite checkRangeOverlap_proper by (assumption || lra).
  rewrite Emax, Emin. field. lra.
Qed.

Lemma checkRangeOverlap_self_witness :
  checkRangeOverlap (mkRange (Some 10) (Some 20)) (mkRange (Some 10) (Some 20)) == 1.
Proof.
  apply (checkRangeOverlap_self 10 20); [discriminate | discriminate | reflexivity].
Defined.

(** ** Factor scorers at their edges *)

Section FactorEdges.

Lemma length_filter_mono {A} (P Q : A → Prop)
    `{∀ x, Decision (P x)} `{∀ x, Decision (Q x)} (l : list A) :
  (∀ x, P x → Q x) → (length (filter P l) <= length (filter Q l))%nat.
Proof.
  intros HPQ. induction l as [|x l IH]; [reflexivity|].
  rewrite !filter_cons.
  destruct (decide (P x)) as [HP | HP]; destruct (decide (Q x)) as [HQ | HQ];
    simpl; try lia.
  now destruct HQ; apply HPQ.
Qed.

Lemma filter_all {A} (P : A → Prop) `{∀ x, Decision (P x)} (l : list A) :
  Forall P l → filter P l = l.
Proof.
  induction 1 as [|x l Hx _ IH]; [reflexivity|].
  rewrite filter_cons_True by assumption. now rewrite IH.
Qed.

Lemma round_mono (x y : Q) :
  x <= y → JS.Math_round (x * 10) / 10 <= JS.Math_round (y * 10) / 10.
Proof.
  intros H. unfold JS.Math_round.
  assert (Hz : (JS.Math_round_int (x * 10) <= JS.Math_round_int (y * 10))%Z).
  { apply Math_round_int_mono. lra. }
  rewrite Zle_Qle in Hz. unfold Qdiv. apply Qmult_le_compat_r; [exact Hz | discriminate].
Qed.

End FactorEdges.

(** X11: a researcher whose whole cost range lies at or below the project's
    budget minimum, or at or above its budget maximum, scores 0 on budget:
    being cheaper than the budget counts no more than being dearer. *)
Theorem calculateBudgetScore_outside_budget
    (project : Project) (researcher : ResearcherProfile) :
  rateMax researcher * inject_Z (estimatedHours project) <= projectMin project
  ∨ projectMax project <= rateMin researcher * inject_Z (estimatedHours project) →
  calculateBudgetScore project researcher == 0.
Proof.
  intros H. unfold calculateBudgetScore. cbv zeta.
  destruct (_ || _)%bool; [reflexivity|].
  rewrite checkRangeOverlap64_disjoint; [apply round_zero|].
  pose proof (projectMin_double project) as Dmin.
  pose proof (projectMax_double project) as Dmax.
  unfold is_double in Dmin, Dmax. unfold Double.mul.
  pose proof (Q.le_min_l (projectMax project)
                (Double.of_Q (rateMax researcher * inject_Z (estimatedHours project)))).
  pose proof (Q.le_min_r (projectMax project)
                (Double.of_Q (rateMax researcher * inject_Z (estimatedHours project)))).
  pose proof (Q.le_max_l (projectMin project)
                (Double.of_Q (rateMin researcher * inject_Z (estimatedHours project)))).
  pose proof (Q.le_max_r (projectMin project)
                (Double.of_Q (rateMin researcher * inject_Z (estimatedHours project)))).
  destruct H as [H | H]; apply of_Q_mono in H.
  - rewrite Dmin in H. lra.
  - rewrite Dmax in H. lra.
Qed.

Lemma calculateBudgetScore_outside_budget_witness :
  calculateBudgetScore (project_fixture (Some 5000) (Some 10000) (Some 100%Z))
                       (researcher_fixture (Some 20) (Some 40) None None) == 0.
Proof.
  apply (calculateBudgetScore_outside_budget
           (project_fixture (Some 5000) (Some 10000) (Some 100%Z))
           (researcher_fixture (Some 20) (Some 40) None None)).
  left. vm_compute. discriminate.
Defined.

(** X12: listing more methods never lowers the methods score: if every method
    of one researcher is also listed by another, the other scores at least as
    much against any project. *)
Theorem calculateMethodsScore_monotone (requiredMethods m1 m2 : option string) :
  (∀ x, x ∈ parseCommaSeparated m1 → x ∈ parseCommaSeparated m2) →
  calculateMethodsScore requiredMethods m1 <= calculateMethodsScore requiredMethods m2.
Proof.
  intros H.
  pose proof (calculateMethodsScore_sub_score requiredMethods m2) as [_ [H0 _]].
  destruct (parseCommaSeparated requiredMethods) as [|r required] eqn:Er.
  { unfold calculateMethodsScore. rewrite Er. cbn [length Nat.eqb]. lra. }
  destruct (parseCommaSeparated m1) as [|a1 l1] eqn:E1.
  { unfold calculateMethodsScore at 1. rewrite Er, E1. cbn [length Nat.eqb]. exact H0. }
  destruct (parseCommaSeparated m2) as [|a2 l2] eqn:E2.
  { exfalso. apply (not_elem_of_nil a1), H. now left. }
  rewrite (calculateMethodsScore_some _ _ _ _ _ _ Er E1),
          (calculateMethodsScore_some _ _ _ _ _ _ Er E2).
  apply Math_round_div_mono, scaled_mono; [|discriminate].
  unfold Double.div. apply of_Q_mono.
  unfold Qdiv. apply Qmult_le_compat_r.
  - rewrite <- Zle_Qle. apply inj_le. now apply length_filter_mono.
  - apply Qinv_le_0_compat. change 0 with (inject_Z 0). rewrite <- Zle_Qle. lia.
Qed.

Lemma calculateMethodsScore_monotone_witness :
  calculateMethodsScore (Some "survey,interview"%string) (Some "survey"%string)
  <= calculateMethodsScore (Some "survey,interview"%string)
                           (Some "interview, survey, nlp"%string).
Proof.
  apply (calculateMethodsScore_monotone (Some "survey,interview"%string)
           (Some "survey"%string) (Some "interview, survey, nlp"%string)).
  intros x. vm_compute parseCommaSeparated.
  rewrite !elem_of_cons, !elem_of_nil. tauto.
Defined.

(** X13: a researcher who lists every required method gets the full 25,
    whatever else the researcher lists. *)
Theorem calculateMethodsScore_all_covered (requiredMethods researcherMethods : option string) :
  (∀ x, x ∈ parseCommaSeparated requiredMethods → x ∈ parseCommaSeparated researcherMethods) →
  calculateMethodsScore requiredMethods researcherMethods == 25.
Proof.
  intros H.
  destruct (parseCommaSeparated requiredMethods) as [|r required] eqn:Er.
  { unfold calculateMethodsScore. rewrite Er. reflexivity. }
  destruct (parseCommaSeparated researcherMethods) as [|a available] eqn:Ea.
  { exfalso. apply (not_elem_of_nil r), H. now left. }
  rewrite (calculateMethodsScore_some _ _ _ _ _ _ Er Ea).
  rewrite filter_all by (apply Forall_forall; exact H).
  set (n := inject_Z (Z.of_nat (length (r :: required)))).
  assert (Hn : 0 < n).
  { unfold n. change 0 with (inject_Z 0). rewrite <- Zlt_Qlt. simpl length. lia. }
  unfold Double.div.
  rewrite (round_scaled (n / n) 1 25) by (field; lra).
  vm_compute. reflexivity.
Qed.

Lemma calculateMethodsScore_all_covered_witness :
  calculateMethodsScore (Some "survey,interview"%string)
                        (Some "NLP, Interview, Survey"%string) == 25.
Proof.
  apply (calculateMethodsScore_all_covered (Some "survey,interview"%string)
           (Some "NLP, Interview, Survey"%string)).
  intros x. vm_compute parseCommaSeparated.
  rewrite !elem_of_cons, !elem_of_nil. tauto.
Defined.

(** X14: the experience score never drops as the number of completed
    projects grows from 0 upwards. *)
Theorem calculateExperienceScore_monotone (a b : Z) :
  (0 <= a)%Z → (a <= b)%Z →
  calculateExperienceScore (Some a) <= calculateExperienceScore (Some b).
Proof.
  intros H0 Hab. unfold calculateExperienceScore, JS.int_or, JS.parseInt. cbv zeta.
  destruct (Z.eqb_spec a 0) as [-> | Ha]; destruct (Z.eqb_spec b 0) as [-> | Hb];
    cbv iota beta;
    repeat (match goal with
            | |- context [(?x =? ?y)%Z] => destruct (Z.eqb_spec x y)
            | |- context [(?x <=? ?y)%Z] => destruct (Z.leb_spec x y)
            end); try lia; try lra.
Qed.

Lemma calculateExperienceScore_monotone_witness :
  calculateExperienceScore (Some 5%Z) <= calculateExperienceScore (Some 6%Z).
Proof.
  apply (calculateExperienceScore_monotone 5 6); lia.
Defined.

(** ** Availability and capacity *)

(** X15: when [max_concurrent_projects] is set and not zero, the capacity half
    of the availability score is what [ResearcherProfile.hasCapacity] says (5
    points with capacity, none without); the other half is 5 points when the
    project has no start date or the researcher is available by then. *)
Theorem calculateAvailabilityScore_hasCapacity
    (project : Project) (researcher : ResearcherProfile) (m : Z) :
  max_concurrent_projects researcher = Some m → m ≠ 0%Z →
  calculateAvailabilityScore project researcher
  == (if hasCapacity researcher then 5 else 0)
     + match start_date project, available_start_date researcher with
       | Some projectStart, Some researcherAvailable =>
           if (researcherAvailable <=? projectStart)%Z then 5 else 0
       | None, _ => 5
       | Some _, None => 0
       end.
Proof.
  intros Hm Hne. unfold calculateAvailabilityScore, hasCapacity, JS.int_or, JS.parseInt.
  rewrite Hm. cbv zeta. simpl default.
  destruct (Z.eqb_spec m 0) as [|_]; [contradiction|].
  assert (E : (match current_projects_count researcher with
               | Some z => if (z =? 0)%Z then 0%Z else z
               | None => 0%Z
               end) = default 0%Z (current_projects_count researcher)).
  { destruct (current_projects_count researcher) as [c|]; [|reflexivity].
    simpl. now destruct (Z.eqb_spec c 0). }
  rewrite E.
  destruct (_ <? m)%Z; destruct (start_date project), (available_start_date researcher);
    try destruct (_ <=? _)%Z; reflexivity.
Qed.

Lemma calculateAvailabilityScore_hasCapacity_witness :
  calculateAvailabilityScore (project_fixture None None None)
                             (researcher_fixture None None None None)
  == (if hasCapacity (researcher_fixture None None None None) then 5 else 0) + 5.
Proof.
  apply (calculateAvailabilityScore_hasCapacity
           (project_fixture None None None)
           (researcher_fixture None None None None) 3); [reflexivity | lia].
Defined.

(** X16: a researcher whose [max_concurrent_projects] is 0 has no capacity
    according to [hasCapacity], yet the scorer reads the 0 as the default 3
    and still grants the capacity points while fewer than 3 projects run. *)
Theorem calculateAvailabilityScore_zero_max
    (project : Project) (researcher : ResearcherProfile) (current : Z) :
  max_concurrent_projects researcher = Some 0%Z →
  current_projects_count researcher = Some current →
  (0 <= current < 3)%Z →
  hasCapacity researcher = false ∧ 5 <= calculateAvailabilityScore project researcher.
Proof.
  intros Hm Hc Hrange. unfold calculateAvailabilityScore, hasCapacity, JS.int_or, JS.parseInt.
  rewrite Hm, Hc. cbv zeta. simpl. split.
  - apply Z.ltb_ge. lia.
  - assert (E : ((if (current =? 0)%Z then 0 else current) <? 3)%Z = true).
    { destruct (Z.eqb_spec current 0); apply Z.ltb_lt; lia. }
    rewrite E.
    destruct (start_date project), (available_start_date researcher);
      try destruct (_ <=? _)%Z; lra.
Qed.

Lemma calculateAvailabilityScore_zero_max_witness :
  let researcher :=
    mkResearcherProfile 9 None None None None None None None None None
                        (Some 0%Z) None None None None None
                        (Some 1%Z) (Some 0%Z) None in
  hasCapacity researcher = false
  ∧ 5 <= calculateAvailabilityScore (project_fixture None None None) researcher.
Proof.
  apply (calculateAvailabilityScore_zero_max (project_fixture None None None)
           (mkResearcherProfile 9 None None None None None None None None None
                                (Some 0%Z) None None None None None
                                (Some 1%Z) (Some 0%Z) None) 1);
    [reflexivity | reflexivity | lia].
Defined.

(** On a project with a start date, a researcher who left
    [available_start_date] empty gets no points for the date: the score is at
    most 5, however early the researcher could in fact start. *)
Lemma calculateAvailabilityScore_missing_date
    (project : Project) (researcher : ResearcherProfile) (projectStart : Z) :
  start_date project = Some projectStart →
  available_start_date researcher = None →
  calculateAvailabilityScore project researcher <= 5.
Proof.
  intros Hs Ha. unfold calculateAvailabilityScore. rewrite Hs, Ha. cbv zeta.
  destruct (_ <? _)%Z; lra.
Qed.

Lemma calculateAvailabilityScore_missing_date_witness :
  calculateAvailabilityScore
    (mkProject 3 None None None None None None None None (Some 20500%Z) None "open")
    (researcher_fixture None None None None) <= 5.
Proof.
  apply (calculateAvailabilityScore_missing_date
           (mkProject 3 None None None None None None None None (Some 20500%Z) None "open")
           (researcher_fixture None None None None) 20500); reflexivity.
Defined.

(** ** Strengths and concerns *)

Section Tags.

Lemma elem_of_push_if (x : string) (cond : bool) (s : string) :
  x ∈ push_if cond s → cond = true ∧ x = s.
Proof.
  unfold push_if. destruct cond; intros H.
  - apply list_elem_of_singleton in H. now split.
  - now apply not_elem_of_nil in H.
Qed.

Lemma strengths_budget (project : ProjectData) (researcher : ResearcherProfile) :
  "Rate fits within budget"%string
    ∈ Match.strengths (calculateMatchScore project researcher) →
  12 <= Breakdown.budget (Match.breakdown (calculateMatchScore project researcher)).
Proof.
  unfold calculateMatchScore. cbv zeta. cbn [Match.strengths Match.breakdown Breakdown.budget
    Breakdown.expertise Breakdown.methods Breakdown.availability Breakdown.experience].
  intros H. repeat (apply elem_of_app in H as [H | H]).
  - apply elem_of_push_if in H as [_ H]. discriminate H.
  - destruct (Qeq_bool _ 25).
    + apply list_elem_of_singleton in H. discriminate H.
    + apply elem_of_push_if in H as [_ H]. discriminate H.
  - apply elem_of_push_if in H as [H _]. now apply Qle_bool_iff.
  - apply elem_of_push_if in H as [_ H]. discriminate H.
  - apply elem_of_push_if in H as [_ H]. discriminate H.
Qed.

Lemma strengths_methods (project : ProjectData) (researcher : ResearcherProfile) (x : string) :
  x = "All required methods present"%string ∨ x = "Most required methods present"%string →
  x ∈ Match.strengths (calculateMatchScore project researcher) →
  15 <= Breakdown.methods (Match.breakdown (calculateMatchScore project researcher)).
Proof.
  unfold calculateMatchScore. cbv zeta. cbn [Match.strengths Match.breakdown Breakdown.budget
    Breakdown.expertise Breakdown.methods Breakdown.availability Breakdown.experience].
  intros Hx H. repeat (apply elem_of_app in H as [H | H]).
  - apply elem_of_push_if in H as [_ H]. destruct Hx; subst x; discriminate H.
  - destruct (Qeq_bool _ 25) eqn:E.
    + apply Qeq_bool_eq in E. rewrite E. discriminate.
    + apply elem_of_push_if in H as [H _]. now apply Qle_bool_iff.
  - apply elem_of_push_if in H as [_ H]. destruct Hx; subst x; discriminate H.
  - apply elem_of_push_if in H as [_ H]. destruct Hx; subst x; discriminate H.
  - apply elem_of_push_if in H as [_ H]. destruct Hx; subst x; discriminate H.
Qed.

Lemma strengths_availability (project : ProjectData) (researcher : ResearcherProfile) :
  "Available and has capacity"%string
    ∈ Match.strengths (calculateMatchScore project researcher) →
  Breakdown.availability (Match.breakdown (calculateMatchScore project researcher)) == 10.
Proof.
  unfold calculateMatchScore. cbv zeta. cbn [Match.strengths Match.breakdown Breakdown.budget
    Breakdown.expertise Breakdown.methods Breakdown.availability Breakdown.experience].
  intros H. repeat (apply elem_of_app in H as [H | H]).
  - apply elem_of_push_if in H as [_ H]. discriminate H.
  - destruct (Qeq_bool _ 25).
    + apply list_elem_of_singleton in H. discriminate H.
    + apply elem_of_push_if in H as [_ H]. discriminate H.
  - apply elem_of_push_if in H as [_ H]. discriminate H.
  - apply elem_of_push_if in H as [H _]. now apply Qeq_bool_eq.
  - apply elem_of_push_if in H as [_ H]. discriminate H.
Qed.

Lemma strengths_expertise (project : ProjectData) (researcher : ResearcherProfile) (x : string) :
  String.prefix "Strong" x = true →
  x ∈ Match.strengths (calculateMatchScore project researcher) →
  20 <= Breakdown.expertise (Match.breakdown (calculateMatchScore project researcher)).
Proof.
  unfold calculateMatchScore. cbv zeta. cbn [Match.strengths Match.breakdown Breakdown.budget
    Breakdown.expertise Breakdown.methods Breakdown.availability Breakdown.experience].
  intros Hx H. repeat (apply elem_of_app in H as [H | H]).
  - apply elem_of_push_if in H as [H _]. now apply Qle_bool_iff.
  - destruct (Qeq_bool _ 25).
    + apply list_elem_of_singleton in H. subst x. discriminate Hx.
    + apply elem_of_push_if in H as [_ H]. subst x. discriminate Hx.
  - apply elem_of_push_if in H as [_ H]. subst x. discriminate Hx.
  - apply elem_of_push_if in H as [_ H]. subst x. discriminate Hx.
  - apply elem_of_push_if in H as [_ H]. subst x. discriminate Hx.
Qed.

(** What each concern says about its factor. *)
Lemma concerns_meaning (project : ProjectData) (researcher : ResearcherProfile) :
  let m := calculateMatchScore project researcher in
  let b := Match.breakdown m in
  ("Limited expertise overlap"%string ∈ Match.concerns m → Breakdown.expertise b < 15)
  ∧ ("Missing some required methods"%string ∈ Match.concerns m → Breakdown.methods b < 15)
  ∧ ("Rate may not fit budget"%string ∈ Match.concerns m → Breakdown.budget b < 8)
  ∧ ("May not be available or at capacity"%string ∈ Match.concerns m
     → Breakdown.availability b < 5).
Proof.
  cbv zeta. unfold calculateMatchScore. cbv zeta.
  cbn [Match.concerns Match.breakdown Breakdown.budget
    Breakdown.expertise Breakdown.methods Breakdown.availability Breakdown.experience
    Breakdown.domain].
  assert (Hlt : ∀ x y, negb (Qle_bool y x) = true → x < y).
  { intros x y H. apply Qnot_le_lt. intros Hc. apply Qle_bool_iff in Hc.
    rewrite Hc in H. discriminate H. }
  repeat split; intros H; repeat (apply elem_of_app in H as [H | H]);
    apply elem_of_push_if in H as [Hc H]; try discriminate H; now apply Hlt.
Qed.

End Tags.

(** X17: strengths and concerns never contradict each other: a match is not
    at once praised and blamed for its expertise, its methods, its budget or
    its availability, and it carries at most five strengths and five
    concerns. *)
Theorem calculateMatchScore_tags_consistent
    (project : ProjectData) (researcher : ResearcherProfile) :
  let m := calculateMatchScore project researcher in
  ¬ ((∃ x, String.prefix "Strong" x = true ∧ x ∈ Match.strengths m)
     ∧ "Limited expertise overlap"%string ∈ Match.concerns m)
  ∧ ¬ (("All required methods present"%string ∈ Match.strengths m
        ∨ "Most required methods present"%string ∈ Match.strengths m)
       ∧ "Missing some required methods"%string ∈ Match.concerns m)
  ∧ ¬ ("Rate fits within budget"%string ∈ Match.strengths m
       ∧ "Rate may not fit budget"%string ∈ Match.concerns m)
  ∧ ¬ ("Available and has capacity"%string ∈ Match.strengths m
       ∧ "May not be available or at capacity"%string ∈ Match.concerns m)
  ∧ (length (Match.strengths m) <= 5)%nat
  ∧ (length (Match.concerns m) <= 5)%nat.
Proof.
  cbv zeta. destruct (concerns_meaning project researcher) as (Ce & Cm & Cb & Ca).
  split; [|split; [|split; [|split; [|split]]]].
  - intros [(x & Hx & Hin) Hc]. apply Ce in Hc.
    apply (strengths_expertise _ _ x Hx) in Hin. lra.
  - intros [Hs Hc]. apply Cm in Hc.
    destruct Hs as [Hs | Hs]; eapply strengths_methods in Hs; eauto; lra.
  - intros [Hs Hc]. apply Cb in Hc. apply strengths_budget in Hs. lra.
  - intros [Hs Hc]. apply Ca in Hc. apply strengths_availability in Hs. lra.
  - unfold calculateMatchScore. cbv zeta. cbn [Match.strengths].
    rewrite !length_app. unfold push_if.
    repeat (match goal with |- context [if ?c then _ else _] => destruct c end);
      simpl; lia.
  - unfold calculateMatchScore. cbv zeta. cbn [Match.concerns].
    rewrite !length_app. unfold push_if.
    repeat (match goal with |- context [if ?c then _ else _] => destruct c end);
      simpl; lia.
Qed.

(** ** Candidate pools of the finders *)

Section Pools.

Context {A : Type} (key : A → Z).

Let index (m0 : gmap Z A) (l : list A) : gmap Z A :=
  foldl (λ m a, <[key a := a]> m) m0 l.

Lemma index_lookup (l : list A) (m0 : gmap Z A) (k : Z) (x : A) :
  index m0 l !! k = Some x → (x ∈ l ∧ key x = k) ∨ m0 !! k = Some x.
Proof.
  revert m0. induction l as [|a l IH]; intros m0 H; simpl in H; [now right|].
  apply IH in H as [[Hin Hk] | H].
  - left. split; [now right | exact Hk].
  - apply lookup_insert_Some in H as [[<- <-] | [_ H]].
    + left. split; [now left | reflexivity].
    + now right.
Qed.

Lemma index_keeps (l : list A) (m0 : gmap Z A) (k : Z) :
  is_Some (m0 !! k) → is_Some (index m0 l !! k).
Proof.
  revert m0. induction l as [|a l IH]; intros m0 H; simpl; [exact H|].
  apply IH. apply lookup_insert_is_Some. destruct (decide (key a = k)); tauto.
Qed.

Lemma index_is_Some (l : list A) (m0 : gmap Z A) (x : A) :
  x ∈ l → is_Some (index m0 l !! key x).
Proof.
  revert m0. induction l as [|a l IH]; intros m0 H; [now apply not_elem_of_nil in H|].
  simpl. apply elem_of_cons in H as [-> | H]; [|now apply IH].
  apply index_keeps. rewrite lookup_insert_eq. eauto.
Qed.

(** With unique keys the index answers like a search of the list. *)
Lemma index_find (l : list A) (m0 : gmap Z A) (k : Z) :
  NoDup (key <$> l) →
  index m0 l !! k
  = match List.find (λ a, (key a =? k)%Z) l with
    | Some a => Some a
    | None => m0 !! k
    end.
Proof.
  revert m0. induction l as [|a l IH]; intros m0 Hnd; simpl; [reflexivity|].
  rewrite fmap_cons in Hnd. apply NoDup_cons in Hnd as [Hnotin Hnd].
  rewrite (IH _ Hnd). destruct (Z.eqb_spec (key a) k) as [<- | Hne].
  - destruct (List.find _ l) as [b|] eqn:E.
    + exfalso. apply List.find_some in E as [Hin Hb].
      apply Z.eqb_eq in Hb. apply Hnotin. rewrite <- Hb.
      apply list_elem_of_fmap_2. now apply list_elem_of_In.
    + apply lookup_insert_eq.
  - destruct (List.find _ l); [reflexivity|]. now apply lookup_insert_ne.
Qed.

End Pools.

Section FinderPools.

Lemma find_filter {A} (f : A → bool) (P : A → Prop) `{∀ x, Decision (P x)} (l : list A) :
  (∀ x, f x = true → P x) → List.find f (filter P l) = List.find f l.
Proof.
  intros HfP. induction l as [|a l IH]; [reflexivity|].
  rewrite filter_cons. destruct (decide (P a)) as [HP | HP]; simpl.
  - now rewrite IH.
  - destruct (f a) eqn:E; [now destruct HP; apply HfP | exact IH].
Qed.

Lemma length_omap_filter {A B} (f : A → option B) (P : A → Prop)
    `{∀ x, Decision (P x)} (l : list A) :
  Forall (λ x, is_Some (f x) ↔ P x) l → length (omap f l) = length (filter P l).
Proof.
  induction 1 as [|a l Ha _ IH]; [reflexivity|].
  change (omap f (a :: l))
    with (match f a with Some y => y :: omap f l | None => omap f l end).
  rewrite filter_cons. destruct (f a) as [b|] eqn:E.
  - rewrite decide_True by (apply Ha; eauto). rewrite !length_cons. now rewrite IH.
  - rewrite decide_False; [exact IH|]. intros HP. apply Ha in HP as [b Hb]. congruence.
Qed.

(** The users the project-side finder keeps in [userMap] are the active,
    undeleted accounts of researchers. *)
Lemma userMap_active (db : Database) (researcher : ResearcherProfile) :
  researcher ∈ researcher_profiles db →
  is_Some (foldl (λ m user, <[id user := user]> m) (∅ : gmap Z User)
             (User_findAll_active db
                (filter (λ i, i ≠ 0%Z) (map user_id (ResearcherProfile_findAll db))))
           !! user_id researcher)
  ↔ has_active_account db researcher.
Proof.
  intros Hin. unfold has_active_account, User_findAll_active, ResearcherProfile_findAll.
  rewrite Exists_exists. split.
  - intros [u Hu]. apply index_lookup in Hu as [[Hu Hid] | Hu];
      [|rewrite lookup_empty in Hu; discriminate].
    apply list_elem_of_filter in Hu as [(Hids & Hact & Hdel) Hu].
    apply list_elem_of_filter in Hids as [Hnz _]. rewrite Hid in Hnz.
    split; [exact Hnz|]. exists u. tauto.
  - intros [Hnz (u & Hu & Hid & Hact & Hdel)]. rewrite <- Hid.
    apply index_is_Some. apply list_elem_of_filter. split; [|exact Hu].
    split; [|tauto]. apply list_elem_of_filter. rewrite Hid. split; [exact Hnz|].
    change (map user_id ?l) with (user_id <$> l). now apply list_elem_of_fmap_2.
Qed.

(** What an entry of the project-side pool is. *)
Lemma scoreResearchers_entry (db : Database) (project : Project)
    (m : MatchEntry ResearcherSummary) :
  m ∈ scoreResearchers db project →
  ∃ researcher,
    researcher ∈ researcher_profiles db
    ∧ has_active_account db researcher
    ∧ rs_user_id (subject m) = user_id researcher
    ∧ matchScore m = Match.totalScore (pairScore db project researcher)
    ∧ scoreBreakdown m = Match.breakdown (pairScore db project researcher)
    ∧ hasApplied m = false ∧ isBookmarked m = false.
Proof.
  unfold scoreResearchers. cbv zeta. intros Hm.
  apply list_elem_of_omap in Hm as (researcher & Hin & Hsome).
  exists researcher. split; [exact Hin|].
  split.
  { apply userMap_active; [exact Hin|].
    destruct (_ !! user_id researcher) as [u|]; [eauto | discriminate]. }
  destruct (_ !! user_id researcher) as [u|]; simpl in Hsome; [|discriminate].
  injection Hsome as <-. repeat split; reflexivity.
Qed.

Lemma length_scoreResearchers (db : Database) (project : Project) :
  length (scoreResearchers db project)
  = length (filter (has_active_account db) (researcher_profiles db)).
Proof.
  unfold scoreResearchers. cbv zeta. apply length_omap_filter.
  apply Forall_forall. intros researcher Hin.
  rewrite <- (userMap_active db researcher Hin).
  destruct (_ !! user_id researcher) as [u|]; simpl; split; intros [x Hx]; eauto;
    discriminate.
Qed.

(** The organization the researcher-side finder attaches to a project. *)
Lemma orgMap_lookup (db : Database) (project : Project) :
  NoDup (org_pk <$> organizations db) →
  project ∈ Project_findAll_open db →
  org_id project
  ≫= (foldl (λ m org, <[org_pk org := org]> m) (∅ : gmap Z Organization)
        (Organization_findAll db
           (filter (λ i, i ≠ 0%Z) (omap org_id (Project_findAll_open db)))) !!.)
  = organization_of db project.
Proof.
  intros Hnd Hin. unfold organization_of, Organization_findAll.
  destruct (org_id project) as [i|] eqn:Ei; simpl; [|reflexivity].
  rewrite index_find.
  2:{ apply (sublist_NoDup _ _ Hnd). apply fmap_sublist, sublist_filter. }
  rewrite lookup_empty. destruct (Z.eqb_spec i 0) as [-> | Hnz]; simpl.
  - destruct (List.find _ _) as [o|] eqn:E; [|reflexivity]. exfalso.
    apply List.find_some in E as [Ho Hk]. apply list_elem_of_In in Ho.
    apply list_elem_of_filter in Ho as [Hids _].
    apply list_elem_of_filter in Hids as [Hnz _]. apply Z.eqb_eq in Hk. congruence.
  - unfold Organization_findByPk. rewrite find_filter.
    + now destruct (List.find _ _).
    + intros o Ho. apply Z.eqb_eq in Ho. rewrite Ho.
      apply list_elem_of_filter. split; [exact Hnz|].
      apply list_elem_of_omap. eauto.
Qed.

End FinderPools.

Section Pages.

Context {S : Type}.

Lemma slice_sublist {A} (l : list A) (start end_ : Z) :
  JS.slice l start end_ `sublist_of` l.
Proof.
  unfold JS.slice. cbv zeta. etrans; [apply sublist_take | apply sublist_drop].
Qed.

Lemma page_sublist (candidates : list (MatchEntry S)) (options : Options) :
  ∃ ranked,
    matches (filterSortPaginate candidates options) `sublist_of` ranked
    ∧ ranked ≡ₚ filter (λ m, opt_minScore options <= matchScore m) candidates.
Proof.
  unfold filterSortPaginate. cbv zeta. rewrite filter_minScore.
  eexists. split; [apply slice_sublist | apply (sort_perm matchScore)].
Qed.

Lemma page_elem (candidates : list (MatchEntry S)) (options : Options)
    (m : MatchEntry S) :
  m ∈ matches (filterSortPaginate candidates options) →
  m ∈ candidates ∧ opt_minScore options <= matchScore m.
Proof.
  intros Hm. destruct (page_sublist candidates options) as (ranked & Hsub & Hperm).
  eapply elem_of_sublist in Hm; [|exact Hsub]. rewrite Hperm in Hm.
  apply list_elem_of_filter in Hm. tauto.
Qed.

Lemma page_total (candidates : list (MatchEntry S)) (options : Options) :
  total (pagination (filterSortPaginate candidates options))
  = Z.of_nat (length (filter (λ m, opt_minScore options <= matchScore m) candidates)).
Proof.
  unfold filterSortPaginate. cbv zeta. rewrite filter_minScore. simpl. f_equal.
  now rewrite (sort_perm matchScore).
Qed.

Lemma page_window (candidates : list (MatchEntry S)) (options : Options) :
  (0 <= opt_offset options)%Z → (0 <= opt_limit options)%Z →
  matches (filterSortPaginate candidates options)
  = take (Z.to_nat (opt_limit options))
         (drop (Z.to_nat (opt_offset options))
               (JS.sort (λ a b, matchScore b - matchScore a)
                  (filter (λ m, opt_minScore options <= matchScore m) candidates))).
Proof.
  intros Ho Hl. unfold filterSortPaginate. cbv zeta. rewrite filter_minScore. simpl.
  now apply slice_window.
Qed.

Lemma page_length (candidates : list (MatchEntry S)) (options : Options) :
  (0 <= opt_offset options)%Z → (0 <= opt_limit options)%Z →
  let result := filterSortPaginate candidates options in
  Z.of_nat (length (matches result))
  = Z.max 0 (Z.min (opt_limit options) (total (pagination result) - opt_offset options))
  ∧ (hasMore (pagination result) = true →
     Z.of_nat (length (matches result)) = opt_limit options)
  ∧ (hasMore (pagination result) = false →
     Z.of_nat (length (matches result))
     = Z.max 0 (total (pagination result) - opt_offset options)).
Proof.
  intros Ho Hl. cbv zeta. rewrite page_window, page_total by assumption.
  rewrite length_take, length_drop, (sort_perm matchScore).
  unfold filterSortPaginate. cbv zeta. rewrite filter_minScore. simpl.
  rewrite (sort_perm matchScore).
  set (n := length (filter _ candidates)).
  split; [lia|]. split; intros H.
  - apply Z.ltb_lt in H. lia.
  - apply Z.ltb_ge in H. lia.
Qed.

End Pages.

Section Scores.

Lemma totalScore_nonneg (project : ProjectData) (researcher : ResearcherProfile) :
  0 <= Match.totalScore (calculateMatchScore project researcher).
Proof.
  unfold calculateMatchScore. cbv zeta. simpl.
  match goal with
  | |- context [calculateExpertiseScore ?a ?b] =>
      pose proof (calculateExpertiseScore_sub_score a b) as [_ [E0 _]]
  end.
  pose proof (calculateMethodsScore_sub_score
                (methods_required project) (methods researcher)) as [_ [M0 _]].
  pose proof (calculateBudgetScore_sub_score project researcher) as [_ [B0 _]].
  pose proof (calculateAvailabilityScore_sub_score project researcher) as [_ [A0 _]].
  pose proof (calculateExperienceScore_sub_score
                (projects_completed researcher)) as [_ [X0 _]].
  pose proof (calculateDomainScore_sub_score
                (organization project ≫= focus_areas) (domains researcher))
    as [_ [D0 _]].
  match goal with
  | |- 0 <= JS.Math_round (?x * 10) / 10 =>
      assert (Hx : 0 <= x) by lra;
      pose proof (round_mono 0 x Hx) as Hr
  end.
  eapply Qle_trans; [|exact Hr]. vm_compute. discriminate.
Qed.

End Scores.

(** X18: every match that [findMatchesForProject] returns scores at least
    [minScore], belongs to a researcher profile whose user is an active
    account that was not deleted, carries the total of [calculateMatchScore]
    for that researcher and the project, and is flagged neither as applied
    nor as bookmarked. *)
Theorem findMatchesForProject_matches
    (db : Database) (projectId : Z) (options : Options)
    (result : FinderResult ResearcherSummary) :
  findMatchesForProject db projectId options = inr result →
  ∃ project,
    Project_findByPk db projectId = Some project
    ∧ Forall (λ m, opt_minScore options <= matchScore m
                   ∧ hasApplied m = false ∧ isBookmarked m = false
                   ∧ ∃ researcher,
                       researcher ∈ researcher_profiles db
                       ∧ has_active_account db researcher
                       ∧ rs_user_id (subject m) = user_id researcher
                       ∧ matchScore m
                         = Match.totalScore (pairScore db project researcher))
             (matches result).
Proof.
  unfold findMatchesForProject. intros H.
  destruct (Project_findByPk db projectId) as [project|]; [|discriminate].
  injection H as <-. exists project. split; [reflexivity|].
  apply Forall_forall. intros m Hm. apply page_elem in Hm as [Hm Hmin].
  apply scoreResearchers_entry in Hm as (r & Hin & Hact & Hid & Hscore & _ & Ha & Hb).
  split; [exact Hmin|]. split; [exact Ha|]. split; [exact Hb|].
  exists r. tauto.
Qed.

Lemma findMatchesForProject_matches_witness :
  ∃ project,
    Project_findByPk db_fixture 1 = Some project
    ∧ Forall (λ m, opt_minScore (mkOptions 20 0 50) <= matchScore m
                   ∧ hasApplied m = false ∧ isBookmarked m = false
                   ∧ ∃ researcher,
                       researcher ∈ researcher_profiles db_fixture
                       ∧ has_active_account db_fixture researcher
                       ∧ rs_user_id (subject m) = user_id researcher
                       ∧ matchScore m
                         = Match.totalScore (pairScore db_fixture project researcher))
             (matches (filterSortPaginate
                         (scoreResearchers db_fixture
                            (project_fixture (Some 5000) (Some 10000) (Some 100%Z)))
                         (mkOptions 20 0 50))).
Proof.
  apply (findMatchesForProject_matches db_fixture 1 (mkOptions 20 0 50)).
  reflexivity.
Defined.

(** X19: every match that [findMatchesForResearcher] returns is an open
    project of the database and scores at least [minScore] (50 when the
    caller gives none). *)
Theorem findMatchesForResearcher_matches
    (db : Database) (researcherId : Z) (options : PartialOptions)
    (result : FinderResult ProjectSummary) :
  findMatchesForResearcher db researcherId options = inr result →
  Forall (λ m, default 50 (po_minScore options) <= matchScore m
               ∧ ∃ project,
                   project ∈ projects db ∧ status project = "open"%string
                   ∧ ps_project_id (subject m) = project_id project)
         (matches result).
Proof.
  unfold findMatchesForResearcher. intros H.
  destruct (ResearcherProfile_findOne db researcherId) as [researcher|]; [|discriminate].
  injection H as <-. apply Forall_forall. intros m Hm.
  apply page_elem in Hm as [Hm Hmin]. split; [exact Hmin|].
  unfold scoreProjects in Hm. cbv zeta in Hm.
  change (map ?f ?l) with (f <$> l) in Hm.
  apply list_elem_of_fmap in Hm as (project & -> & Hin).
  apply list_elem_of_filter in Hin as [Hopen Hin]. exists project. tauto.
Qed.

Lemma findMatchesForResearcher_matches_witness :
  Forall (λ m, default 50 (po_minScore (mkPartialOptions None None None)) <= matchScore m
               ∧ ∃ project,
                   project ∈ projects db_fixture ∧ status project = "open"%string
                   ∧ ps_project_id (subject m) = project_id project)
         (matches (filterSortPaginate
                     (scoreProjects db_fixture
                        (researcher_fixture (Some 50) (Some 100) None None))
                     (withDefaults (mkPartialOptions None None None)))).
Proof.
  apply (findMatchesForResearcher_matches db_fixture 7 (mkPartialOptions None None None)).
  reflexivity.
Defined.

(** X20: with a non-negative offset and limit, a page of either finder holds
    [min(limit, total - offset)] matches (none when the offset is past the
    total); when [hasMore] is set the page is full, and when it is not the
    page holds everything from the offset on. *)
Theorem finders_page_size
    (db : Database) (projectId researcherId : Z) (options : Options)
    (r1 : FinderResult ResearcherSummary) (r2 : FinderResult ProjectSummary) :
  (0 <= opt_offset options)%Z → (0 <= opt_limit options)%Z →
  findMatchesForProject db projectId options = inr r1 →
  findMatchesForResearcher db researcherId
    (mkPartialOptions (Some (opt_limit options)) (Some (opt_offset options))
                      (Some (opt_minScore options))) = inr r2 →
  (Z.of_nat (length (matches r1))
   = Z.max 0 (Z.min (opt_limit options) (total (pagination r1) - opt_offset options))
   ∧ (hasMore (pagination r1) = true → Z.of_nat (length (matches r1)) = opt_limit options)
   ∧ (hasMore (pagination r1) = false →
      Z.of_nat (length (matches r1))
      = Z.max 0 (total (pagination r1) - opt_offset options)))
  ∧ (Z.of_nat (length (matches r2))
     = Z.max 0 (Z.min (opt_limit options) (total (pagination r2) - opt_offset options))
     ∧ (hasMore (pagination r2) = true → Z.of_nat (length (matches r2)) = opt_limit options)
     ∧ (hasMore (pagination r2) = false →
        Z.of_nat (length (matches r2))
        = Z.max 0 (total (pagination r2) - opt_offset options))).
Proof.
  intros Ho Hl H1 H2. unfold findMatchesForProject in H1.
  unfold findMatchesForResearcher in H2.
  destruct (Project_findByPk db projectId) as [project|]; [|discriminate].
  destruct (ResearcherProfile_findOne db researcherId) as [researcher|]; [|discriminate].
  injection H1 as <-. injection H2 as <-.
  split; [now apply page_length|].
  destruct options as [l o s]. now apply (page_length _ (mkOptions l o s)).
Qed.

Lemma finders_page_size_witness :
  let options := mkOptions 1 0 50 in
  let r1 := filterSortPaginate
              (scoreResearchers db_fixture
                 (project_fixture (Some 5000) (Some 10000) (Some 100%Z))) options in
  let r2 := filterSortPaginate
              (scoreProjects db_fixture (researcher_fixture (Some 50) (Some 100) None None))
              options in
  (Z.of_nat (length (matches r1))
   = Z.max 0 (Z.min (opt_limit options) (total (pagination r1) - opt_offset options))
   ∧ (hasMore (pagination r1) = true → Z.of_nat (length (matches r1)) = opt_limit options)
   ∧ (hasMore (pagination r1) = false →
      Z.of_nat (length (matches r1))
      = Z.max 0 (total (pagination r1) - opt_offset options)))
  ∧ (Z.of_nat (length (matches r2))
     = Z.max 0 (Z.min (opt_limit options) (total (pagination r2) - opt_offset options))
     ∧ (hasMore (pagination r2) = true → Z.of_nat (length (matches r2)) = opt_limit options)
     ∧ (hasMore (pagination r2) = false →
        Z.of_nat (length (matches r2))
        = Z.max 0 (total (pagination r2) - opt_offset options))).
Proof.
  cbv zeta.
  apply (finders_page_size db_fixture 1 7 (mkOptions 1 0 50));
    first [reflexivity | simpl; lia].
Defined.

(** X21: consecutive pages fit together: the page of [a] matches at an offset
    followed by the page of [b] matches at that offset plus [a] is the page of
    [a + b] matches at the offset; nothing is lost or repeated between pages. *)
Theorem findMatchesForProject_pages_compose
    (db : Database) (projectId offset a b : Z) (minScore : Q)
    (r1 r2 r12 : FinderResult ResearcherSummary) :
  (0 <= offset)%Z → (0 <= a)%Z → (0 <= b)%Z →
  findMatchesForProject db projectId (mkOptions a offset minScore) = inr r1 →
  findMatchesForProject db projectId (mkOptions b (offset + a) minScore) = inr r2 →
  findMatchesForProject db projectId (mkOptions (a + b) offset minScore) = inr r12 →
  matches r12 = matches r1 ++ matches r2.
Proof.
  intros Ho Ha Hb H1 H2 H12. unfold findMatchesForProject in *.
  destruct (Project_findByPk db projectId) as [project|]; [|discriminate].
  injection H1 as <-. injection H2 as <-. injection H12 as <-.
  rewrite !page_window by (simpl; lia). simpl.
  rewrite Z2Nat.inj_add, Z2Nat.inj_add by lia.
  rewrite <- drop_drop. apply eq_sym, take_take_drop.
Qed.

Lemma findMatchesForProject_pages_compose_witness :
  let pool := scoreResearchers db_fixture
                (project_fixture (Some 5000) (Some 10000) (Some 100%Z)) in
  matches (filterSortPaginate pool (mkOptions (1 + 1) 0 50))
  = matches (filterSortPaginate pool (mkOptions 1 0 50))
    ++ matches (filterSortPaginate pool (mkOptions 1 (0 + 1) 50)).
Proof.
  cbv zeta.
  apply (findMatchesForProject_pages_compose db_fixture 1 0 1 1 50);
    first [reflexivity | lia].
Defined.

(** X22: raising [minScore] never adds matches: the total reported for a
    higher bar is at most the total reported for a lower one. *)
Theorem findMatchesForProject_total_antitone
    (db : Database) (projectId limit offset limit' offset' : Z) (s s' : Q)
    (r r' : FinderResult ResearcherSummary) :
  s <= s' →
  findMatchesForProject db projectId (mkOptions limit offset s) = inr r →
  findMatchesForProject db projectId (mkOptions limit' offset' s') = inr r' →
  (total (pagination r') <= total (pagination r))%Z.
Proof.
  intros Hs H H'. unfold findMatchesForProject in *.
  destruct (Project_findByPk db projectId) as [project|]; [|discriminate].
  injection H as <-. injection H' as <-. rewrite !page_total. simpl.
  apply inj_le, length_filter_mono. intros m Hm. lra.
Qed.

Lemma findMatchesForProject_total_antitone_witness :
  let pool := scoreResearchers db_fixture
                (project_fixture (Some 5000) (Some 10000) (Some 100%Z)) in
  (total (pagination (filterSortPaginate pool (mkOptions 20 0 80)))
   <= total (pagination (filterSortPaginate pool (mkOptions 20 0 50))))%Z.
Proof.
  cbv zeta.
  apply (findMatchesForProject_total_antitone db_fixture 1 20 0 20 0 50 80);
    [discriminate | reflexivity | reflexivity].
Defined.

(** X23: with a [minScore] of 0 or less nobody is filtered out: the total of
    [findMatchesForProject] is the number of researcher profiles whose user is
    an active, undeleted account, and the total of [findMatchesForResearcher]
    is the number of open projects. *)
Theorem finders_total_without_bar
    (db : Database) (projectId researcherId limit offset : Z) (minScore : Q)
    (r1 : FinderResult ResearcherSummary) (r2 : FinderResult ProjectSummary) :
  minScore <= 0 →
  findMatchesForProject db projectId (mkOptions limit offset minScore) = inr r1 →
  findMatchesForResearcher db researcherId
    (mkPartialOptions (Some limit) (Some offset) (Some minScore)) = inr r2 →
  total (pagination r1)
  = Z.of_nat (length (filter (has_active_account db) (researcher_profiles db)))
  ∧ total (pagination r2)
    = Z.of_nat (length (filter (λ p, status p = "open"%string) (projects db))).
Proof.
  intros Hs H1 H2. unfold findMatchesForProject in H1.
  unfold findMatchesForResearcher in H2.
  destruct (Project_findByPk db projectId) as [project|]; [|discriminate].
  destruct (ResearcherProfile_findOne db researcherId) as [researcher|]; [|discriminate].
  injection H1 as <-. injection H2 as <-. rewrite !page_total. simpl. split; f_equal.
  - rewrite filter_all; [apply length_scoreResearchers|].
    apply Forall_forall. intros m Hm.
    apply scoreResearchers_entry in Hm as (r & _ & _ & _ & -> & _).
    pose proof (totalScore_nonneg (mkProjectData project (organization_of db project)) r).
    unfold pairScore. lra.
  - rewrite filter_all; [unfold scoreProjects; cbv zeta; apply length_map|].
    apply Forall_forall. intros m Hm. unfold scoreProjects in Hm. cbv zeta in Hm.
    change (map ?f ?l) with (f <$> l) in Hm.
    apply list_elem_of_fmap in Hm as (p & -> & _). cbv zeta. cbn [matchScore].
    match goal with
    | |- _ <= Match.totalScore (calculateMatchScore ?pd ?r) =>
        pose proof (totalScore_nonneg pd r)
    end. lra.
Qed.

Lemma finders_total_without_bar_witness :
  total (pagination
           (filterSortPaginate
              (scoreResearchers db_fixture
                 (project_fixture (Some 5000) (Some 10000) (Some 100%Z)))
              (mkOptions 20 0 0)))
  = Z.of_nat (length (filter (has_active_account db_fixture)
                             (researcher_profiles db_fixture)))
  ∧ total (pagination
             (filterSortPaginate
                (scoreProjects db_fixture
                   (researcher_fixture (Some 50) (Some 100) None None))
                (withDefaults (mkPartialOptions (Some 20%Z) (Some 0%Z) (Some 0)))))
    = Z.of_nat (length (filter (λ p, status p = "open"%string) (projects db_fixture))).
Proof.
  apply (finders_total_without_bar db_fixture 1 7 20 0 0);
    [discriminate | reflexivity | reflexivity].
Defined.

(** X24: when organization ids are unique, the two finders score a pair alike:
    for an open project and a researcher with an active account, the entry
    the project-side finder builds for the researcher and the entry the
    researcher-side finder builds for the project carry the same total and
    the same breakdown. *)
Theorem finders_score_pairs_alike
    (db : Database) (project : Project) (researcher : ResearcherProfile) :
  NoDup (org_pk <$> organizations db) →
  project ∈ projects db → status project = "open"%string →
  researcher ∈ researcher_profiles db → has_active_account db researcher →
  ∃ m1 m2,
    m1 ∈ scoreResearchers db project ∧ m2 ∈ scoreProjects db researcher
    ∧ rs_user_id (subject m1) = user_id researcher
    ∧ ps_project_id (subject m2) = project_id project
    ∧ matchScore m1 = matchScore m2
    ∧ scoreBreakdown m1 = scoreBreakdown m2
    ∧ matchScore m1 = Match.totalScore (pairScore db project researcher).
Proof.
  intros Hnd Hp Hopen Hr Hact.
  assert (Hpo : project ∈ Project_findAll_open db).
  { apply list_elem_of_filter. now split. }
  apply (userMap_active db researcher Hr) in Hact as [u Hu].
  eexists _, _. split; [|split].
  - unfold scoreResearchers. cbv zeta. apply list_elem_of_omap.
    exists researcher. split; [exact Hr|]. rewrite Hu. reflexivity.
  - unfold scoreProjects. cbv zeta. change (map ?f ?l) with (f <$> l).
    apply list_elem_of_fmap. exists project. split; [reflexivity | exact Hpo].
  - cbn [subject rs_user_id ps_project_id matchScore scoreBreakdown].
    rewrite (orgMap_lookup db project Hnd Hpo). repeat split; reflexivity.
Qed.

Lemma finders_score_pairs_alike_witness :
  ∃ m1 m2,
    m1 ∈ scoreResearchers db_fixture
           (project_fixture (Some 5000) (Some 10000) (Some 100%Z))
    ∧ m2 ∈ scoreProjects db_fixture (researcher_fixture (Some 50) (Some 100) None None)
    ∧ rs_user_id (subject m1)
      = user_id (researcher_fixture (Some 50) (Some 100) None None)
    ∧ ps_project_id (subject m2)
      = project_id (project_fixture (Some 5000) (Some 10000) (Some 100%Z))
    ∧ matchScore m1 = matchScore m2
    ∧ scoreBreakdown m1 = scoreBreakdown m2
    ∧ matchScore m1
      = Match.totalScore
          (pairScore db_fixture (project_fixture (Some 5000) (Some 10000) (Some 100%Z))
                     (researcher_fixture (Some 50) (Some 100) None None)).
Proof.
  apply (finders_score_pairs_alike db_fixture
           (project_fixture (Some 5000) (Some 10000) (Some 100%Z))
           (researcher_fixture (Some 50) (Some 100) None None)).
  - simpl. repeat constructor. intros H. now apply not_elem_of_nil in H.
  - unfold db_fixture; simpl. now left.
  - reflexivity.
  - unfold db_fixture; simpl. now left.
  - split; [simpl; lia|]. unfold db_fixture; simpl. apply Exists_cons_hd.
    repeat split.
Defined.

Lemma omap_keys_sublist {A B} (g : A → option B) (f : B → Z) (key : A → Z)
    (l : list A) :
  (∀ a b, g a = Some b → f b = key a) → f <$> omap g l `sublist_of` key <$> l.
Proof.
  intros H. induction l as [|a l IH]; [reflexivity|].
  change (omap g (a :: l))
    with (match g a with Some y => y :: omap g l | None => omap g l end).
  rewrite fmap_cons. destruct (g a) as [b|] eqn:E.
  - rewrite fmap_cons, (H a b E). now apply sublist_skip.
  - now apply sublist_cons.
Qed.

(** X25: when no two researcher profiles share a user id, no researcher
    appears twice among the matches of a project. *)
Theorem findMatchesForProject_no_duplicates
    (db : Database) (projectId : Z) (options : Options)
    (result : FinderResult ResearcherSummary) :
  NoDup (user_id <$> researcher_profiles db) →
  findMatchesForProject db projectId options = inr result →
  NoDup ((λ m, rs_user_id (subject m)) <$> matches result).
Proof.
  intros Hnd H. unfold findMatchesForProject in H.
  destruct (Project_findByPk db projectId) as [project|]; [|discriminate].
  injection H as <-.
  destruct (page_sublist (scoreResearchers db project) options) as (ranked & Hsub & Hperm).
  apply (sublist_NoDup _ ((λ m, rs_user_id (subject m)) <$> ranked));
    [|now apply fmap_sublist].
  rewrite Hperm.
  apply (sublist_NoDup _ ((λ m, rs_user_id (subject m)) <$> scoreResearchers db project));
    [|apply fmap_sublist, sublist_filter].
  apply (sublist_NoDup _ _ Hnd).
  unfold scoreResearchers, ResearcherProfile_findAll. cbv zeta.
  apply omap_keys_sublist. intros r e He.
  destruct (_ !! user_id r) as [u|]; simpl in He; [|discriminate].
  now injection He as <-.
Qed.

Lemma findMatchesForProject_no_duplicates_witness :
  NoDup ((λ m, rs_user_id (subject m))
         <$> matches (filterSortPaginate
                        (scoreResearchers db_fixture
                           (project_fixture (Some 5000) (Some 10000) (Some 100%Z)))
                        (mkOptions 20 0 50))).
Proof.
  apply (findMatchesForProject_no_duplicates db_fixture 1 (mkOptions 20 0 50)).
  - simpl. repeat (constructor; [rewrite ?elem_of_cons, elem_of_nil; intros H;
                                 repeat destruct H as [H | H]; try discriminate H; exact H|]).
    constructor.
  - reflexivity.
Defined.

(** ** Match handlers *)

Section Handlers.

Lemma include_None (db : Database) (projectId : Z) :
  Project_findByPk_include db projectId = None ↔ Project_findByPk db projectId = None.
Proof.
  unfold Project_findByPk_include.
  destruct (Project_findByPk db projectId); simpl; split; congruence.
Qed.

End Handlers.

Lemma page_bounds {S} (candidates : list (MatchEntry S)) (query : MatchQuery) :
  let result := filterSortPaginate candidates (validatedOptions query) in
  (1 <= limit (pagination result) <= 100)%Z ∧ (0 <= offset (pagination result))%Z
  ∧ (Z.of_nat (length (matches result)) <= limit (pagination result))%Z.
Proof.
  cbv zeta. pose proof (validatedOptions_range query) as [Hl [Ho _]].
  destruct (page_length candidates (validatedOptions query)) as [Hlen _]; [lia..|].
  cbv zeta in Hlen. rewrite Hlen.
  change (limit (pagination (filterSortPaginate candidates (validatedOptions query))))
    with (opt_limit (validatedOptions query)).
  change (offset (pagination (filterSortPaginate candidates (validatedOptions query))))
    with (opt_offset (validatedOptions query)).
  pose proof (page_total candidates (validatedOptions query)) as Ht.
  split; [exact Hl|]. split; [exact Ho|]. lia.
Qed.

(** X26: a [minScore] of 0 cannot be asked for: a query value of 0 is replaced
    by the default 50 like a missing one, so both handlers answer a request
    for [minScore=0] exactly as a request without [minScore]; the validated
    bar is 0 only for a negative query value. *)
Theorem handlers_zero_minScore
    (db : Database) (projectId : Z) (limit offset : option Z) (minScore : option Q)
    (user : option ReqUser) :
  getProjectMatches db
    (mkMatchesRequest projectId (mkMatchQuery limit offset (Some 0)) user)
  = getProjectMatches db
      (mkMatchesRequest projectId (mkMatchQuery limit offset None) user)
  ∧ getResearcherMatches db
      (mkMatchesRequest projectId (mkMatchQuery limit offset (Some 0)) user)
    = getResearcherMatches db
        (mkMatchesRequest projectId (mkMatchQuery limit offset None) user)
  ∧ opt_minScore (validatedOptions (mkMatchQuery limit offset None)) == 50
  ∧ (opt_minScore (validatedOptions (mkMatchQuery limit offset minScore)) == 0
     ↔ ∃ x, minScore = Some x ∧ x < 0).
Proof.
  split; [reflexivity|]. split; [reflexivity|]. split; [vm_compute; reflexivity|].
  unfold validatedOptions, JS.Math_max, JS.Math_min, JS.num_or, JS.parseFloat. simpl.
  destruct minScore as [x|]; split.
  - intros H. exists x. split; [reflexivity|].
    destruct (Qeq_bool x 0) eqn:E.
    + exfalso. revert H. vm_compute. discriminate.
    + apply Qeq_bool_neq in E.
      pose proof (Q.le_max_l (Qmin x 100) 0). pose proof (Q.le_min_l x 100).
      destruct (Q.min_dec x 100) as [Hm | Hm].
      * rewrite Hm in *. apply Qnot_le_lt. intros Hc.
        apply E. apply Qle_antisym; [|exact Hc]. rewrite <- H. apply Q.le_max_l.
      * exfalso. assert (Qmax (Qmin x 100) 0 == 100).
        { rewrite Hm. apply Q.max_l. discriminate. }
        rewrite H in *. discriminate.
  - intros (y & [= <-] & Hy).
    destruct (Qeq_bool x 0) eqn:E; [apply Qeq_bool_eq in E; lra|].
    rewrite Q.min_l by lra. apply Q.max_r. lra.
  - vm_compute. discriminate.
  - intros (y & [=] & _).
Qed.

(** X27: whatever the query, a successful answer of either handler reports a
    limit between 1 and 100 and a non-negative offset, and carries no more
    matches than that limit. *)
Theorem handlers_respect_limits
    (db : Database) (req1 req2 : MatchesRequest)
    (ms1 : list (MatchEntry ResearcherSummary)) (pg1 : Pagination)
    (info1 : Z * option string * string)
    (ms2 : list (MatchEntry ProjectSummary)) (pg2 : Pagination) (info2 : Z * string) :
  getProjectMatches db req1 = MatchesSuccess ms1 pg1 info1 →
  getResearcherMatches db req2 = MatchesSuccess ms2 pg2 info2 →
  ((1 <= limit pg1 <= 100)%Z ∧ (0 <= offset pg1)%Z
   ∧ (Z.of_nat (length ms1) <= limit pg1)%Z)
  ∧ ((1 <= limit pg2 <= 100)%Z ∧ (0 <= offset pg2)%Z
     ∧ (Z.of_nat (length ms2) <= limit pg2)%Z).
Proof.
  intros H1 H2. split.
  - unfold getProjectMatches in H1. cbv zeta in H1.
    destruct (Project_findByPk_include db _); [|discriminate].
    destruct (mr_user req1); [|discriminate].
    unfold findMatchesForProject in H1.
    destruct (Project_findByPk db _) as [project|]; [|discriminate].
    pose proof (page_bounds (scoreResearchers db project) (mr_query req1)) as Hb.
    remember (filterSortPaginate (scoreResearchers db project)
                (validatedOptions (mr_query req1))) as R.
    injection H1 as <- <- _. exact Hb.
  - unfold getResearcherMatches in H2. cbv zeta in H2.
    destruct (mr_user req2 ≫= ru_id) as [i|]; [|discriminate].
    destruct (i =? 0)%Z; [discriminate|].
    unfold findMatchesForResearcher in H2.
    destruct (ResearcherProfile_findOne db i) as [r|]; [|discriminate].
    pose proof (page_bounds (scoreProjects db r) (mr_query req2)) as Hb.
    replace (withDefaults _) with (validatedOptions (mr_query req2)) in H2
      by now destruct (validatedOptions (mr_query req2)).
    remember (filterSortPaginate (scoreProjects db r)
                (validatedOptions (mr_query req2))) as R.
    injection H2 as <- <- _. exact Hb.
Qed.

Lemma handlers_respect_limits_witness :
  let req := mkMatchesRequest 1 (mkMatchQuery (Some 1000%Z) (Some (-5)%Z) None)
               (Some (mkReqUser (Some 7%Z) (Some "Ada"%string) None)) in
  let o := validatedOptions (mr_query req) in
  let r1 := filterSortPaginate
              (scoreResearchers db_fixture
                 (project_fixture (Some 5000) (Some 10000) (Some 100%Z))) o in
  let r2 := filterSortPaginate
              (scoreProjects db_fixture (researcher_fixture (Some 50) (Some 100) None None))
              o in
  ((1 <= limit (pagination r1) <= 100)%Z ∧ (0 <= offset (pagination r1))%Z
   ∧ (Z.of_nat (length (matches r1)) <= limit (pagination r1))%Z)
  ∧ ((1 <= limit (pagination r2) <= 100)%Z ∧ (0 <= offset (pagination r2))%Z
     ∧ (Z.of_nat (length (matches r2)) <= limit (pagination r2))%Z).
Proof.
  cbv zeta.
  apply (handlers_respect_limits db_fixture
           (mkMatchesRequest 1 (mkMatchQuery (Some 1000%Z) (Some (-5)%Z) None)
              (Some (mkReqUser (Some 7%Z) (Some "Ada"%string) None)))
           (mkMatchesRequest 1 (mkMatchQuery (Some 1000%Z) (Some (-5)%Z) None)
              (Some (mkReqUser (Some 7%Z) (Some "Ada"%string) None)))
           _ _ (1%Z, Some "Community survey"%string, "open"%string)
           _ _ (7%Z, "Ada undefined"%string));
    reflexivity.
Defined.

(** X28: [getProjectMatches] looks the project up before it looks at the
    caller: it answers 404 exactly when the project is missing, signed in or
    not, 401 only for an existing project, and never 500. *)
Theorem getProjectMatches_failures
    (db : Database) (req : MatchesRequest)
    (status_code : Z) (error : string) (message : option string) :
  getProjectMatches db req = MatchesFailure status_code error message →
  (status_code = 404%Z ∧ Project_findByPk db (param_projectId req) = None)
  ∨ (status_code = 401%Z ∧ mr_user req = None
     ∧ is_Some (Project_findByPk db (param_projectId req))).
Proof.
  unfold getProjectMatches. cbv zeta. intros H.
  destruct (Project_findByPk_include db (param_projectId req)) as [project|] eqn:E.
  - right. assert (Hp : is_Some (Project_findByPk db (param_projectId req))).
    { destruct (Project_findByPk db (param_projectId req)) eqn:E'; [eauto|].
      apply include_None in E'. congruence. }
    destruct (mr_user req); [|injection H as <- _ _; tauto].
    unfold findMatchesForProject in H. destruct Hp as [p Hp]. rewrite Hp in H.
    discriminate H.
  - left. apply include_None in E. injection H as <- _ _. tauto.
Qed.

Lemma getProjectMatches_failures_witness :
  (404%Z = 404%Z ∧ Project_findByPk db_fixture 99 = None)
  ∨ (404%Z = 401%Z
     ∧ mr_user (mkMatchesRequest 99 (mkMatchQuery None None None) None) = None
     ∧ is_Some (Project_findByPk db_fixture 99)).
Proof.
  apply (getProjectMatches_failures db_fixture
           (mkMatchesRequest 99 (mkMatchQuery None None None) None)
           404 "Project not found" None).
  reflexivity.
Defined.

(** X29: [getResearcherMatches] has no 404: a signed-in user without a
    researcher profile gets the 500 answer, with the finder's error as its
    message. *)
Theorem getResearcherMatches_missing_profile
    (db : Database) (req : MatchesRequest) (user : ReqUser) (userId : Z) :
  mr_user req = Some user → ru_id user = Some userId → userId ≠ 0%Z →
  Forall (λ r, user_id r ≠ userId) (researcher_profiles db) →
  getResearcherMatches db req
  = MatchesFailure 500 "Failed to calculate matches"
                   (Some "Researcher profile not found"%string).
Proof.
  intros Hu Hid Hnz Hmissing. unfold getResearcherMatches. cbv zeta.
  rewrite Hu. simpl. rewrite Hid.
  destruct (Z.eqb_spec userId 0); [contradiction|].
  unfold findMatchesForResearcher.
  now rewrite (ResearcherProfile_findOne_missing _ _ Hmissing).
Qed.

Lemma getResearcherMatches_missing_profile_witness :
  getResearcherMatches db_fixture
    (mkMatchesRequest 0 (mkMatchQuery None None None)
       (Some (mkReqUser (Some 42%Z) None None)))
  = MatchesFailure 500 "Failed to calculate matches"
                   (Some "Researcher profile not found"%string).
Proof.
  apply (getResearcherMatches_missing_profile db_fixture
           (mkMatchesRequest 0 (mkMatchQuery None None None)
              (Some (mkReqUser (Some 42%Z) None None)))
           (mkReqUser (Some 42%Z) None None) 42);
    [reflexivity | reflexivity | lia |].
  simpl. repeat constructor; simpl; lia.
Defined.

(** X30: [explainMatch] checks the request before it reads anything: without
    a user, or without one of the two ids, the answer is a 400 or 401 that
    does not depend on what the database holds. *)
Theorem explainMatch_checks_first (db db' : Database) (req : ExplainRequest) :
  req_user req = None ∨ q_projectId req = None ∨ q_researcherId req = None →
  explainMatch db req = explainMatch db' req
  ∧ ∃ status_code error,
      explainMatch db req = Failure status_code error
      ∧ (status_code = 400%Z ∨ status_code = 401%Z).
Proof.
  intros H. unfold explainMatch.
  destruct (q_projectId req) as [p|], (q_researcherId req) as [r|], (req_user req) as [u|];
    try (split; [reflexivity | eexists _, _; split; [reflexivity | tauto]]).
  destruct H as [H | [H | H]]; discriminate H.
Qed.

Lemma explainMatch_checks_first_witness :
  let req := mkExplainRequest (Some 1%Z) (Some 7%Z) None in
  explainMatch db_fixture req = explainMatch db_two_rates req
  ∧ ∃ status_code error,
      explainMatch db_fixture req = Failure status_code error
      ∧ (status_code = 400%Z ∨ status_code = 401%Z).
Proof.
  apply (explainMatch_checks_first db_fixture db_two_rates
           (mkExplainRequest (Some 1%Z) (Some 7%Z) None)).
  now left.
Defined.
